(** * Inventory / point-of-sale storage layer

    A shallow embedding of [server/sqlite-storage.ts] (class
    [DatabaseStorage]), of the tables it works on ([server/init-db.ts],
    [shared/sqlite-schema.ts]) and of the receipt arithmetic of
    [client/src/components/receipt-generator.tsx].

    Conventions of the embedding:
    - a table is the list of its rows in rowid order, together with the
      AUTOINCREMENT counter SQLite keeps for it;
    - INTEGER columns and JavaScript numbers that hold integers are [Z] (taken
      below 2^53 in size, where binary64 holds every integer), TEXT columns
      are [string] (the bytes of the UTF-8 text), nullable columns are
      [option];
    - REAL columns and JavaScript numbers that hold prices, rates and amounts
      are binary64 values, kept as the rationals [Q] they denote: comparisons
      are exact, and every addition, subtraction, multiplication and division
      gives the exact result rounded to the nearest binary64 value ([Js.b64]);
      infinities and NaN are not part of the embedding, which takes amounts
      to stay within the finite range of binary64;
    - a storage method is a function from the store to an outcome (a returned
      value or a thrown error) and the store it leaves behind: the code
      opens no transaction, so writes made before a throw stay in the store;
    - the clock ([new Date()], [Date.now()]) is an explicit argument. *)

From Stdlib Require Import List String Ascii ZArith NArith QArith Lia Bool.
From Stdlib Require Import Qround Qabs Qpower Lqa.
From Stdlib Require Import DecimalString DecimalN Sorted Permutation.
Import ListNotations.

Local Open Scope string_scope.
Local Open Scope Z_scope.

(** ** JavaScript values used by the storage layer *)

Module Js.

(** [String(n)] for a non-negative integer below 2^53: its decimal digits. *)
Definition String_ (n : N) : string :=
  NilEmpty.string_of_uint (N.to_uint n).

(** Reading a digit string back ([Number(s)] on a string of digits). *)
Definition parseDigits (s : string) : option N :=
  option_map N.of_uint (NilEmpty.uint_of_string s).

Fixpoint repeat_string (pad : string) (n : nat) : string :=
  match n with
  | O => EmptyString
  | S n' => pad ++ repeat_string pad n'
  end.

(** [s.padStart(targetLength, padString)]: [s] itself when it is long enough
    or the filler is empty, else the filler repeated and cut to the missing
    length, followed by [s]. *)
Definition padStart (targetLength : nat) (padString : string) (s : string)
  : string :=
  let len := String.length s in
  if (targetLength <=? len)%nat then s
  else if (String.length padString =? 0)%nat then s
  else
    let fill := (targetLength - len)%nat in
    substring 0 fill (repeat_string padString fill) ++ s.

(** Truthiness of an optional string: [undefined] and the empty string are
    falsy. *)
Definition truthy_string (s : option string) : option string :=
  match s with
  | Some EmptyString => None
  | other => other
  end.

(** Truthiness of an optional integer: [undefined] and [0] are falsy
    ([NaN], which [parseInt] yields on garbage, is falsy too and is folded
    into [None]). *)
Definition truthy_int (n : option Z) : option Z :=
  match n with
  | Some 0 => None
  | other => other
  end.

(** [x || 0] on the result of a numeric aggregate: [null] and [0] give [0]. *)
Definition or_zero_N (x : option N) : N :=
  match x with
  | Some n => n
  | None => 0%N
  end.

Definition or_zero_Q (x : option Q) : Q :=
  match x with
  | Some q => if Qeq_bool q 0 then 0%Q else q
  | None => 0%Q
  end.

(** [s.padEnd(targetLength, padString)]: as [padStart], the filler going
    after [s]. *)
Definition padEnd (targetLength : nat) (padString : string) (s : string)
  : string :=
  let len := String.length s in
  if (targetLength <=? len)%nat then s
  else if (String.length padString =? 0)%nat then s
  else
    let fill := (targetLength - len)%nat in
    s ++ substring 0 fill (repeat_string padString fill).

(** *** Numbers

    The finite binary64 values are the rationals [m * 2^e] with [m] a whole
    number of at most 53 bits and [e >= -1074]. *)

Definition pow2 (e : Z) : Q := (2 ^ e)%Q.

(** The exponent of the leading bit of a positive rational:
    [2^(ilog2 a) <= a < 2^(ilog2 a + 1)]. *)
Definition ilog2 (a : Q) : Z :=
  let k := Z.log2 (Qnum a) - Z.log2 (Zpos (Qden a)) in
  if Qle_bool (pow2 k) a then k else k - 1.

(** The nearest whole number, the even one of the two when [x] is half way
    between them. *)
Definition round_half_even (x : Q) : Z :=
  let f := Qfloor x in
  match (x - inject_Z f ?= 1 # 2)%Q with
  | Lt => f
  | Gt => f + 1
  | Eq => if Z.even f then f else f + 1
  end.

(** The exponent of the last place of the significand: 52 places below the
    leading bit, and not below 2^-1074 (subnormal numbers). *)
Definition ulp_exponent (a : Q) : Z := Z.max (ilog2 a - 52) (-1074).

Definition round_positive (a : Q) : Q :=
  let e := ulp_exponent a in
  (inject_Z (round_half_even (a / pow2 e)) * pow2 e)%Q.

(** Rounding to the nearest binary64 value, ties to even. *)
Definition b64 (x : Q) : Q :=
  let x := Qred x in
  match (x ?= 0)%Q with
  | Eq => 0%Q
  | Gt => round_positive x
  | Lt => (- round_positive (- x))%Q
  end.

(** [Number.MAX_VALUE], the largest finite binary64 value. *)
Definition MAX_VALUE : Q := (inject_Z (2 ^ 53 - 1) * pow2 971)%Q.

(** Is the rational a finite binary64 value? *)
Definition is_double (x : Q) : bool :=
  Qeq_bool (b64 x) x && Qle_bool (Qabs x) MAX_VALUE.

(** [x + y], [x - y], [x * y] and [x / y] on numbers. *)
Definition add (x y : Q) : Q := b64 (x + y).
Definition sub (x y : Q) : Q := b64 (x - y).
Definition mul (x y : Q) : Q := b64 (x * y).
Definition div (x y : Q) : Q := b64 (x / y).

(** The character class [0-9]. *)
Definition is_digit (c : ascii) : bool :=
  let n := nat_of_ascii c in
  ((48 <=? n) && (n <=? 57))%nat.

(** [s.replace(/[^0-9]/g, '')]: every character that is not a digit is
    dropped. *)
Fixpoint keep_digits (s : string) : string :=
  match s with
  | EmptyString => EmptyString
  | String c s' =>
      if is_digit c then String c (keep_digits s') else keep_digits s'
  end.

End Js.

(** ** The SQL fragments the queries are built from *)

Module Sql.

(** ASCII upper-casing, as SQLite's LIKE folds case for ASCII letters only. *)
Definition upper (c : ascii) : ascii :=
  let n := nat_of_ascii c in
  if ((97 <=? n) && (n <=? 122))%nat then ascii_of_nat (n - 32) else c.

Definition eq_nocase (c d : ascii) : bool := Ascii.eqb (upper c) (upper d).

(** The bytes of a UTF-8 character: a lead byte, from 0xC0 on, is followed by
    continuation bytes, 0x80 to 0xBF; any other byte stands alone. *)
Definition is_lead (c : ascii) : bool := (192 <=? nat_of_ascii c)%nat.
Definition is_continuation (c : ascii) : bool :=
  let n := nat_of_ascii c in
  ((128 <=? n) && (n <=? 191))%nat.

Fixpoint drop_continuation (s : string) : string :=
  match s with
  | String c s' => if is_continuation c then drop_continuation s' else s
  | EmptyString => EmptyString
  end.

(** The text after its first character. *)
Definition after_character (c : ascii) (s' : string) : string :=
  if is_lead c then drop_continuation s' else s'.

(** Trying [m] at every character boundary of [s]: [inside] tells that the
    bytes before [s] are those of a character that may go on. *)
Fixpoint at_boundaries (m : string -> bool) (inside : bool) (s : string)
  : bool :=
  match s with
  | EmptyString => m EmptyString
  | String c s' =>
      (if inside && is_continuation c then false else m s)
      || at_boundaries m (is_lead c || (inside && is_continuation c)) s'
  end.

(** [text LIKE pattern]: [%] matches any run of characters, [_] any single
    character, every other character matches itself up to ASCII case.  The
    text is UTF-8: [_] takes a whole character and [%] whole characters. *)
Fixpoint like_match (pat : string) : string -> bool :=
  match pat with
  | EmptyString => fun s => match s with EmptyString => true | _ => false end
  | String c pat' =>
      if Ascii.eqb c "%" then at_boundaries (like_match pat') false
      else if Ascii.eqb c "_" then
        fun s => match s with
                 | EmptyString => false
                 | String d s' => like_match pat' (after_character d s')
                 end
      else
        fun s => match s with
                 | EmptyString => false
                 | String d s' => eq_nocase c d && like_match pat' s'
                 end
  end.

(** [like(column, `%${search}%`)]; a NULL column makes the comparison NULL,
    which a WHERE clause treats as not matching. *)
Definition like (column : option string) (search : string) : bool :=
  match column with
  | Some text => like_match ("%" ++ search ++ "%") text
  | None => false
  end.

(** ORDER BY: rows ordered by [leb]; rows that compare equal keep their
    table order (SQLite leaves the order of ties unspecified). *)
Section OrderBy.
Context {A : Type} (leb : A -> A -> bool).

Fixpoint insert_row (x : A) (l : list A) : list A :=
  match l with
  | [] => [x]
  | y :: l' => if leb x y then x :: l else y :: insert_row x l'
  end.

Definition orderBy (l : list A) : list A := fold_right insert_row [] l.
End OrderBy.

(** [asc(key)] and [desc(key)] as row comparisons. *)
Definition asc {A K : Type} (le : K -> K -> bool) (key : A -> K)
  : A -> A -> bool := fun x y => le (key x) (key y).
Definition desc {A K : Type} (le : K -> K -> bool) (key : A -> K)
  : A -> A -> bool := fun x y => le (key y) (key x).

(** LIMIT n: a negative bound means no bound. *)
Definition limit {A : Type} (n : Z) (l : list A) : list A :=
  if n <? 0 then l else firstn (Z.to_nat n) l.

(** OFFSET m: a negative offset skips nothing. *)
Definition offset {A : Type} (m : Z) (l : list A) : list A :=
  skipn (Z.to_nat m) l.

(** [count( * )] over the selected rows. *)
Definition count {A : Type} (l : list A) : N := N.of_nat (List.length l).

(** How [sum()] adds REAL values, from the first row to the last: older
    versions of SQLite add each value to a running sum; newer ones also keep
    the error term of Kahan, Babuska and Neumaier and add it at the end.
    The version of SQLite is that of the installed better-sqlite3, which the
    sources do not fix. *)
Inductive Summation : Type := running_sum | compensated_sum.

(** One step of the compensated sum, on the running sum and its error
    term. *)
Definition compensated_step (acc : Q * Q) (r : Q) : Q * Q :=
  let s := fst acc in
  let t := Js.add s r in
  let e :=
    if Qle_bool (Qabs s) (Qabs r)
    then Js.add (Js.sub r t) s
    else Js.add (Js.sub s t) r in
  (t, Js.add (snd acc) e).

(** [sum(expr)] over the REAL values of the selected rows: NULL when there
    is no row. *)
Definition sum (engine : Summation) (l : list Q) : option Q :=
  match l with
  | [] => None
  | _ =>
      Some match engine with
           | running_sum => fold_left Js.add l 0%Q
           | compensated_sum =>
               let acc := fold_left compensated_step l (0%Q, 0%Q) in
               Js.add (fst acc) (snd acc)
           end
  end.

(** [l LEFT JOIN r ON on]: every row of [l] with each row of [r] it matches,
    or once with NULLs when it matches none. *)
Definition leftJoin {A B : Type} (on : A -> B -> bool) (l : list A)
  (r : list B) : list (A * option B) :=
  flat_map
    (fun a =>
       match filter (on a) r with
       | [] => [(a, None)]
       | matches => map (fun b => (a, Some b)) matches
       end)
    l.

(** GROUP BY key: a row joins the group of the rows with its key, or opens a
    new group after the others. *)
Fixpoint add_to_group {A : Type} (key : A -> Z) (x : A)
  (groups : list (list A)) : list (list A) :=
  match groups with
  | [] => [[x]]
  | g :: gs =>
      match g with
      | y :: _ =>
          if key y =? key x then (g ++ [x])%list :: gs
          else g :: add_to_group key x gs
      | [] => g :: add_to_group key x gs
      end
  end.

Definition groupBy {A : Type} (key : A -> Z) (l : list A) : list (list A) :=
  fold_left (fun groups x => add_to_group key x groups) l [].

(** [avg(expr)] over integer values: NULL when there is no row, else their
    sum divided by their number, as a REAL. *)
Definition avg (l : list Z) : option Q :=
  match l with
  | [] => None
  | _ =>
      Some (Js.div (inject_Z (fold_left Z.add l 0%Z))
                   (inject_Z (Z.of_nat (List.length l))))
  end.

End Sql.

(** ** The tables ([shared/sqlite-schema.ts], [server/init-db.ts])

    One module per table, its record carrying the columns under their
    TypeScript names.  The [products] columns that no storage query reads
    ([details], [model], the dimensions, [imageUrl], the barcode columns and
    [updatedAt]) are left out. *)

Module Category.
Record t : Type := mk {
  id : Z;
  name : string;
  code : string;
  description : option string;
  image : option string;
  createdAt : Z
}.
End Category.

Module Product.
Record t : Type := mk {
  id : Z;
  name : string;
  sku : string;
  category : string;
  price : Q;
  stockQuantity : Z;
  description : option string;
  brand : option string;
  tags : option string;
  isActive : bool;
  isFeatured : bool;
  createdAt : Z
}.

(** [Partial<InsertProduct>]: the columns an update may set; [set_others]
    tells whether it sets a column that [t] leaves out. *)
Record partial : Type := mkPartial {
  set_name : option string;
  set_sku : option string;
  set_category : option string;
  set_price : option Q;
  set_stockQuantity : option Z;
  set_description : option (option string);
  set_brand : option (option string);
  set_tags : option (option string);
  set_isActive : option bool;
  set_isFeatured : option bool;
  set_others : bool
}.

Definition or_keep {A : Type} (new : option A) (old : A) : A :=
  match new with
  | Some v => v
  | None => old
  end.

(** [UPDATE products SET ...] on one row: listed columns are overwritten. *)
Definition assign (u : partial) (p : t) : t :=
  mk (id p)
     (or_keep (set_name u) (name p))
     (or_keep (set_sku u) (sku p))
     (or_keep (set_category u) (category p))
     (or_keep (set_price u) (price p))
     (or_keep (set_stockQuantity u) (stockQuantity p))
     (or_keep (set_description u) (description p))
     (or_keep (set_brand u) (brand p))
     (or_keep (set_tags u) (tags p))
     (or_keep (set_isActive u) (isActive p))
     (or_keep (set_isFeatured u) (isFeatured p))
     (createdAt p).

(** Does the update set no column at all? *)
Definition sets_nothing (u : partial) : bool :=
  match set_name u, set_sku u, set_category u, set_price u,
        set_stockQuantity u, set_description u, set_brand u, set_tags u,
        set_isActive u, set_isFeatured u with
  | None, None, None, None, None, None, None, None, None, None =>
      negb (set_others u)
  | _, _, _, _, _, _, _, _, _, _ => false
  end.

(** The update [{ isActive: b }]. *)
Definition only_isActive (b : bool) : partial :=
  mkPartial None None None None None None None None (Some b) None false.
End Product.

Module ProductImage.
Record t : Type := mk {
  id : Z;
  productId : Z;
  imageUrl : string;
  alt : option string;
  isPrimary : bool;
  sortOrder : Z
}.
End ProductImage.

Module ProductReview.
Record t : Type := mk {
  id : Z;
  productId : Z;
  customerName : string;
  customerEmail : option string;
  rating : Z;
  reviewText : option string;
  isVerified : bool;
  createdAt : Z
}.
End ProductReview.

Module WishlistItem.
Record t : Type := mk {
  id : Z;
  sessionId : string;
  productId : Z;
  createdAt : Z
}.
End WishlistItem.

Module Receipt.
Record t : Type := mk {
  id : Z;
  receiptNumber : string;
  customerName : option string;
  businessName : string;
  businessAddress : option string;
  businessPhone : option string;
  subtotal : Q;
  taxRate : Q;
  taxAmount : Q;
  discountRate : option Q;
  discountAmount : option Q;
  totalAmount : Q;
  createdAt : Z
}.
End Receipt.

(** [InsertReceipt]: a receipt without [id] and [createdAt].  The two discount
    columns are nullable with DEFAULT 0: [None] is a key left out (the default
    applies), [Some None] an explicit [null]. *)
Module InsertReceipt.
Record t : Type := mk {
  receiptNumber : string;
  customerName : option string;
  businessName : string;
  businessAddress : option string;
  businessPhone : option string;
  subtotal : Q;
  taxRate : Q;
  taxAmount : Q;
  discountRate : option (option Q);
  discountAmount : option (option Q);
  totalAmount : Q
}.
End InsertReceipt.

Module ReceiptItem.
Record t : Type := mk {
  id : Z;
  receiptId : Z;
  productId : Z;
  productName : string;
  productSku : string;
  quantity : Z;
  unitPrice : Q;
  totalPrice : Q
}.
End ReceiptItem.

(** [InsertReceiptItem]: a receipt item without [id]. *)
Module InsertReceiptItem.
Record t : Type := mk {
  receiptId : Z;
  productId : Z;
  productName : string;
  productSku : string;
  quantity : Z;
  unitPrice : Q;
  totalPrice : Q
}.
End InsertReceiptItem.

(** ** The store *)

Module Db.

(** A table: its rows in rowid order and the largest rowid AUTOINCREMENT has
    handed out so far (the table's entry in [sqlite_sequence]). *)
Record Table (A : Type) : Type := mkTable {
  rows : list A;
  seq : Z
}.
Arguments mkTable {A} _ _.
Arguments rows {A} _.
Arguments seq {A} _.

Definition empty {A : Type} : Table A := mkTable [] 0.

(** The rowid of the next inserted row: one more than the largest rowid ever
    present in the table. *)
Definition next_rowid {A : Type} (id : A -> Z) (t : Table A) : Z :=
  fold_right Z.max (seq t) (map id (rows t)) + 1.

(** Appending the row built from the fresh rowid. *)
Definition append {A : Type} (id : A -> Z) (row : Z -> A) (t : Table A)
  : Table A :=
  let i := next_rowid id t in
  mkTable (rows t ++ [row i]) i.

(** DELETE FROM t WHERE cond. *)
Definition delete_where {A : Type} (cond : A -> bool) (t : Table A)
  : Table A :=
  mkTable (filter (fun r => negb (cond r)) (rows t)) (seq t).

Record Store : Type := mkStore {
  categories : Table Category.t;
  products : Table Product.t;
  productImages : Table ProductImage.t;
  productReviews : Table ProductReview.t;
  wishlist : Table WishlistItem.t;
  receipts : Table Receipt.t;
  receiptItems : Table ReceiptItem.t
}.

Definition with_categories (t : Table Category.t) (st : Store) : Store :=
  mkStore t (products st) (productImages st) (productReviews st)
          (wishlist st) (receipts st) (receiptItems st).

Definition with_products (t : Table Product.t) (st : Store) : Store :=
  mkStore (categories st) t (productImages st) (productReviews st)
          (wishlist st) (receipts st) (receiptItems st).

Definition with_wishlist (t : Table WishlistItem.t) (st : Store) : Store :=
  mkStore (categories st) (products st) (productImages st)
          (productReviews st) t (receipts st) (receiptItems st).

Definition with_receipts (t : Table Receipt.t) (st : Store) : Store :=
  mkStore (categories st) (products st) (productImages st)
          (productReviews st) (wishlist st) t (receiptItems st).

Definition with_receiptItems (t : Table ReceiptItem.t) (st : Store) : Store :=
  mkStore (categories st) (products st) (productImages st)
          (productReviews st) (wishlist st) (receipts st) t.

(** The errors a call throws: those of better-sqlite3, on a violated
    constraint and on a statement that SQLite cannot parse, and the
    [Error('No values to set')] of drizzle. *)
Inductive Error : Type :=
| SQLITE_CONSTRAINT_UNIQUE
| SQLITE_CONSTRAINT_FOREIGNKEY
| SQLITE_ERROR
| NO_VALUES_TO_SET.

Inductive outcome (A : Type) : Type :=
| Returned (a : A)
| Thrown (e : Error).
Arguments Returned {A} _.
Arguments Thrown {A} _.

(** A storage method: the outcome of the call and the store after it.  There
    is no rollback: a throw keeps the writes made before it. *)
Definition M (A : Type) : Type := Store -> outcome A * Store.

Definition ret {A : Type} (a : A) : M A := fun st => (Returned a, st).

Definition throw {A : Type} (e : Error) : M A :=
  fun st => (Thrown e, st).

Definition bind {A B : Type} (m : M A) (k : A -> M B) : M B :=
  fun st =>
    match m st with
    | (Returned a, st') => k a st'
    | (Thrown e, st') => (Thrown e, st')
    end.

(** A SELECT: reads the store and leaves it as it is. *)
Definition select {A : Type} (q : Store -> A) : M A :=
  fun st => (Returned (q st), st).

(** [for (const x of xs) { await body(x) }] *)
Fixpoint for_of {A : Type} (xs : list A) (body : A -> M unit) : M unit :=
  match xs with
  | [] => ret tt
  | x :: xs' => bind (body x) (fun _ => for_of xs' body)
  end.

End Db.

Declare Scope db_scope.
Delimit Scope db_scope with db.
Notation "x <- m ;; k" := (Db.bind m (fun x => k))
  (at level 61, m at next level, right associativity) : db_scope.

(** ** Insert types ([shared/sqlite-schema.ts])

    A column with a default may be left out: [None] on such a column means
    the key is absent and the default applies. *)

Module InsertCategory.
Record t : Type := mk {
  name : string;
  code : string;
  description : option string;
  image : option string
}.
End InsertCategory.

(** [InsertProduct], on the columns of [Product.t]. *)
Module InsertProduct.
Record t : Type := mk {
  name : string;
  sku : string;
  category : string;
  price : Q;
  stockQuantity : Z;
  description : option string;
  brand : option string;
  tags : option string;
  isActive : option bool;
  isFeatured : option bool
}.
End InsertProduct.

Module InsertProductImage.
Record t : Type := mk {
  productId : Z;
  imageUrl : string;
  alt : option string;
  isPrimary : option bool;
  sortOrder : option Z
}.
End InsertProductImage.

Module InsertProductReview.
Record t : Type := mk {
  productId : Z;
  customerName : string;
  customerEmail : option string;
  rating : Z;
  reviewText : option string;
  isVerified : option bool
}.
End InsertProductReview.

(** ** The storage methods ([server/sqlite-storage.ts], [DatabaseStorage]) *)

Module Storage.
Import Db.
Local Open Scope db_scope.

(** [and(...conditions)] *)
Definition and_ {A : Type} (conditions : list (A -> bool)) (r : A) : bool :=
  forallb (fun c => c r) conditions.

(** [if (value) conditions.push(cond(value))] *)
Definition push_if {A V : Type} (value : option V) (cond : V -> A -> bool)
  : list (A -> bool) :=
  match value with
  | Some v => [cond v]
  | None => []
  end.

Definition truthy_bool (b : option bool) : option unit :=
  match b with
  | Some true => Some tt
  | _ => None
  end.

(** *** Admin product listing *)

Definition products_search (search : string) (p : Product.t) : bool :=
  Sql.like (Some (Product.name p)) search
  || Sql.like (Some (Product.sku p)) search
  || Sql.like (Product.description p) search.

Definition getProducts (search category : option string)
  : M (list Product.t) :=
  select (fun st =>
    let conditions :=
      (push_if (Js.truthy_string search) products_search
       ++ push_if (Js.truthy_string category)
            (fun c p => String.eqb (Product.category p) c))%list in
    let query :=
      if (0 <? List.length conditions)%nat
      then filter (and_ conditions) (rows (products st))
      else rows (products st) in
    Sql.limit 100 (Sql.orderBy (Sql.desc Z.leb Product.createdAt) query)).

(** *** Catalog query *)

Inductive SortBy : Type := by_name | by_price | by_created | by_rating.
Inductive SortOrder : Type := order_asc | order_desc.

Record Filters : Type := mkFilters {
  search : option string;
  category : option string;
  minPrice : option Q;
  maxPrice : option Q;
  inStock : option bool;
  featured : option bool;
  sortBy : option SortBy;
  sortOrder : option SortOrder;
  limit : option Z;
  offset : option Z
}.

Definition catalog_search (search : string) (p : Product.t) : bool :=
  Sql.like (Some (Product.name p)) search
  || Sql.like (Some (Product.sku p)) search
  || Sql.like (Product.description p) search
  || Sql.like (Product.brand p) search
  || Sql.like (Product.tags p) search.

(** The WHERE conjuncts, in the order the code pushes them. *)
Definition catalog_conditions (filters : Filters)
  : list (Product.t -> bool) :=
  ([fun p => Bool.eqb (Product.isActive p) true]
   ++ push_if (Js.truthy_string (search filters)) catalog_search
   ++ push_if (Js.truthy_string (category filters))
        (fun c p => String.eqb (Product.category p) c)
   ++ push_if (minPrice filters) (fun a p => Qle_bool a (Product.price p))
   ++ push_if (maxPrice filters) (fun b p => Qle_bool (Product.price p) b)
   ++ push_if (truthy_bool (inStock filters))
        (fun _ p => 0 <? Product.stockQuantity p)
   ++ push_if (truthy_bool (featured filters))
        (fun _ p => Bool.eqb (Product.isFeatured p) true))%list.

(** The ORDER BY term chosen by [sortBy] and [sortOrder]. *)
Definition catalog_order (filters : Filters)
  : Product.t -> Product.t -> bool :=
  let sortOrder {K : Type} (le : K -> K -> bool) (key : Product.t -> K) :=
    match sortOrder filters with
    | Some order_desc => Sql.desc le key
    | _ => Sql.asc le key
    end in
  match sortBy filters with
  | Some by_price => sortOrder Qle_bool Product.price
  | Some by_created => sortOrder Z.leb Product.createdAt
  | _ => sortOrder String.leb Product.name
  end.

(** LIMIT and OFFSET, each set only for a truthy value; the offset is applied
    to the ordered rows before the limit.  With an offset and no limit the
    statement ends in [offset ?] with no [limit] before it, which SQLite
    does not parse: the query throws. *)
Definition catalog_window (filters : Filters) (l : list Product.t)
  : outcome (list Product.t) :=
  match Js.truthy_int (limit filters), Js.truthy_int (offset filters) with
  | Some n, Some m => Returned (Sql.limit n (Sql.offset m l))
  | Some n, None => Returned (Sql.limit n l)
  | None, Some _ => Thrown SQLITE_ERROR
  | None, None => Returned l
  end.

Definition getCatalogProducts (filters : Filters) : M (list Product.t) :=
  fun st =>
    let conditions := catalog_conditions filters in
    let query := filter (and_ conditions) (rows (products st)) in
    (catalog_window filters (Sql.orderBy (catalog_order filters) query), st).

(** *** Product update and deletion *)

(** [UPDATE products SET ... WHERE id = ? RETURNING *]: the row with that id
    is rewritten in place; [sku] is UNIQUE, so setting it to the sku of another
    row throws and changes nothing.  Returns the updated row, if any.  An
    update that sets no column is refused by drizzle's [set], before any
    statement is run. *)
Definition updateProduct (id : Z) (product : Product.partial)
  : M (option Product.t) :=
  fun st =>
    if Product.sets_nothing product then (Thrown NO_VALUES_TO_SET, st) else
    let hit (p : Product.t) := Product.id p =? id in
    let updated :=
      map (fun p => if hit p then Product.assign product p else p)
          (rows (products st)) in
    let clash :=
      match Product.set_sku product with
      | Some s =>
          existsb hit (rows (products st))
          && existsb (fun p => negb (hit p) && String.eqb (Product.sku p) s)
               (rows (products st))
      | None => false
      end in
    if clash then (Thrown SQLITE_CONSTRAINT_UNIQUE, st)
    else (Returned (find hit updated),
          with_products (mkTable updated (seq (products st))) st).

(** [DELETE FROM products WHERE id = ?] with [foreign_keys = ON]
    ([server/db.ts]).  The child tables declare
    - [product_images.product_id], [product_reviews.product_id],
      [wishlist.product_id]: REFERENCES products(id) ON DELETE CASCADE;
    - [receipt_items.product_id]: REFERENCES products(id), no ON DELETE
      clause, hence NO ACTION: a product row that a receipt item references
      cannot be deleted, the statement fails as a whole.
    Returns [result.changes > 0]. *)
Definition deleteProduct (id : Z) : M bool :=
  fun st =>
    let hit (p : Product.t) := Product.id p =? id in
    let changes := List.length (filter hit (rows (products st))) in
    if (changes =? 0)%nat then (Returned false, st)
    else if existsb (fun it => ReceiptItem.productId it =? id)
              (rows (receiptItems st))
    then (Thrown SQLITE_CONSTRAINT_FOREIGNKEY, st)
    else
      (Returned true,
       mkStore
         (categories st)
         (delete_where hit (products st))
         (delete_where (fun i => ProductImage.productId i =? id)
            (productImages st))
         (delete_where (fun r => ProductReview.productId r =? id)
            (productReviews st))
         (delete_where (fun w => WishlistItem.productId w =? id)
            (wishlist st))
         (receipts st)
         (receiptItems st)).

(** *** SKU generation *)

(** [year] is [new Date().getFullYear()]. *)
Definition generateSku (year : N) (category : string) : M string :=
  select (fun st =>
    let result :=
      Sql.count
        (filter (fun p => String.eqb (Product.category p) category)
           (rows (products st))) in
    let nextNumber := (Js.or_zero_N (Some result) + 1)%N in
    category ++ "-" ++ Js.padStart 3 "0" (Js.String_ nextNumber)
      ++ "-" ++ Js.String_ year).

(** *** Wishlist *)

Definition wishlist_pair (sessionId : string) (productId : Z)
  (w : WishlistItem.t) : bool :=
  String.eqb (WishlistItem.sessionId w) sessionId
  && (WishlistItem.productId w =? productId).

(** [INSERT INTO wishlist ... RETURNING *]: [product_id] must reference a
    product; [created_at] defaults to the current time [now]. *)
Definition insert_wishlist (now : Z) (sessionId : string) (productId : Z)
  : M WishlistItem.t :=
  fun st =>
    if existsb (fun p => Product.id p =? productId) (rows (products st))
    then
      let row i := WishlistItem.mk i sessionId productId now in
      (Returned (row (next_rowid WishlistItem.id (wishlist st))),
       with_wishlist (append WishlistItem.id row (wishlist st)) st)
    else (Thrown SQLITE_CONSTRAINT_FOREIGNKEY, st).

Definition addToWishlist (now : Z) (sessionId : string) (productId : Z)
  : M WishlistItem.t :=
  existing <- select (fun st =>
                find (wishlist_pair sessionId productId)
                     (rows (wishlist st))) ;;
  match existing with
  | Some w => ret w
  | None => insert_wishlist now sessionId productId
  end.

(** [DELETE FROM wishlist WHERE session_id = ? AND product_id = ?];
    returns [result.changes > 0]. *)
Definition removeFromWishlist (sessionId : string) (productId : Z) : M bool :=
  fun st =>
    let changes :=
      List.length (filter (wishlist_pair sessionId productId)
                     (rows (wishlist st))) in
    (Returned (0 <? changes)%nat,
     with_wishlist
       (delete_where (wishlist_pair sessionId productId) (wishlist st)) st).

(** *** Receipts *)

Definition or_default (column : option (option Q)) : option Q :=
  match column with
  | Some v => v
  | None => Some 0%Q
  end.

(** [INSERT INTO receipts ... RETURNING *]: [receipt_number] is UNIQUE; the
    totals are stored as they are given. *)
Definition insert_receipt (now : Z) (receipt : InsertReceipt.t)
  : M Receipt.t :=
  fun st =>
    if existsb
         (fun r => String.eqb (Receipt.receiptNumber r)
                     (InsertReceipt.receiptNumber receipt))
         (rows (receipts st))
    then (Thrown SQLITE_CONSTRAINT_UNIQUE, st)
    else
      let row i :=
        Receipt.mk i
          (InsertReceipt.receiptNumber receipt)
          (InsertReceipt.customerName receipt)
          (InsertReceipt.businessName receipt)
          (InsertReceipt.businessAddress receipt)
          (InsertReceipt.businessPhone receipt)
          (InsertReceipt.subtotal receipt)
          (InsertReceipt.taxRate receipt)
          (InsertReceipt.taxAmount receipt)
          (or_default (InsertReceipt.discountRate receipt))
          (or_default (InsertReceipt.discountAmount receipt))
          (InsertReceipt.totalAmount receipt)
          now in
      (Returned (row (next_rowid Receipt.id (receipts st))),
       with_receipts (append Receipt.id row (receipts st)) st).

(** The row stored for [{ ...item, receiptId }]. *)
Definition item_row (receiptId : Z) (item : InsertReceiptItem.t) (i : Z)
  : ReceiptItem.t :=
  ReceiptItem.mk i receiptId
    (InsertReceiptItem.productId item)
    (InsertReceiptItem.productName item)
    (InsertReceiptItem.productSku item)
    (InsertReceiptItem.quantity item)
    (InsertReceiptItem.unitPrice item)
    (InsertReceiptItem.totalPrice item).

(** [INSERT INTO receipt_items ...]: [receipt_id] must reference a receipt and
    [product_id] a product. *)
Definition insert_receiptItem (receiptId : Z) (item : InsertReceiptItem.t)
  : M unit :=
  fun st =>
    if existsb (fun r => Receipt.id r =? receiptId) (rows (receipts st))
       && existsb (fun p => Product.id p =? InsertReceiptItem.productId item)
            (rows (products st))
    then
      (Returned tt,
       with_receiptItems
         (append ReceiptItem.id (item_row receiptId item) (receiptItems st))
         st)
    else (Thrown SQLITE_CONSTRAINT_FOREIGNKEY, st).

Definition createReceipt (now : Z) (receipt : InsertReceipt.t)
  (items : list InsertReceiptItem.t) : M Receipt.t :=
  newReceipt <- insert_receipt now receipt ;;
  _ <- for_of items
         (fun item => insert_receiptItem (Receipt.id newReceipt) item) ;;
  ret newReceipt.

(** *** Analytics *)

Record ProductStats : Type := mkStats {
  totalProducts : N;
  totalValue : Q;
  lowStockCount : N;
  categoriesCount : N
}.

(** [engine] is the summation of the installed SQLite. *)
Definition getProductStats (engine : Sql.Summation) : M ProductStats :=
  select (fun st =>
    let totalProducts := Sql.count (rows (products st)) in
    let totalValue :=
      Sql.sum engine
        (map (fun p =>
                Js.mul (Product.price p) (inject_Z (Product.stockQuantity p)))
           (rows (products st))) in
    let lowStockCount :=
      Sql.count
        (filter (fun p => Product.stockQuantity p <=? 10)
           (rows (products st))) in
    let categoriesCount := Sql.count (rows (categories st)) in
    mkStats (Js.or_zero_N (Some totalProducts))
            (Js.or_zero_Q totalValue)
            (Js.or_zero_N (Some lowStockCount))
            (Js.or_zero_N (Some categoriesCount))).

(** *** Categories *)

Definition getCategories : M (list Category.t) :=
  select (fun st =>
    Sql.orderBy (Sql.asc String.leb Category.name) (rows (categories st))).

(** [INSERT INTO categories ... RETURNING *]: [name] and [code] are each
    UNIQUE. *)
Definition createCategory (now : Z) (category : InsertCategory.t)
  : M Category.t :=
  fun st =>
    if existsb
         (fun c =>
            String.eqb (Category.name c) (InsertCategory.name category)
            || String.eqb (Category.code c) (InsertCategory.code category))
         (rows (categories st))
    then (Thrown SQLITE_CONSTRAINT_UNIQUE, st)
    else
      let row i :=
        Category.mk i
          (InsertCategory.name category)
          (InsertCategory.code category)
          (InsertCategory.description category)
          (InsertCategory.image category)
          now in
      (Returned (row (next_rowid Category.id (categories st))),
       with_categories (append Category.id row (categories st)) st).

Definition getCategoryByCode (code : string) : M (option Category.t) :=
  select (fun st =>
    find (fun c => String.eqb (Category.code c) code)
         (rows (categories st))).

(** A category with the [productCount] column next to its own. *)
Record CategoryWithCount : Type := mkWithCount {
  counted : Category.t;
  productCount : N
}.

Definition is_some {A : Type} (o : option A) : bool :=
  match o with
  | Some _ => true
  | None => false
  end.

(** [SELECT categories.*, count(products.id) FROM categories LEFT JOIN
    products ON (code = category AND is_active) GROUP BY categories.id
    ORDER BY categories.name]: the category columns of a group are read off
    its first row, [count(products.id)] counts its rows whose product is not
    NULL. *)
Definition getCategoriesWithProductCount : M (list CategoryWithCount) :=
  select (fun st =>
    let joined :=
      Sql.leftJoin
        (fun c p =>
           String.eqb (Category.code c) (Product.category p)
           && Bool.eqb (Product.isActive p) true)
        (rows (categories st)) (rows (products st)) in
    let groups := Sql.groupBy (fun r => Category.id (fst r)) joined in
    let result :=
      flat_map
        (fun g =>
           match g with
           | [] => []
           | (c, _) :: _ =>
               [mkWithCount c
                  (Sql.count (filter (fun r => is_some (snd r)) g))]
           end)
        groups in
    Sql.orderBy (Sql.asc String.leb (fun r => Category.name (counted r)))
      result).

(** *** Products, one at a time *)

Definition or_else {A : Type} (value : option A) (default : A) : A :=
  match value with
  | Some v => v
  | None => default
  end.

(** [INSERT INTO products ... RETURNING *]: [sku] is UNIQUE; [is_active]
    defaults to true, [is_featured] to false, [created_at] to the current
    time [now]. *)
Definition createProduct (now : Z) (product : InsertProduct.t)
  : M Product.t :=
  fun st =>
    if existsb
         (fun p => String.eqb (Product.sku p) (InsertProduct.sku product))
         (rows (products st))
    then (Thrown SQLITE_CONSTRAINT_UNIQUE, st)
    else
      let row i :=
        Product.mk i
          (InsertProduct.name product)
          (InsertProduct.sku product)
          (InsertProduct.category product)
          (InsertProduct.price product)
          (InsertProduct.stockQuantity product)
          (InsertProduct.description product)
          (InsertProduct.brand product)
          (InsertProduct.tags product)
          (or_else (InsertProduct.isActive product) true)
          (or_else (InsertProduct.isFeatured product) false)
          now in
      (Returned (row (next_rowid Product.id (products st))),
       with_products (append Product.id row (products st)) st).

Definition getProduct (id : Z) : M (option Product.t) :=
  select (fun st => find (fun p => Product.id p =? id) (rows (products st))).

Definition getProductBySku (sku : string) : M (option Product.t) :=
  select (fun st =>
    find (fun p => String.eqb (Product.sku p) sku) (rows (products st))).

(** [limit] is the optional argument, 8 when it is left out. *)
Definition getFeaturedProducts (limit : option Z) : M (list Product.t) :=
  select (fun st =>
    Sql.limit (or_else limit 8)
      (Sql.orderBy (Sql.desc Z.leb Product.createdAt)
         (filter
            (and_ [fun p => Bool.eqb (Product.isActive p) true;
                   fun p => Bool.eqb (Product.isFeatured p) true])
            (rows (products st))))).

(** *** Product images *)

Definition with_productImages (t : Table ProductImage.t) (st : Store)
  : Store :=
  mkStore (categories st) (products st) t (productReviews st)
          (wishlist st) (receipts st) (receiptItems st).

Definition getProductImages (productId : Z) : M (list ProductImage.t) :=
  select (fun st =>
    Sql.orderBy (Sql.asc Z.leb ProductImage.sortOrder)
      (filter (fun i => ProductImage.productId i =? productId)
         (rows (productImages st)))).

(** [INSERT INTO product_images ... RETURNING *]: [product_id] must
    reference a product; [is_primary] defaults to false, [sort_order]
    to 0. *)
Definition addProductImage (image : InsertProductImage.t)
  : M ProductImage.t :=
  fun st =>
    if existsb (fun p => Product.id p =? InsertProductImage.productId image)
         (rows (products st))
    then
      let row i :=
        ProductImage.mk i
          (InsertProductImage.productId image)
          (InsertProductImage.imageUrl image)
          (InsertProductImage.alt image)
          (or_else (InsertProductImage.isPrimary image) false)
          (or_else (InsertProductImage.sortOrder image) 0) in
      (Returned (row (next_rowid ProductImage.id (productImages st))),
       with_productImages (append ProductImage.id row (productImages st)) st)
    else (Thrown SQLITE_CONSTRAINT_FOREIGNKEY, st).

(** [DELETE FROM product_images WHERE id = ?]; returns
    [result.changes > 0]. *)
Definition deleteProductImage (id : Z) : M bool :=
  fun st =>
    let hit (i : ProductImage.t) := ProductImage.id i =? id in
    let changes := List.length (filter hit (rows (productImages st))) in
    (Returned (0 <? changes)%nat,
     with_productImages (delete_where hit (productImages st)) st).

(** *** Product reviews *)

Definition with_productReviews (t : Table ProductReview.t) (st : Store)
  : Store :=
  mkStore (categories st) (products st) (productImages st) t
          (wishlist st) (receipts st) (receiptItems st).

Definition getProductReviews (productId : Z) : M (list ProductReview.t) :=
  select (fun st =>
    Sql.orderBy (Sql.desc Z.leb ProductReview.createdAt)
      (filter (fun r => ProductReview.productId r =? productId)
         (rows (productReviews st)))).

(** [INSERT INTO product_reviews ... RETURNING *]: [product_id] must
    reference a product; [is_verified] defaults to false. *)
Definition addProductReview (now : Z) (review : InsertProductReview.t)
  : M ProductReview.t :=
  fun st =>
    if existsb (fun p => Product.id p =? InsertProductReview.productId review)
         (rows (products st))
    then
      let row i :=
        ProductReview.mk i
          (InsertProductReview.productId review)
          (InsertProductReview.customerName review)
          (InsertProductReview.customerEmail review)
          (InsertProductReview.rating review)
          (InsertProductReview.reviewText review)
          (or_else (InsertProductReview.isVerified review) false)
          now in
      (Returned (row (next_rowid ProductReview.id (productReviews st))),
       with_productReviews
         (append ProductReview.id row (productReviews st)) st)
    else (Thrown SQLITE_CONSTRAINT_FOREIGNKEY, st).

(** [result?.avg || 0] *)
Definition getAverageRating (productId : Z) : M Q :=
  select (fun st =>
    let result :=
      Sql.avg
        (map ProductReview.rating
           (filter (fun r => ProductReview.productId r =? productId)
              (rows (productReviews st)))) in
    Js.or_zero_Q result).

(** The product with its images and reviews, [undefined] when there is no
    such product. *)
Definition getProductWithImages (id : Z)
  : M (option (Product.t * list ProductImage.t * list ProductReview.t)) :=
  product <- select (fun st =>
               find (fun p => Product.id p =? id) (rows (products st))) ;;
  match product with
  | None => ret None
  | Some p =>
      images <- getProductImages id ;;
      reviews <- getProductReviews id ;;
      ret (Some (p, images, reviews))
  end.

(** *** Reading the wishlist and the receipts *)

Definition getWishlist (sessionId : string) : M (list WishlistItem.t) :=
  select (fun st =>
    Sql.orderBy (Sql.desc Z.leb WishlistItem.createdAt)
      (filter (fun w => String.eqb (WishlistItem.sessionId w) sessionId)
         (rows (wishlist st)))).

Definition getReceipts : M (list Receipt.t) :=
  select (fun st =>
    Sql.orderBy (Sql.desc Z.leb Receipt.createdAt) (rows (receipts st))).

Definition getReceipt (id : Z) : M (option Receipt.t) :=
  select (fun st => find (fun r => Receipt.id r =? id) (rows (receipts st))).

Definition getReceiptItems (receiptId : Z) : M (list ReceiptItem.t) :=
  select (fun st =>
    filter (fun it => ReceiptItem.receiptId it =? receiptId)
      (rows (receiptItems st))).

End Storage.

(** ** The receipt form ([client/src/components/receipt-generator.tsx]) *)

Module Client.

(** A product ticked in the form, with its quantity and line total. *)
Record SelectedProduct : Type := mkSelected {
  product : Product.t;
  quantity : Z;
  total : Q
}.

Record Totals : Type := mkTotals {
  subtotal : Q;
  discountAmount : Q;
  taxAmount : Q;
  total_ : Q
}.

(** [taxRate] and [discountRate] are [form.watch(...)], [None] when the field
    holds no number. *)
Definition calculateTotals (selectedProducts : list SelectedProduct)
  (watch_taxRate watch_discountRate : option Q) : Totals :=
  let subtotal :=
    fold_left (fun sum p => Js.add sum (total p)) selectedProducts 0%Q in
  let taxRate := Js.or_zero_Q watch_taxRate in
  let discountRate := Js.or_zero_Q watch_discountRate in
  let discountAmount := Js.mul subtotal discountRate in
  let taxableAmount := Js.sub subtotal discountAmount in
  let taxAmount := Js.mul taxableAmount taxRate in
  let total := Js.add taxableAmount taxAmount in
  mkTotals subtotal discountAmount taxAmount total.

(** *** The selection of products in the form *)

(** [handleProductSelect(product, checked)]: ticking appends the product with
    quantity 1, unticking drops every entry with its id. *)
Definition handleProductSelect (product : Product.t) (checked : bool)
  (prev : list SelectedProduct) : list SelectedProduct :=
  if checked
  then (prev ++ [mkSelected product 1 (Product.price product)])%list
  else filter (fun p => negb (Product.id (Client.product p)
                              =? Product.id product)) prev.

(** [updateQuantity(productId, quantity)] *)
Definition updateQuantity (productId : Z) (quantity : Z)
  (prev : list SelectedProduct) : list SelectedProduct :=
  map (fun p =>
         if Product.id (Client.product p) =? productId
         then mkSelected (Client.product p) quantity
                (Js.mul (Product.price (Client.product p)) (inject_Z quantity))
         else p)
      prev.

(** [removeProduct(productId)] *)
Definition removeProduct (productId : Z) (prev : list SelectedProduct)
  : list SelectedProduct :=
  filter (fun p => negb (Product.id (Client.product p) =? productId)) prev.

(** [selectedProduct?.quantity || 1] for
    [selectedProduct = selectedProducts.find(p => p.id === product.id)] *)
Definition shown_quantity (product : Product.t)
  (selectedProducts : list SelectedProduct) : Z :=
  match find (fun p => Product.id (Client.product p) =? Product.id product)
             selectedProducts with
  | Some p => if quantity p =? 0 then 1 else quantity p
  | None => 1
  end.

(** The minus button of a product row. *)
Definition clickMinus (product : Product.t)
  (selectedProducts : list SelectedProduct) : list SelectedProduct :=
  updateQuantity (Product.id product)
    (Z.max 1 (shown_quantity product selectedProducts - 1))
    selectedProducts.

(** The plus button of a product row. *)
Definition clickPlus (product : Product.t)
  (selectedProducts : list SelectedProduct) : list SelectedProduct :=
  updateQuantity (Product.id product)
    (shown_quantity product selectedProducts + 1)
    selectedProducts.

End Client.

(** ** Shared client helpers (the second half of [client/src/lib/barcode.ts]) *)

Module Utils.

Record StockStatus : Type := mkStatus {
  label : string;
  variant : string
}.

Definition calculateStockStatus (stock : Z) : StockStatus :=
  if stock =? 0 then mkStatus "Out of Stock" "destructive"
  else if stock <=? 10 then mkStatus "Low Stock" "secondary"
  else mkStatus "In Stock" "default".

End Utils.

(** ** Barcode payload ([client/src/lib/barcode.ts]) *)

Module Barcode.

(** The [barcodeData] that [generateBarcode(data, format)] hands to JsBarcode
    (formats other than ['qr']): [data] itself, except for ['ean13'], where
    it is the digits of [data], filled with zeros at the end and cut to 12
    characters. *)
Definition barcodeData (data format : string) : string :=
  if String.eqb format "ean13" then
    let numericData := Js.keep_digits data in
    substring 0 12 (Js.padEnd 12 "0" numericData)
  else data.

End Barcode.

(** ** The analytics page ([client/src/components/advanced-analytics.tsx])

    [products] is the list the page fetched from [/api/products]. *)

Module Analytics.

Record CategoryStat : Type := mkCategoryStat {
  name : string;
  count : nat;
  value : Q
}.

Definition categoryStats (categories : list Category.t)
  (products : list Product.t) : list CategoryStat :=
  map (fun category =>
         let categoryProducts :=
           filter (fun p => String.eqb (Product.category p)
                              (Category.code category)) products in
         let totalValue :=
           fold_left
             (fun sum p =>
                Js.add sum
                  (Js.mul (Product.price p)
                          (inject_Z (Product.stockQuantity p))))
             categoryProducts 0%Q in
         mkCategoryStat (Category.name category)
                        (List.length categoryProducts) totalValue)
      categories.

Definition lowStockItems (products : list Product.t) : list Product.t :=
  filter (fun p => Product.stockQuantity p <=? 10) products.

Record TopProduct : Type := mkTop {
  top_name : string;
  top_value : Q;
  top_stock : Z
}.

(** [products.map(...).sort((a, b) => b.value - a.value).slice(0, 5)]: the
    sort is stable, entries of equal value keep their order. *)
Definition topProducts (products : list Product.t) : list TopProduct :=
  firstn 5
    (Sql.orderBy (Sql.desc Qle_bool top_value)
       (map (fun p =>
               mkTop (Product.name p)
                     (Js.mul (Product.price p)
                             (inject_Z (Product.stockQuantity p)))
                     (Product.stockQuantity p))
            products)).

(** The values of the three entries of [stockStatusData]. *)
Record StockStatusData : Type := mkBands {
  inStock : nat;
  lowStock : nat;
  outOfStock : nat
}.

Definition stockStatusData (products : list Product.t) : StockStatusData :=
  mkBands
    (List.length (filter (fun p => 10 <? Product.stockQuantity p) products))
    (List.length
       (filter (fun p => (0 <? Product.stockQuantity p)
                         && (Product.stockQuantity p <=? 10)) products))
    (List.length (filter (fun p => Product.stockQuantity p =? 0) products)).

End Analytics.

(** ** Database initialisation ([server/init-db.ts]) *)

Module InitDb.
Import Db.

(** The rows of the [INSERT OR IGNORE INTO categories] statement:
    name, code, description. *)
Definition default_categories : list (string * string * string) :=
  [ ("Electronics", "ELC", "Electronic devices and components");
    ("Clothing", "CLT", "Apparel and fashion items");
    ("Food & Beverage", "FNB", "Food and drink products");
    ("Home & Garden", "HOM", "Home improvement and garden supplies");
    ("Books", "BKS", "Books and educational materials");
    ("Toys", "TOY", "Toys and games") ].

(** One row of an INSERT OR IGNORE: a row whose name or code is taken is
    skipped, any other is appended.  The rowid is drawn before the UNIQUE
    columns are checked, so that a skipped row uses up a rowid too: the
    AUTOINCREMENT counter moves on. *)
Definition insert_or_ignore (created_at : Z)
  (row : string * string * string) : M unit :=
  fun st =>
    let '(name, code, description) := row in
    if existsb
         (fun c => String.eqb (Category.name c) name
                   || String.eqb (Category.code c) code)
         (rows (categories st))
    then
      (Returned tt,
       with_categories
         (mkTable (rows (categories st))
                  (next_rowid Category.id (categories st)))
         st)
    else
      (Returned tt,
       with_categories
         (append Category.id
            (fun i => Category.mk i name code (Some description) None
                        created_at)
            (categories st))
         st).

(** The statement evaluates [Date.now()] once per row: [now code] is its
    value in the row of that code. *)
Definition insert_default (now : string -> Z)
  (row : string * string * string) : M unit :=
  insert_or_ignore (now (snd (fst row))) row.

(** The tables exist in every store of this embedding, so CREATE TABLE IF NOT
    EXISTS does nothing; what is left is the insertion of the default
    categories. *)
Definition initializeDatabase (now : string -> Z) : M unit :=
  for_of default_categories (insert_default now).

End InitDb.

(** ** Authentication ([server/auth.ts])

    The [users] table is a store of its own here; no other code of this
    development reads it. *)

Module User.
Record t : Type := mk {
  id : Z;
  username : string;
  password : string;
  role : string;
  createdAt : Z;
  updatedAt : Z
}.
End User.

Module Auth.
Import Db.

(** What a session keeps of a user. *)
Record SessionUser : Type := mkSession {
  id : Z;
  username : string;
  role : string
}.

(** What a middleware does with a request: pass it on or answer it. *)
Inductive Reply : Type :=
| next
| status (code : Z) (error : string).

Definition requireAuth (session_user : option SessionUser) : Reply :=
  match session_user with
  | None => status 401 "Authentication required"
  | Some _ => next
  end.

Definition requireAdmin (session_user : option SessionUser) : Reply :=
  match session_user with
  | None => status 403 "Admin access required"
  | Some u =>
      if String.eqb (role u) "admin" then next
      else status 403 "Admin access required"
  end.

Record PasswordChange : Type := mkChange {
  success : bool;
  error : option string
}.

Section Bcrypt.

(** [bcrypt.hash(password, 10)], which draws a salt, and
    [bcrypt.compare(password, hash)]. *)
Variable hash : string -> string -> string.
Variable compare : string -> string -> bool.

Definition authenticateUser (username password : string)
  (users : Table User.t) : option SessionUser :=
  let user :=
    Sql.limit 1
      (filter (fun u => String.eqb (User.username u) username)
         (rows users)) in
  match user with
  | [] => None
  | u :: _ =>
      if compare password (User.password u)
      then Some (mkSession (User.id u) (User.username u) (User.role u))
      else None
  end.

Definition changePassword (salt : string) (userId : Z)
  (currentPassword newPassword : string) (users : Table User.t)
  : PasswordChange * Table User.t :=
  let user :=
    Sql.limit 1 (filter (fun u => User.id u =? userId) (rows users)) in
  match user with
  | [] => (mkChange false (Some "User not found"), users)
  | u :: _ =>
      if compare currentPassword (User.password u)
      then
        let hashedNewPassword := hash salt newPassword in
        (mkChange true None,
         mkTable
           (map (fun v =>
                   if User.id v =? userId
                   then User.mk (User.id v) (User.username v)
                          hashedNewPassword (User.role v)
                          (User.createdAt v) (User.updatedAt v)
                   else v)
                (rows users))
           (seq users))
      else (mkChange false (Some "Current password is incorrect"), users)
  end.

(** The insert cannot fail: it runs only when no row has the username
    ['admin'].  [createdAt] and [updatedAt] are the two [new Date()] the
    column defaults evaluate. *)
Definition createDefaultAdmin (salt : string) (createdAt updatedAt : Z)
  (users : Table User.t) : Table User.t :=
  let existingAdmin :=
    Sql.limit 1
      (filter (fun u => String.eqb (User.username u) "admin")
         (rows users)) in
  if (List.length existingAdmin =? 0)%nat
  then
    let hashedPassword := hash salt "admin" in
    append User.id
      (fun i => User.mk i "admin" hashedPassword "admin" createdAt updatedAt)
      users
  else users.

End Bcrypt.

End Auth.

(** ** Notions the statements below are phrased with *)

Module Spec.

(** The number of products whose category is [code]. *)
Definition count_in_category (code : string) (ps : list Product.t) : N :=
  N.of_nat (count_occ string_dec (map Product.category ps) code).

(** A product with its [isActive] flag replaced. *)
Definition set_isActive (b : bool) (p : Product.t) : Product.t :=
  Product.assign (Product.only_isActive b) p.

(** The store in which every product [p] carries the flag [flag p] instead of
    its own. *)
Definition reflag (flag : Product.t -> bool) (st : Db.Store) : Db.Store :=
  Db.with_products
    (Db.mkTable
       (map (fun p => set_isActive (flag p) p) (Db.rows (Db.products st)))
       (Db.seq (Db.products st)))
    st.

(** What the admin listing selects on: the search text, when one is given,
    occurs in the name, the sku or the description, and the category, when one
    is given, is the product's. *)
Definition listing_match (search category : option string) (p : Product.t)
  : bool :=
  match Js.truthy_string search with
  | Some s => Storage.products_search s p
  | None => true
  end
  && match Js.truthy_string category with
     | Some c => String.eqb (Product.category p) c
     | None => true
     end.

(** The catalog filters other than the price bounds: search text, category,
    in-stock and featured, each applied only when provided. *)
Definition other_filters (f : Storage.Filters) (p : Product.t) : bool :=
  match Js.truthy_string (Storage.search f) with
  | Some s => Storage.catalog_search s p
  | None => true
  end
  && match Js.truthy_string (Storage.category f) with
     | Some c => String.eqb (Product.category p) c
     | None => true
     end
  && match Storage.inStock f with
     | Some true => 0 <? Product.stockQuantity p
     | _ => true
     end
  && match Storage.featured f with
     | Some true => Product.isFeatured p
     | _ => true
     end.


(** Adding the values up from [from] rounds nowhere: every value, and every
    sum on the way, is a binary64 value. *)
Fixpoint adds_exactly (from : Q) (values : list Q) : bool :=
  match values with
  | [] => true
  | x :: rest =>
      Js.is_double x && Js.is_double (from + x)
      && adds_exactly (from + x) rest
  end.




(** *** Receipts *)

(** The totals invariant of the data model, on a stored receipt:
    total = (subtotal - discountAmount) + taxAmount,
    discountAmount = subtotal x discountRate,
    taxAmount = (subtotal - discountAmount) x taxRate.
    A NULL discount column holds no number and satisfies no equation. *)
Definition totals_invariant (r : Receipt.t) : Prop :=
  exists discountRate discountAmount,
    Receipt.discountRate r = Some discountRate
    /\ Receipt.discountAmount r = Some discountAmount
    /\ (Receipt.totalAmount r
         == (Receipt.subtotal r - discountAmount) + Receipt.taxAmount r)%Q
    /\ (discountAmount == Receipt.subtotal r * discountRate)%Q
    /\ (Receipt.taxAmount r
         == (Receipt.subtotal r - discountAmount) * Receipt.taxRate r)%Q.

(** The same equations on a submitted header, an omitted discount column
    standing for its default 0. *)
Definition header_invariant (h : InsertReceipt.t) : Prop :=
  exists discountRate discountAmount,
    Storage.or_default (InsertReceipt.discountRate h) = Some discountRate
    /\ Storage.or_default (InsertReceipt.discountAmount h)
        = Some discountAmount
    /\ (InsertReceipt.totalAmount h
         == (InsertReceipt.subtotal h - discountAmount)
            + InsertReceipt.taxAmount h)%Q
    /\ (discountAmount == InsertReceipt.subtotal h * discountRate)%Q
    /\ (InsertReceipt.taxAmount h
         == (InsertReceipt.subtotal h - discountAmount)
            * InsertReceipt.taxRate h)%Q.

(** The claim that every receipt [createReceipt] persists satisfies the
    totals invariant. *)
Definition claimed_totals (now : Z) (receipt : InsertReceipt.t)
  (items : list InsertReceiptItem.t) (st : Db.Store) : Prop :=
  forall r st',
    Storage.createReceipt now receipt items st = (Db.Returned r, st') ->
    In r (Db.rows (Db.receipts st')) /\ totals_invariant r.

(** Does the item reference a row of [products]? *)
Definition references_product (ps : list Product.t)
  (item : InsertReceiptItem.t) : bool :=
  existsb (fun p => Product.id p =? InsertReceiptItem.productId item) ps.

(** The items up to the first one that references no product. *)
Fixpoint accepted (ps : list Product.t) (items : list InsertReceiptItem.t)
  : list InsertReceiptItem.t :=
  match items with
  | [] => []
  | item :: rest =>
      if references_product ps item then item :: accepted ps rest else []
  end.

(** The table after the rows of the items were appended, one by one. *)
Definition add_items (receiptId : Z) (items : list InsertReceiptItem.t)
  (t : Db.Table ReceiptItem.t) : Db.Table ReceiptItem.t :=
  fold_left
    (fun t item => Db.append ReceiptItem.id (Storage.item_row receiptId item) t)
    items t.

(** A stored row read back as the item it was inserted from. *)
Definition item_of (row : ReceiptItem.t) : InsertReceiptItem.t :=
  InsertReceiptItem.mk
    (ReceiptItem.receiptId row) (ReceiptItem.productId row)
    (ReceiptItem.productName row) (ReceiptItem.productSku row)
    (ReceiptItem.quantity row) (ReceiptItem.unitPrice row)
    (ReceiptItem.totalPrice row).

(** [{ ...item, receiptId }] *)
Definition for_receipt (receiptId : Z) (item : InsertReceiptItem.t)
  : InsertReceiptItem.t :=
  item_of (Storage.item_row receiptId item 0).

(** The claim that [createReceipt] is atomic: when it returns, the header and
    every item are in the store; when it throws, the store holds no new
    header and no new item. *)
Definition claimed_atomic (now : Z) (receipt : InsertReceipt.t)
  (items : list InsertReceiptItem.t) (st : Db.Store) : Prop :=
  match Storage.createReceipt now receipt items st with
  | (Db.Returned r, st') =>
      In r (Db.rows (Db.receipts st'))
      /\ exists new,
           Db.rows (Db.receiptItems st')
           = (Db.rows (Db.receiptItems st) ++ new)%list
           /\ map item_of new = map (for_receipt (Receipt.id r)) items
  | (Db.Thrown _, st') =>
      Db.rows (Db.receipts st') = Db.rows (Db.receipts st)
      /\ Db.rows (Db.receiptItems st') = Db.rows (Db.receiptItems st)
  end.

(** *** Product deletion *)

(** The claim that deleting a product that exists removes its images, reviews
    and wishlist rows and leaves receipt items and receipts as they were. *)
Definition claimed_delete_cascade (id : Z) (st : Db.Store) : Prop :=
  (exists p, In p (Db.rows (Db.products st)) /\ Product.id p = id) ->
  let st' := snd (Storage.deleteProduct id st) in
  Forall (fun i => ProductImage.productId i <> id)
    (Db.rows (Db.productImages st'))
  /\ Forall (fun r => ProductReview.productId r <> id)
       (Db.rows (Db.productReviews st'))
  /\ Forall (fun w => WishlistItem.productId w <> id)
       (Db.rows (Db.wishlist st'))
  /\ Db.receiptItems st' = Db.receiptItems st
  /\ Db.receipts st' = Db.receipts st.

(** Most recently created first. *)
Definition newer_first (p q : Product.t) : Prop :=
  Product.createdAt q <= Product.createdAt p.

(** *** SKU sequence *)

(** The SKU text for a category code, a sequence number and a year. *)
Definition sku_text (code : string) (number : N) (year : N) : string :=
  code ++ "-" ++ Js.padStart 3 "0" (Js.String_ number) ++ "-"
    ++ Js.String_ year.

(** Primary keys and unique columns hold distinct values. *)
Definition distinct {A K : Type} (key : A -> K) (t : Db.Table A) : Prop :=
  NoDup (map key (Db.rows t)).

(** *** Referential integrity *)

Definition refs_product (st : Db.Store) (id : Z) : Prop :=
  In id (map Product.id (Db.rows (Db.products st))).

Definition refs_receipt (st : Db.Store) (id : Z) : Prop :=
  In id (map Receipt.id (Db.rows (Db.receipts st))).

(** Every foreign key of the schema points at a row: images, reviews,
    wishlist rows and receipt items at a product, receipt items at a
    receipt. *)
Definition integrity (st : Db.Store) : Prop :=
  Forall (fun i => refs_product st (ProductImage.productId i))
    (Db.rows (Db.productImages st))
  /\ Forall (fun r => refs_product st (ProductReview.productId r))
       (Db.rows (Db.productReviews st))
  /\ Forall (fun w => refs_product st (WishlistItem.productId w))
       (Db.rows (Db.wishlist st))
  /\ Forall (fun it => refs_product st (ReceiptItem.productId it)
                       /\ refs_receipt st (ReceiptItem.receiptId it))
       (Db.rows (Db.receiptItems st)).

(** *** Categories *)

(** The number of active products whose category is [code]. *)
Definition active_in_category (code : string) (ps : list Product.t) : N :=
  N.of_nat
    (List.length
       (filter (fun p => String.eqb (Product.category p) code
                         && Product.isActive p) ps)).

(** No group of [groups] is for the key [k], and none is empty. *)
Definition no_group {A : Type} (key : A -> Z) (k : Z)
  (groups : list (list A)) : Prop :=
  Forall (fun g => match g with
                   | [] => False
                   | y :: _ => key y <> k
                   end) groups.

(** *** Catalog queries *)

(** The catalog query that asks for featured products, newest first, with a
    limit and nothing else. *)
Definition featured_filters (limit : Z) : Storage.Filters :=
  Storage.mkFilters None None None None None (Some true)
                    (Some Storage.by_created) (Some Storage.order_desc)
                    (Some limit) None.

(** The filters [f] with another page window. *)
Definition with_window (f : Storage.Filters) (limit offset : option Z)
  : Storage.Filters :=
  Storage.mkFilters (Storage.search f) (Storage.category f)
                    (Storage.minPrice f) (Storage.maxPrice f)
                    (Storage.inStock f) (Storage.featured f)
                    (Storage.sortBy f) (Storage.sortOrder f) limit offset.

(** The rows a query returned. *)
Definition returned {A : Type} (result : Db.outcome (list A) * Db.Store)
  : list A :=
  match fst result with
  | Db.Returned l => l
  | Db.Thrown _ => []
  end.


(** [x] may come before [y] in the order the filters ask for. *)
Definition in_order (f : Storage.Filters) (x y : Product.t) : Prop :=
  let descending :=
    match Storage.sortOrder f with
    | Some Storage.order_desc => true
    | _ => false
    end in
  let '(first, second) := if descending then (y, x) else (x, y) in
  match Storage.sortBy f with
  | Some Storage.by_price => (Product.price first <= Product.price second)%Q
  | Some Storage.by_created =>
      Product.createdAt first <= Product.createdAt second
  | _ => String.leb (Product.name first) (Product.name second) = true
  end.

(** *** Wishlist *)

(** The wishlist row is that of the session for the product. *)
Definition for_pair (sessionId : string) (productId : Z)
  (w : WishlistItem.t) : Prop :=
  WishlistItem.sessionId w = sessionId /\ WishlistItem.productId w = productId.

(** At most one wishlist row per session and product. *)
Definition wishlist_unique (st : Db.Store) : Prop :=
  NoDup (map (fun w => (WishlistItem.sessionId w, WishlistItem.productId w))
           (Db.rows (Db.wishlist st))).

(** *** The receipt form *)

(** price x quantity of the entries, one by one. *)
Definition line_values (selected : list Client.SelectedProduct) : list Q :=
  map (fun p => Product.price (Client.product p)
                * inject_Z (Client.quantity p))%Q
      selected.

(** The line total of an entry is the binary64 value nearest to its
    product's price times its quantity. *)
Definition line_ok (p : Client.SelectedProduct) : Prop :=
  (Client.total p
   == Js.b64 (Product.price (Client.product p)
              * inject_Z (Client.quantity p)))%Q.

(** The sum of price x quantity over the entries. *)
Definition sum_lines (selected : list Client.SelectedProduct) : Q :=
  fold_right Qplus 0%Q (line_values selected).

(** The values rounded one by one and added up from the first to the last,
    each sum rounded. *)
Definition rounded_sum (values : list Q) : Q :=
  fold_left (fun sum x => Js.b64 (sum + Js.b64 x)) values 0%Q.

(** *** Stock *)

(** The number of products whose stock status carries the label. *)
Definition labelled (label : string) (products : list Product.t) : nat :=
  List.length
    (filter
       (fun p =>
          String.eqb
            (Utils.label
               (Utils.calculateStockStatus (Product.stockQuantity p)))
            label)
       products).

(** *** Barcodes *)

Fixpoint all_digits (s : string) : bool :=
  match s with
  | EmptyString => true
  | String c s' => Js.is_digit c && all_digits s'
  end.

(** *** Default categories *)

(** A category of the store has the name or the code of the default row. *)
Definition covered (row : string * string * string) (st : Db.Store) : bool :=
  let '(name, code, _) := row in
  existsb
    (fun c => String.eqb (Category.name c) name
              || String.eqb (Category.code c) code)
    (Db.rows (Db.categories st)).

(** *** Row ids *)

(** No row of the table has an id above the table's AUTOINCREMENT counter. *)
Definition seq_ok {A : Type} (id : A -> Z) (t : Db.Table A) : Prop :=
  Forall (fun r => id r <= Db.seq t) (Db.rows t).

End Spec.

(** ** Sample data *)

Module Sample.

Definition product (id : Z) (name sku category : string) (price : Q)
  (stockQuantity : Z) (isActive : bool) (createdAt : Z) : Product.t :=
  Product.mk id name sku category price stockQuantity None None None
             isActive false createdAt.

Definition widget : Product.t :=
  product 1 "Widget" "ELC-001-2025" "ELC" (39 # 2) 5 true 1000.
Definition gadget : Product.t :=
  product 2 "Gadget" "ELC-002-2025" "ELC" (10 # 1) 0 false 2000.
Definition novel : Product.t :=
  product 3 "Novel" "BKS-001-2025" "BKS" (20 # 1) 40 true 3000.

Definition electronics : Category.t :=
  Category.mk 1 "Electronics" "ELC" (Some "Electronic devices and components")
              None 0.
Definition books : Category.t :=
  Category.mk 5 "Books" "BKS" (Some "Books and educational materials") None 0.

(** Two categories, three products, nothing else. *)
Definition shop : Db.Store :=
  Db.mkStore (Db.mkTable [electronics; books] 5)
             (Db.mkTable [widget; gadget; novel] 3)
             Db.empty Db.empty Db.empty Db.empty Db.empty.

(** A header whose amounts follow the totals invariant:
    one item of 20, no discount, 12.5 percent tax. *)
Definition fair_header : InsertReceipt.t :=
  InsertReceipt.mk "RCP-000001" None "ProductCode Pro Store" None None
                   (20 # 1) (1 # 8) (5 # 2) (Some (Some 0%Q))
                   (Some (Some 0%Q)) (45 # 2).

(** A header with the same amounts and a total of 1. *)
Definition odd_header : InsertReceipt.t :=
  InsertReceipt.mk "RCP-000002" None "ProductCode Pro Store" None None
                   (20 # 1) (1 # 8) (5 # 2) (Some (Some 0%Q))
                   (Some (Some 0%Q)) (1 # 1).

(** One novel at 20. *)
Definition novel_item : InsertReceiptItem.t :=
  InsertReceiptItem.mk 0 3 "Novel" "BKS-001-2025" 1 (20 # 1) (20 # 1).

(** An item for a product id that is not in [shop]. *)
Definition ghost_item : InsertReceiptItem.t :=
  InsertReceiptItem.mk 0 99 "Ghost" "XXX-001-2025" 1 (5 # 1) (5 # 1).

Definition widget_image : ProductImage.t :=
  ProductImage.mk 1 1 "/uploads/widget.png" None true 0.
Definition widget_review : ProductReview.t :=
  ProductReview.mk 1 1 "Ada" None 5 None false 1500.
Definition widget_wish : WishlistItem.t :=
  WishlistItem.mk 1 "session-a" 1 1600.
Definition novel_wish : WishlistItem.t :=
  WishlistItem.mk 2 "session-a" 3 1700.

Definition sale : Receipt.t :=
  Receipt.mk 1 "RCP-000000" None "ProductCode Pro Store" None None
             (39 # 2) 0 0 (Some 0%Q) (Some 0%Q) (39 # 2) 1800.
Definition sale_item : ReceiptItem.t :=
  ReceiptItem.mk 1 1 1 "Widget" "ELC-001-2025" 1 (39 # 2) (39 # 2).

(** [shop] with an image, a review and two wishlist rows, nothing sold. *)
Definition busy_shop : Db.Store :=
  Db.mkStore (Db.mkTable [electronics; books] 5)
             (Db.mkTable [widget; gadget; novel] 3)
             (Db.mkTable [widget_image] 1)
             (Db.mkTable [widget_review] 1)
             (Db.mkTable [widget_wish; novel_wish] 2)
             Db.empty Db.empty.

(** [busy_shop] after one widget was sold. *)
Definition sold_shop : Db.Store :=
  Db.mkStore (Db.mkTable [electronics; books] 5)
             (Db.mkTable [widget; gadget; novel] 3)
             (Db.mkTable [widget_image] 1)
             (Db.mkTable [widget_review] 1)
             (Db.mkTable [widget_wish; novel_wish] 2)
             (Db.mkTable [sale] 1)
             (Db.mkTable [sale_item] 1).

(** The catalog query [{ minPrice: 10, maxPrice: 20 }]. *)
Definition price_10_20 : Storage.Filters :=
  Storage.mkFilters None None (Some (10 # 1)) (Some (20 # 1)) None None
                    None None None None.

(** The catalog query with no filter at all. *)
Definition no_filter : Storage.Filters :=
  Storage.mkFilters None None None None None None None None None None.

(** Two items ticked in the receipt form: 2 x 10.00 and 1 x 5.00. *)
Definition basket : list Client.SelectedProduct :=
  [ Client.mkSelected gadget 2 (20 # 1);
    Client.mkSelected (product 4 "Pen" "BKS-002-2025" "BKS" (5 # 1) 9 true 4000)
                      1 (5 # 1) ].

(** A second book, to be inserted. *)
Definition pen_insert : InsertProduct.t :=
  InsertProduct.mk "Pen" "BKS-002-2025" "BKS" (5 # 1) 9 None None None
                   None None.

(** An insert that asks for the sku of the gadget. *)
Definition clash_insert : InsertProduct.t :=
  InsertProduct.mk "Gizmo" "ELC-002-2025" "ELC" (7 # 1) 3 None None None
                   None None.

Definition toys_insert : InsertCategory.t :=
  InsertCategory.mk "Toys" "TOY" (Some "Toys and games") None.

Definition novel_cover : InsertProductImage.t :=
  InsertProductImage.mk 3 "/uploads/novel.png" None None None.

(** The novel, promoted. *)
Definition featured_novel : Product.t :=
  Product.mk 3 "Novel" "BKS-001-2025" "BKS" (20 # 1) 40 None None None
             true true 3000.

Definition promo_shop : Db.Store :=
  Db.mkStore (Db.mkTable [electronics; books] 5)
             (Db.mkTable [widget; gadget; featured_novel] 3)
             Db.empty Db.empty Db.empty Db.empty Db.empty.

(** Tea at 4.35, as a REAL column holds it, 100 in stock. *)
Definition tea : Product.t :=
  product 1 "Tea" "FNB-001-2025" "FNB" (Js.b64 (435 # 100)) 100 true 1000.

Definition tea_shop : Db.Store :=
  Db.mkStore Db.empty (Db.mkTable [tea] 1)
             Db.empty Db.empty Db.empty Db.empty Db.empty.

(** The catalog query [{ offset: 1 }]. *)
Definition second_page_only : Storage.Filters :=
  Storage.mkFilters None None None None None None None None None (Some 1).

(** A store with no table filled. *)
Definition blank : Db.Store :=
  Db.mkStore Db.empty Db.empty Db.empty Db.empty Db.empty Db.empty Db.empty.

(** Stand-ins for bcrypt: the hash of a password is the salt followed by a
    bar and the password, and a password is accepted by the hashes that end
    in a bar and the password. *)
Definition toy_hash (salt password : string) : string :=
  salt ++ "|" ++ password.

Fixpoint ends_with (suffix s : string) : bool :=
  String.eqb s suffix
  || match s with
     | EmptyString => false
     | String _ s' => ends_with suffix s'
     end.

Definition toy_compare (password hashed : string) : bool :=
  ends_with ("|" ++ password) hashed.

Definition ada : User.t :=
  User.mk 1 "ada" (toy_hash "s1" "lovelace") "viewer" 100 100.
Definition bob : User.t :=
  User.mk 2 "bob" (toy_hash "s2" "builder") "admin" 200 200.

Definition staff : Db.Table User.t := Db.mkTable [ada; bob] 2.

End Sample.

(** * Properties *)

Import Db.
Local Open Scope db_scope.

(** ** Rounding to binary64 *)

(** *** Powers of 2 *)

Lemma pow2_pos (e : Z) : (0 < Js.pow2 e)%Q.
Proof. apply Qpower_0_lt. reflexivity. Qed.

Lemma pow2_add (a b : Z) : (Js.pow2 (a + b) == Js.pow2 a * Js.pow2 b)%Q.
Proof. apply Qpower_plus. discriminate. Qed.

Lemma pow2_Z (n : Z) : 0 <= n -> (Js.pow2 n == inject_Z (2 ^ n))%Q.
Proof. intros H. unfold Js.pow2. now rewrite Zpower_Qpower. Qed.

Lemma pow2_le (a b : Z) : a <= b -> (Js.pow2 a <= Js.pow2 b)%Q.
Proof. intros H. apply Qpower_le_compat_l; [exact H | discriminate]. Qed.

Lemma pow2_lt_inv (a b : Z) : (Js.pow2 a < Js.pow2 b)%Q -> a < b.
Proof. intros H. apply (Qpower_lt_compat_l_inv 2); [exact H | reflexivity]. Qed.

(** [a] is [k] times [2^e] with [k] a whole number, when [a] is a whole
    multiple of a larger power. *)
Lemma pow2_split (a b : Z) :
  a <= b -> (Js.pow2 b == inject_Z (2 ^ (b - a)) * Js.pow2 a)%Q.
Proof.
  intros H. rewrite <- pow2_Z by lia. rewrite <- pow2_add.
  now replace (b - a + a) with b by lia.
Qed.

Lemma ilog2_spec (a : Q) :
  (0 < a)%Q ->
  (Js.pow2 (Js.ilog2 a) <= a)%Q /\ (a < Js.pow2 (Js.ilog2 a + 1))%Q.
Proof.
  intros Ha. destruct a as [n d].
  assert (Hn : 0 < n) by (unfold Qlt in Ha; cbn in Ha; lia).
  pose proof (Z.log2_spec n Hn) as [Hn1 Hn2].
  pose proof (Z.log2_spec (Zpos d) (Pos2Z.is_pos d)) as [Hd1 Hd2].
  pose proof (Z.log2_nonneg n) as Hln.
  pose proof (Z.log2_nonneg (Zpos d)) as Hld.
  set (ln := Z.log2 n) in *. set (ld := Z.log2 (Zpos d)) in *.
  assert (Hmul : ((n # d) * inject_Z (Zpos d) == inject_Z n)%Q).
  { unfold Qeq, Qmult, inject_Z. cbn. lia. }
  assert (Hupper : (n # d < Js.pow2 (ln - ld + 1))%Q).
  { assert (E : (Js.pow2 (ln + 1) == Js.pow2 (ln - ld + 1) * Js.pow2 ld)%Q).
    { rewrite <- pow2_add. now replace (ln - ld + 1 + ld) with (ln + 1) by lia. }
    pose proof (pow2_pos (ln - ld + 1)) as Hp.
    rewrite (pow2_Z (ln + 1)) in E by lia. rewrite (pow2_Z ld) in E by lia.
    assert (H1 : (inject_Z n < inject_Z (2 ^ (ln + 1)))%Q)
      by (rewrite <- Zlt_Qlt; unfold Z.succ in Hn2; exact Hn2).
    assert (H2 : (inject_Z (2 ^ ld) <= inject_Z (Zpos d))%Q)
      by (now rewrite <- Zle_Qle).
    assert (H3 : (0 < inject_Z (2 ^ ld))%Q).
    { replace 0%Q with (inject_Z 0) by reflexivity. rewrite <- Zlt_Qlt. lia. }
    nra. }
  assert (Hlower : (Js.pow2 (ln - ld - 1) <= n # d)%Q).
  { assert (E : (Js.pow2 ln == Js.pow2 (ln - ld - 1) * Js.pow2 (ld + 1))%Q).
    { rewrite <- pow2_add. now replace (ln - ld - 1 + (ld + 1)) with ln by lia. }
    pose proof (pow2_pos (ln - ld - 1)) as Hp.
    rewrite (pow2_Z ln) in E by lia. rewrite (pow2_Z (ld + 1)) in E by lia.
    assert (H1 : (inject_Z (2 ^ ln) <= inject_Z n)%Q)
      by (now rewrite <- Zle_Qle).
    assert (H2 : (inject_Z (Zpos d) < inject_Z (2 ^ (ld + 1)))%Q)
      by (rewrite <- Zlt_Qlt; unfold Z.succ in Hd2; exact Hd2).
    assert (H3 : (0 < inject_Z (Zpos d))%Q) by reflexivity.
    nra. }
  unfold Js.ilog2. cbn [Qnum Qden]. fold ln ld.
  destruct (Qle_bool (Js.pow2 (ln - ld)) (n # d)) eqn:E.
  - apply Qle_bool_iff in E. split; [exact E | exact Hupper].
  - split; [exact Hlower|].
    replace (ln - ld - 1 + 1) with (ln - ld) by lia.
    apply Qnot_le_lt. intros H. apply Qle_bool_iff in H. congruence.
Qed.

Lemma ilog2_mono (a b : Q) :
  (0 < a)%Q -> (a <= b)%Q -> Js.ilog2 a <= Js.ilog2 b.
Proof.
  intros Ha Hab.
  destruct (ilog2_spec a Ha) as [H1 _].
  destruct (ilog2_spec b) as [_ H2]; [lra|].
  assert (H : Js.ilog2 a < Js.ilog2 b + 1) by (apply pow2_lt_inv; lra).
  lia.
Qed.

(** The exponent of a number between two powers of 2. *)
Lemma ilog2_unique (a : Q) (k : Z) :
  (Js.pow2 k <= a)%Q -> (a < Js.pow2 (k + 1))%Q -> Js.ilog2 a = k.
Proof.
  intros H1 H2. pose proof (pow2_pos k) as Hk.
  destruct (ilog2_spec a) as [H3 H4]; [lra|].
  assert (Js.ilog2 a < k + 1) by (apply pow2_lt_inv; lra).
  assert (k < Js.ilog2 a + 1) by (apply pow2_lt_inv; lra).
  lia.
Qed.

(** *** Rounding to a whole number *)

Lemma round_half_even_near (x : Q) :
  let f := Qfloor x in
  Js.round_half_even x = f \/ Js.round_half_even x = f + 1.
Proof.
  cbv zeta. unfold Js.round_half_even.
  destruct (x - inject_Z (Qfloor x) ?= 1 # 2)%Q; [|tauto|tauto].
  destruct (Z.even (Qfloor x)); tauto.
Qed.

Lemma round_half_even_Z (n : Z) : Js.round_half_even (inject_Z n) = n.
Proof.
  unfold Js.round_half_even. rewrite Qfloor_Z.
  assert (E : (inject_Z n - inject_Z n ?= 1 # 2)%Q = Lt).
  { rewrite <- Qlt_alt. lra. }
  now rewrite E.
Qed.

Lemma round_half_even_comp (x y : Q) :
  (x == y)%Q -> Js.round_half_even x = Js.round_half_even y.
Proof.
  intros E. unfold Js.round_half_even.
  rewrite (Qfloor_comp x y E).
  assert (E' : (x - inject_Z (Qfloor y) == y - inject_Z (Qfloor y))%Q)
    by (rewrite E; reflexivity).
  now rewrite (Qcompare_comp _ _ E' (1 # 2) (1 # 2) (Qeq_refl _)).
Qed.

Lemma round_half_even_mono (x y : Q) :
  (x <= y)%Q -> Js.round_half_even x <= Js.round_half_even y.
Proof.
  intros Hxy. pose proof (Qfloor_resp_le x y Hxy) as Hf.
  destruct (Z.eq_dec (Qfloor x) (Qfloor y)) as [E|N].
  - unfold Js.round_half_even. rewrite <- E.
    destruct (Qcompare_spec (x - inject_Z (Qfloor x)) (1 # 2)) as [Cx|Cx|Cx];
      destruct (Qcompare_spec (y - inject_Z (Qfloor x)) (1 # 2)) as [Cy|Cy|Cy];
      try (destruct (Z.even (Qfloor x))); try lia; exfalso; lra.
  - destruct (round_half_even_near x) as [-> | ->];
      destruct (round_half_even_near y) as [-> | ->]; lia.
Qed.

(** *** Rounding at a fixed exponent *)

Lemma round_at_mono (e : Z) (x y : Q) :
  (x <= y)%Q ->
  (inject_Z (Js.round_half_even (x / Js.pow2 e)) * Js.pow2 e
   <= inject_Z (Js.round_half_even (y / Js.pow2 e)) * Js.pow2 e)%Q.
Proof.
  intros H. pose proof (pow2_pos e) as He.
  apply Qmult_le_compat_r; [|lra].
  rewrite <- Zle_Qle. apply round_half_even_mono.
  apply Qmult_le_compat_r; [exact H|].
  apply Qlt_le_weak, Qinv_lt_0_compat, He.
Qed.

Lemma round_at_multiple (e k : Z) (x : Q) :
  (x == inject_Z k * Js.pow2 e)%Q ->
  (inject_Z (Js.round_half_even (x / Js.pow2 e)) * Js.pow2 e == x)%Q.
Proof.
  intros E. pose proof (pow2_pos e) as He.
  rewrite (round_half_even_comp (x / Js.pow2 e) (inject_Z k)).
  - rewrite round_half_even_Z. now symmetry.
  - rewrite E. field. lra.
Qed.

(** *** Rounding a positive number *)

Lemma ulp_exponent_mono (a b : Q) :
  (0 < a)%Q -> (a <= b)%Q -> Js.ulp_exponent a <= Js.ulp_exponent b.
Proof.
  intros Ha Hab. unfold Js.ulp_exponent.
  pose proof (ilog2_mono a b Ha Hab). lia.
Qed.

Lemma ilog2_comp (a b : Q) :
  (0 < a)%Q -> (a == b)%Q -> Js.ilog2 a = Js.ilog2 b.
Proof.
  intros Ha E. destruct (ilog2_spec a Ha) as [H1 H2].
  symmetry. apply ilog2_unique; lra.
Qed.

Lemma round_positive_comp (a b : Q) :
  (0 < a)%Q -> (a == b)%Q -> (Js.round_positive a == Js.round_positive b)%Q.
Proof.
  intros Ha E. unfold Js.round_positive, Js.ulp_exponent.
  rewrite <- (ilog2_comp a b Ha E).
  rewrite (round_half_even_comp (a / Js.pow2 (Z.max (Js.ilog2 a - 52) (-1074)))
             (b / Js.pow2 (Z.max (Js.ilog2 a - 52) (-1074)))).
  - reflexivity.
  - unfold Qdiv. apply Qmult_comp; [exact E | reflexivity].
Qed.

Lemma round_positive_mono (a b : Q) :
  (0 < a)%Q -> (a <= b)%Q -> (Js.round_positive a <= Js.round_positive b)%Q.
Proof.
  intros Ha Hab. pose proof (ulp_exponent_mono a b Ha Hab) as He.
  unfold Js.round_positive.
  destruct (Z.eq_dec (Js.ulp_exponent a) (Js.ulp_exponent b)) as [E|N].
  - rewrite E. now apply round_at_mono.
  - assert (Hlt : Js.ulp_exponent a < Js.ulp_exponent b) by lia.
    clear He N. unfold Js.ulp_exponent in *.
    set (la := Js.ilog2 a) in *. set (lb := Js.ilog2 b) in *.
    assert (Hl : la + 1 <= lb) by lia.
    assert (Hea : Z.max (la - 52) (-1074) <= lb) by lia.
    assert (Heb : lb - Z.max (lb - 52) (-1074) = 52) by lia.
    set (ea := Z.max (la - 52) (-1074)) in *.
    set (eb := Z.max (lb - 52) (-1074)) in *.
    assert (Hb : (0 < b)%Q) by lra.
    destruct (ilog2_spec a Ha) as [_ Ha2]. fold la in Ha2.
    destruct (ilog2_spec b Hb) as [Hb1 _]. fold lb in Hb1.
    assert (Hab' : (a <= Js.pow2 lb)%Q).
    { pose proof (pow2_le (la + 1) lb Hl). lra. }
    apply Qle_trans with (Js.pow2 lb).
    + apply Qle_trans
        with (inject_Z (Js.round_half_even (Js.pow2 lb / Js.pow2 ea))
              * Js.pow2 ea)%Q.
      * now apply round_at_mono.
      * rewrite (round_at_multiple ea (2 ^ (lb - ea))); [lra|].
        apply pow2_split. exact Hea.
    + apply Qle_trans
        with (inject_Z (Js.round_half_even (Js.pow2 lb / Js.pow2 eb))
              * Js.pow2 eb)%Q.
      * rewrite (round_at_multiple eb (2 ^ (lb - eb))); [lra|].
        apply pow2_split. lia.
      * now apply round_at_mono.
Qed.

(** A whole multiple of a power of 2, with fewer than 54 bits, is kept. *)
Lemma round_positive_multiple (a : Q) (k e : Z) :
  (0 < a)%Q -> (a == inject_Z k * Js.pow2 e)%Q -> -1074 <= e -> k < 2 ^ 53 ->
  (Js.round_positive a == a)%Q.
Proof.
  intros Ha E He Hk. unfold Js.round_positive.
  destruct (ilog2_spec a Ha) as [H1 _].
  pose proof (pow2_pos e) as Hpe.
  assert (Hlt : (a < Js.pow2 (53 + e))%Q).
  { rewrite pow2_add, (pow2_Z 53) by lia. rewrite E.
    apply Qmult_lt_compat_r; [exact Hpe|]. now rewrite <- Zlt_Qlt. }
  assert (Hla : Js.ilog2 a < 53 + e) by (apply pow2_lt_inv; lra).
  assert (Hea : Js.ulp_exponent a <= e) by (unfold Js.ulp_exponent; lia).
  apply (round_at_multiple _ (k * 2 ^ (e - Js.ulp_exponent a))).
  generalize dependent (Js.ulp_exponent a). intros ue Hue.
  rewrite E, (pow2_split ue e Hue), inject_Z_mult. ring.
Qed.

(** The result of rounding: a whole number of at most 54 bits times the
    power of 2 of the last place. *)
Lemma round_positive_form (a : Q) :
  (0 < a)%Q ->
  exists k,
    (Js.round_positive a == inject_Z k * Js.pow2 (Js.ulp_exponent a))%Q
    /\ 0 <= k <= 2 ^ 53.
Proof.
  intros Ha. exists (Js.round_half_even (a / Js.pow2 (Js.ulp_exponent a))).
  split; [reflexivity|].
  set (e := Js.ulp_exponent a). pose proof (pow2_pos e) as He.
  destruct (ilog2_spec a Ha) as [_ H2].
  split.
  - rewrite <- (round_half_even_Z 0). apply round_half_even_mono.
    change (inject_Z 0) with 0%Q.
    apply Qle_shift_div_l; [exact He | lra].
  - rewrite <- (round_half_even_Z (2 ^ 53)). apply round_half_even_mono.
    apply Qle_shift_div_r; [exact He|].
    rewrite <- pow2_Z, <- pow2_add by lia.
    assert (Hle : Js.ilog2 a + 1 <= 53 + e)
      by (unfold e, Js.ulp_exponent; lia).
    pose proof (pow2_le _ _ Hle) as H. lra.
Qed.

Lemma round_positive_nonneg (a : Q) :
  (0 < a)%Q -> (0 <= Js.round_positive a)%Q.
Proof.
  intros Ha. destruct (round_positive_form a Ha) as [k [E [Hk _]]].
  rewrite E. pose proof (pow2_pos (Js.ulp_exponent a)).
  apply Qmult_le_0_compat; [|lra].
  replace 0%Q with (inject_Z 0) by reflexivity. now rewrite <- Zle_Qle.
Qed.

(** *** Rounding, whatever the sign *)

Lemma b64_comp (x y : Q) : (x == y)%Q -> Js.b64 x = Js.b64 y.
Proof. intros E. unfold Js.b64. now rewrite (Qred_complete x y E). Qed.

Lemma b64_eq (x y : Q) : (x == y)%Q -> (Js.b64 x == Js.b64 y)%Q.
Proof. intros E. now rewrite (b64_comp x y E). Qed.

Lemma b64_zero (x : Q) : (x == 0)%Q -> Js.b64 x = 0%Q.
Proof. intros E. now rewrite (b64_comp x 0 E). Qed.

Lemma b64_positive (x : Q) :
  (0 < x)%Q -> (Js.b64 x == Js.round_positive x)%Q.
Proof.
  intros Hx. unfold Js.b64.
  assert (H : (0 < Qred x)%Q) by (now rewrite Qred_correct).
  assert (H' : (Qred x ?= 0)%Q = Gt) by (now apply Qgt_alt).
  rewrite H'.
  apply round_positive_comp; [now rewrite Qred_correct | apply Qred_correct].
Qed.

Lemma b64_negative (x : Q) :
  (x < 0)%Q -> (Js.b64 x == - Js.round_positive (- x))%Q.
Proof.
  intros Hx. unfold Js.b64.
  assert (H : (Qred x < 0)%Q) by (now rewrite Qred_correct).
  assert (H' : (Qred x ?= 0)%Q = Lt) by (now apply Qlt_alt).
  rewrite H'.
  apply Qopp_comp.
  apply round_positive_comp; [lra | now rewrite Qred_correct].
Qed.

Lemma b64_opp (x : Q) : (Js.b64 (- x) == - Js.b64 x)%Q.
Proof.
  destruct (Q_dec x 0) as [[H|H]|H].
  - rewrite (b64_negative x H), (b64_positive (- x)%Q) by lra. ring.
  - rewrite (b64_positive x H), (b64_negative (- x)%Q) by lra.
    apply Qopp_comp, round_positive_comp; [lra | ring].
  - rewrite (b64_zero x H), (b64_zero (- x)%Q) by lra. reflexivity.
Qed.

Lemma b64_nonneg (x : Q) : (0 <= x)%Q -> (0 <= Js.b64 x)%Q.
Proof.
  intros Hx. destruct (Qlt_le_dec 0 x) as [H|H].
  - rewrite (b64_positive x H). now apply round_positive_nonneg.
  - rewrite (b64_zero x) by lra. lra.
Qed.

(** Rounding keeps the order. *)
Lemma b64_mono (x y : Q) : (x <= y)%Q -> (Js.b64 x <= Js.b64 y)%Q.
Proof.
  intros Hxy.
  destruct (Qlt_le_dec 0 x) as [Hx|Hx].
  - rewrite (b64_positive x Hx), (b64_positive y) by lra.
    now apply round_positive_mono.
  - destruct (Qlt_le_dec 0 y) as [Hy|Hy].
    + apply Qle_trans with 0%Q; [|apply b64_nonneg; lra].
      pose proof (b64_nonneg (- x)%Q) as H. rewrite b64_opp in H. lra.
    + destruct (Qlt_le_dec y 0) as [Hy'|Hy'].
      * rewrite (b64_negative x), (b64_negative y) by lra.
        pose proof (round_positive_mono (- y)%Q (- x)%Q). lra.
      * rewrite (b64_zero y) by lra.
        pose proof (b64_nonneg (- x)%Q) as H. rewrite b64_opp in H. lra.
Qed.

(** The binary64 values: whole numbers of at most 53 bits times a power of 2
    that is at least 2^-1074. *)
Lemma b64_multiple (x : Q) (k e : Z) :
  (x == inject_Z k * Js.pow2 e)%Q -> -1074 <= e -> Z.abs k <= 2 ^ 53 ->
  (Js.b64 x == x)%Q.
Proof.
  assert (Hpos : forall x k e,
            (0 < x)%Q -> (x == inject_Z k * Js.pow2 e)%Q -> -1074 <= e ->
            k <= 2 ^ 53 -> (Js.b64 x == x)%Q).
  { clear. intros x k e Hx E He Hk. rewrite (b64_positive x Hx).
    destruct (Z.eq_dec k (2 ^ 53)) as [->|N].
    - apply (round_positive_multiple x (2 ^ 52) (e + 1)); [exact Hx| |lia|lia].
      rewrite E, pow2_add. change (Js.pow2 1) with 2%Q.
      change (inject_Z (2 ^ 53)) with (inject_Z (2 ^ 52) * 2)%Q. ring.
    - apply (round_positive_multiple x k e); [exact Hx|exact E|exact He|lia]. }
  intros E He Hk. destruct (Q_dec x 0) as [[H|H]|H].
  - assert (H' : (Js.b64 (- x) == - x)%Q).
    { apply (Hpos (- x)%Q (- k) e); [lra| |exact He|lia].
      rewrite E, inject_Z_opp. ring. }
    rewrite b64_opp in H'. lra.
  - apply (Hpos x k e); [exact H|exact E|exact He|lia].
  - rewrite (b64_zero x H). now symmetry.
Qed.

Lemma b64_form (x : Q) :
  exists k e,
    (Js.b64 x == inject_Z k * Js.pow2 e)%Q /\ -1074 <= e
    /\ Z.abs k <= 2 ^ 53.
Proof.
  destruct (Q_dec x 0) as [[H|H]|H].
  - destruct (round_positive_form (- x)%Q) as [k [E Hk]]; [lra|].
    exists (- k), (Js.ulp_exponent (- x)%Q).
    rewrite (b64_negative x H), E, inject_Z_opp.
    split; [ring|]. unfold Js.ulp_exponent. lia.
  - destruct (round_positive_form x H) as [k [E Hk]].
    exists k, (Js.ulp_exponent x). rewrite (b64_positive x H), E.
    split; [reflexivity|]. unfold Js.ulp_exponent. lia.
  - exists 0, 0. rewrite (b64_zero x H). split; [reflexivity | lia].
Qed.

(** Rounding a second time changes nothing. *)
Lemma b64_idem (x : Q) : (Js.b64 (Js.b64 x) == Js.b64 x)%Q.
Proof.
  destruct (b64_form x) as [k [e [E [He Hk]]]].
  now apply (b64_multiple _ k e).
Qed.

(** Twice a binary64 value is a binary64 value. *)
Lemma b64_double (x : Q) : (Js.b64 x == x)%Q -> (Js.b64 (2 * x) == 2 * x)%Q.
Proof.
  intros Hx. destruct (b64_form x) as [k [e [E [He Hk]]]].
  apply (b64_multiple _ k (e + 1)); [|lia|exact Hk].
  rewrite <- Hx, E, pow2_add. change (Js.pow2 1) with 2%Q. ring.
Qed.

Lemma b64_Z (n : Z) :
  Z.abs n <= 2 ^ 53 -> (Js.b64 (inject_Z n) == inject_Z n)%Q.
Proof.
  intros H. apply (b64_multiple _ n 0); [|lia|exact H].
  change (Js.pow2 0) with 1%Q. ring.
Qed.

(** 0.1 x 3, 22.5 x 0.0825 and 4.35 x 100 in binary64: the numbers that
    JavaScript prints as 0.30000000000000004, 1.8562500000000002 and
    434.99999999999994. *)
Example b64_products :
  (Js.mul (Js.b64 (1 # 10)) 3 == 1351079888211149 # 4503599627370496)%Q
  /\ (Js.mul (45 # 2) (Js.b64 (825 # 10000))
      == 2089951702076621 # 1125899906842624)%Q
  /\ (Js.mul (Js.b64 (435 # 100)) 100
      == 7652600929320959 # 17592186044416)%Q
  /\ Js.is_double (1 # 10) = false
  /\ Js.is_double (Js.b64 (1 # 10)) = true
  /\ Js.is_double Js.MAX_VALUE = true
  /\ Js.is_double (2 * Js.MAX_VALUE) = false.
Proof. repeat split; vm_compute; reflexivity. Qed.

(** ** Decimal strings and padding *)

Section Strings.

Lemma length_append (s t : string) :
  String.length (s ++ t) = (String.length s + String.length t)%nat.
Proof.
  induction s as [|c s IH]; simpl; [reflexivity | now rewrite IH].
Qed.

Lemma length_repeat_zero (n : nat) :
  String.length (Js.repeat_string "0" n) = n.
Proof.
  induction n as [|n IH]; simpl; [reflexivity | now rewrite IH].
Qed.

Lemma substring_whole (s : string) :
  substring 0 (String.length s) s = s.
Proof.
  induction s as [|c s IH]; simpl; [reflexivity | now rewrite IH].
Qed.

(** Padding with the one-character filler ["0"] prepends the missing zeros. *)
Lemma padStart_zero (n : nat) (s : string) :
  Js.padStart n "0" s = Js.repeat_string "0" (n - String.length s) ++ s.
Proof.
  unfold Js.padStart.
  destruct (Nat.leb_spec n (String.length s)) as [Hle | Hlt].
  - replace (n - String.length s)%nat with 0%nat by lia. reflexivity.
  - cbn [String.length Nat.eqb].
    set (fill := (n - String.length s)%nat).
    rewrite <- (length_repeat_zero fill) at 1.
    now rewrite substring_whole.
Qed.

Lemma length_padStart_zero (n : nat) (s : string) :
  String.length (Js.padStart n "0" s) = Nat.max n (String.length s).
Proof.
  rewrite padStart_zero, length_append, length_repeat_zero. lia.
Qed.

Lemma parseDigits_String (n : N) : Js.parseDigits (Js.String_ n) = Some n.
Proof.
  unfold Js.parseDigits, Js.String_.
  rewrite NilEmpty.usu. cbn [option_map].
  now rewrite DecimalN.Unsigned.of_to.
Qed.

Lemma parseDigits_zero (s : string) :
  Js.parseDigits (String "0" s) = Js.parseDigits s.
Proof.
  unfold Js.parseDigits. simpl.
  destruct (NilEmpty.uint_of_string s) as [d|]; reflexivity.
Qed.

(** Leading zeros do not change the number a digit string denotes. *)
Lemma parseDigits_zeros (k : nat) (s : string) :
  Js.parseDigits (Js.repeat_string "0" k ++ s) = Js.parseDigits s.
Proof.
  induction k as [|k IH]; [reflexivity|].
  change (Js.repeat_string "0" (S k) ++ s)
    with (String "0" (Js.repeat_string "0" k ++ s)).
  now rewrite parseDigits_zero.
Qed.

End Strings.

(** ** Counting the rows of a category *)

Lemma count_category (code : string) (ps : list Product.t) :
  Sql.count (filter (fun p => String.eqb (Product.category p) code) ps)
  = Spec.count_in_category code ps.
Proof.
  unfold Sql.count, Spec.count_in_category. f_equal.
  induction ps as [|p ps IH]; [reflexivity|].
  cbn [filter map count_occ].
  destruct (String.eqb_spec (Product.category p) code) as [E | E];
    destruct (string_dec (Product.category p) code) as [E' | E'];
    try contradiction; cbn [List.length]; now rewrite IH.
Qed.

(** ** SKU generation *)

(** C1.  For every category code [C], every year and every store,
    [generateSku(C)] returns ["C-NNN-YYYY"]: [YYYY] is the decimal writing of
    the year; [NNN] is the decimal writing of (number of products whose
    category is [C]) + 1, with zeros in front up to width 3 (it reads back as
    that number and is at least three characters long, exactly as long as the
    number's digits when these are three or more).  Nothing depends on the
    [categories] table: [C] need not be the code of an existing category. *)
Theorem generateSku_format (year : N) (C : string) (st : Store) :
  let n := (Spec.count_in_category C (rows (products st)) + 1)%N in
  let NNN :=
    Js.repeat_string "0" (3 - String.length (Js.String_ n)) ++ Js.String_ n in
  Storage.generateSku year C st
  = (Returned (C ++ "-" ++ NNN ++ "-" ++ Js.String_ year), st)
  /\ Js.parseDigits NNN = Some n
  /\ String.length NNN = Nat.max 3 (String.length (Js.String_ n))
  /\ Js.parseDigits (Js.String_ year) = Some year
  /\ forall cats,
       fst (Storage.generateSku year C (with_categories cats st))
       = fst (Storage.generateSku year C st).
Proof.
  intros n NNN. repeat split.
  - unfold Storage.generateSku, select.
    rewrite count_category. cbn [Js.or_zero_N]. fold n.
    now rewrite padStart_zero.
  - apply eq_trans with (1 := parseDigits_zeros _ _), parseDigits_String.
  - unfold NNN. rewrite <- padStart_zero. apply length_padStart_zero.
  - apply parseDigits_String.
Qed.



(** ** ORDER BY, LIMIT and OFFSET *)

Section OrderBy.
Context {A : Type} (leb : A -> A -> bool).

Lemma insert_row_perm (x : A) (l : list A) :
  Permutation (Sql.insert_row leb x l) (x :: l).
Proof.
  induction l as [|y l IH]; cbn; [reflexivity|].
  destruct (leb x y); [reflexivity|].
  rewrite IH. apply perm_swap.
Qed.

Lemma orderBy_perm (l : list A) : Permutation (Sql.orderBy leb l) l.
Proof.
  induction l as [|x l IH]; cbn; [reflexivity|].
  fold (Sql.orderBy leb l). rewrite insert_row_perm. now constructor.
Qed.

Lemma orderBy_In (x : A) (l : list A) : In x (Sql.orderBy leb l) <-> In x l.
Proof.
  split; apply Permutation_in;
    [apply orderBy_perm | apply Permutation_sym, orderBy_perm].
Qed.

Hypothesis leb_total : forall x y, leb x y = true \/ leb y x = true.
Hypothesis leb_trans :
  forall x y z, leb x y = true -> leb y z = true -> leb x z = true.

Lemma insert_row_sorted (x : A) (l : list A) :
  StronglySorted (fun a b => leb a b = true) l ->
  StronglySorted (fun a b => leb a b = true) (Sql.insert_row leb x l).
Proof.
  induction 1 as [|y l Hs IH Hy]; cbn.
  - repeat constructor.
  - destruct (leb x y) eqn:E.
    + constructor; [now constructor|].
      constructor; [exact E|].
      eapply Forall_impl; [|exact Hy]. intros z Hz. now apply leb_trans with y.
    + constructor; [exact IH|].
      eapply Permutation_Forall;
        [apply Permutation_sym, insert_row_perm|].
      constructor; [|exact Hy].
      destruct (leb_total x y) as [H | H]; [congruence | exact H].
Qed.

Lemma orderBy_sorted (l : list A) :
  StronglySorted (fun a b => leb a b = true) (Sql.orderBy leb l).
Proof.
  induction l as [|x l IH]; cbn; [constructor|].
  now apply insert_row_sorted.
Qed.

End OrderBy.

Section OrderByMap.
Context {A : Type} (leb : A -> A -> bool) (f : A -> A).
Hypothesis leb_f : forall x y, leb (f x) (f y) = leb x y.

(** Ordering commutes with a change of the rows that keeps the sort key. *)
Lemma orderBy_map (l : list A) :
  Sql.orderBy leb (map f l) = map f (Sql.orderBy leb l).
Proof.
  induction l as [|x l IH]; cbn; [reflexivity|].
  fold (Sql.orderBy leb (map f l)) (Sql.orderBy leb l). rewrite IH.
  generalize (Sql.orderBy leb l) as s. clear IH.
  induction s as [|y s IHs]; cbn; [reflexivity|].
  rewrite leb_f. destruct (leb x y); cbn; [reflexivity | now rewrite IHs].
Qed.

End OrderByMap.

Lemma filter_map_commute {A : Type} (c : A -> bool) (f : A -> A)
  (l : list A) :
  (forall x, c (f x) = c x) ->
  filter c (map f l) = map f (filter c l).
Proof.
  intros Hc. induction l as [|x l IH]; cbn; [reflexivity|].
  rewrite Hc. destruct (c x); cbn; now rewrite IH.
Qed.

Lemma StronglySorted_firstn {A : Type} (R : A -> A -> Prop) (n : nat)
  (l : list A) :
  StronglySorted R l -> StronglySorted R (firstn n l).
Proof.
  intros Hs. revert n.
  induction Hs as [|x l Hs IH Hx]; intros [|n]; cbn; try constructor.
  - apply IH.
  - apply Forall_forall. intros y Hy.
    rewrite Forall_forall in Hx. apply Hx.
    rewrite <- (firstn_skipn n l). apply in_or_app. now left.
Qed.

Lemma limit_map {A : Type} (f : A -> A) (n : Z) (l : list A) :
  Sql.limit n (map f l) = map f (Sql.limit n l).
Proof.
  unfold Sql.limit. destruct (n <? 0); [reflexivity | apply firstn_map].
Qed.

Lemma limit_incl {A : Type} (n : Z) (l : list A) (x : A) :
  In x (Sql.limit n l) -> In x l.
Proof.
  unfold Sql.limit. destruct (n <? 0); [trivial|].
  intros H. rewrite <- (firstn_skipn (Z.to_nat n) l).
  apply in_or_app. now left.
Qed.

Lemma offset_incl {A : Type} (m : Z) (l : list A) (x : A) :
  In x (Sql.offset m l) -> In x l.
Proof.
  unfold Sql.offset. intros H. rewrite <- (firstn_skipn (Z.to_nat m) l).
  apply in_or_app. now right.
Qed.

Lemma and_app {A : Type} (c1 c2 : list (A -> bool)) (r : A) :
  Storage.and_ (c1 ++ c2) r = Storage.and_ c1 r && Storage.and_ c2 r.
Proof. unfold Storage.and_. apply forallb_app. Qed.

Lemma and_push_if {A V : Type} (v : option V) (c : V -> A -> bool) (r : A) :
  Storage.and_ (Storage.push_if v c) r
  = match v with Some x => c x r | None => true end.
Proof. destruct v; cbn; [apply andb_true_r | reflexivity]. Qed.

Lemma filter_all {A : Type} (c : A -> bool) (l : list A) :
  (forall x, c x = true) -> filter c l = l.
Proof.
  intros Hc. induction l as [|x l IH]; cbn; [reflexivity|].
  now rewrite Hc, IH.
Qed.

Lemma StronglySorted_impl {A : Type} (R R' : A -> A -> Prop) (l : list A) :
  (forall x y, R x y -> R' x y) -> StronglySorted R l -> StronglySorted R' l.
Proof.
  intros HR. induction 1 as [|x l Hs IH Hx]; constructor; [exact IH|].
  eapply Forall_impl; [|exact Hx]. intros y. apply HR.
Qed.

(** ** Admin product listing *)

(** The WHERE clause of [getProducts], whether or not it is attached, selects
    the rows that match the search text and the category. *)
Lemma getProducts_query (search category : option string) (st : Store) :
  Storage.getProducts search category st
  = (Returned
       (Sql.limit 100
          (Sql.orderBy (Sql.desc Z.leb Product.createdAt)
             (filter (Spec.listing_match search category)
                (rows (products st))))),
     st).
Proof.
  unfold Storage.getProducts, select, Spec.listing_match.
  do 4 f_equal.
  destruct (Js.truthy_string search) as [s|],
           (Js.truthy_string category) as [c|];
    cbn [Storage.push_if app List.length Nat.ltb Nat.leb].
  - apply filter_ext. intros p. cbn. now rewrite andb_true_r.
  - apply filter_ext. intros p. cbn. reflexivity.
  - apply filter_ext. intros p. cbn. now rewrite andb_true_r.
  - symmetry. now apply filter_all.
Qed.

Lemma newest_first_sorted (l : list Product.t) :
  StronglySorted Spec.newer_first
    (Sql.orderBy (Sql.desc Z.leb Product.createdAt) l).
Proof.
  eapply StronglySorted_impl; [|apply orderBy_sorted].
  - intros x y H. unfold Sql.desc in H. apply Z.leb_le in H. exact H.
  - intros x y. unfold Sql.desc.
    destruct (Z.le_ge_cases (Product.createdAt y) (Product.createdAt x));
      [left | right]; now apply Z.leb_le.
  - intros x y z. unfold Sql.desc. rewrite !Z.leb_le. lia.
Qed.

(** The listing does not look at [isActive]: replacing the flags of the
    products replaces them in the listing and changes nothing else. *)
Lemma getProducts_reflag (flag : Product.t -> bool)
  (search category : option string) (st : Store) :
  Storage.getProducts search category (Spec.reflag flag st)
  = (Returned
       (map (fun p => Spec.set_isActive (flag p) p)
          (Sql.limit 100
             (Sql.orderBy (Sql.desc Z.leb Product.createdAt)
                (filter (Spec.listing_match search category)
                   (rows (products st)))))),
     Spec.reflag flag st).
Proof.
  rewrite getProducts_query. f_equal. f_equal.
  unfold Spec.reflag. cbn [products with_products rows].
  rewrite filter_map_commute by (intros []; reflexivity).
  rewrite orderBy_map by (intros [] []; reflexivity).
  apply limit_map.
Qed.

(** C9.  The admin listing returns the first 100 rows of the products that
    match the search text and the category, ordered by creation time,
    most recent first: at most 100 products, sorted by [createdAt] descending.
    No condition on [isActive] takes part: inactive products are ordered and
    returned like active ones, and flipping flags in the store flips them in
    the listing and changes nothing else. *)
Theorem getProducts_listing (search category : option string) (st : Store) :
  exists sorted,
    Storage.getProducts search category st = (Returned (firstn 100 sorted), st)
    /\ Permutation sorted
         (filter (Spec.listing_match search category) (rows (products st)))
    /\ StronglySorted Spec.newer_first sorted
    /\ StronglySorted Spec.newer_first (firstn 100 sorted)
    /\ (List.length (firstn 100 sorted) <= 100)%nat
    /\ forall flag : Product.t -> bool,
         fst (Storage.getProducts search category (Spec.reflag flag st))
         = Returned
             (map (fun p => Spec.set_isActive (flag p) p)
                (firstn 100 sorted)).
Proof.
  exists (Sql.orderBy (Sql.desc Z.leb Product.createdAt)
            (filter (Spec.listing_match search category)
               (rows (products st)))).
  split; [apply getProducts_query|].
  split; [apply orderBy_perm|].
  split; [apply newest_first_sorted|].
  split; [apply StronglySorted_firstn, newest_first_sorted|].
  split; [apply firstn_le_length|].
  intros flag. now rewrite getProducts_reflag.
Qed.

(** ** Catalog query *)

(** The WHERE clause of the catalog query, conjunct by conjunct. *)
Lemma catalog_conditions_spec (f : Storage.Filters) (p : Product.t) :
  Storage.and_ (Storage.catalog_conditions f) p
  = Product.isActive p
    && Spec.other_filters f p
    && match Storage.minPrice f with
       | Some a => Qle_bool a (Product.price p)
       | None => true
       end
    && match Storage.maxPrice f with
       | Some b => Qle_bool (Product.price p) b
       | None => true
       end.
Proof.
  unfold Storage.catalog_conditions, Spec.other_filters.
  rewrite !and_app, !and_push_if.
  cbn [Storage.and_ forallb]. rewrite andb_true_r.
  replace (Bool.eqb (Product.isActive p) true) with (Product.isActive p)
    by (now destruct (Product.isActive p)).
  destruct (Product.isActive p); [|reflexivity]. cbn [andb].
  destruct (Js.truthy_string (Storage.search f)) as [s|];
    [destruct (Storage.catalog_search s p); [|reflexivity]|]; cbn [andb];
  (destruct (Js.truthy_string (Storage.category f)) as [c|];
    [destruct (String.eqb (Product.category p) c); [|reflexivity]|];
    cbn [andb]);
  (destruct (Storage.minPrice f) as [a|];
    [destruct (Qle_bool a (Product.price p)); cbn [andb]|]);
  (destruct (Storage.maxPrice f) as [b|];
    [destruct (Qle_bool (Product.price p) b); cbn [andb]|]);
  destruct (Storage.inStock f) as [[|]|]; cbn [Storage.truthy_bool andb];
  try (destruct (0 <? Product.stockQuantity p); cbn [andb]);
  destruct (Storage.featured f) as [[|]|]; cbn [Storage.truthy_bool andb];
  try (destruct (Product.isFeatured p)); reflexivity.
Qed.

Lemma catalog_window_incl (f : Storage.Filters) (l r : list Product.t)
  (p : Product.t) :
  Storage.catalog_window f l = Returned r -> In p r -> In p l.
Proof.
  unfold Storage.catalog_window.
  destruct (Js.truthy_int (Storage.limit f)) as [n|],
           (Js.truthy_int (Storage.offset f)) as [m|];
    intros [= <-] H;
    repeat first [ apply limit_incl in H | apply offset_incl in H ]; exact H.
Qed.


(** Every row of a catalog result is a row of [products] that passes the
    WHERE clause. *)
Lemma getCatalogProducts_In (f : Storage.Filters) (st : Store)
  (p : Product.t) :
  In p (Sql.orderBy (Storage.catalog_order f)
          (filter (Storage.and_ (Storage.catalog_conditions f))
             (rows (products st))))
  <-> In p (rows (products st))
      /\ Storage.and_ (Storage.catalog_conditions f) p = true.
Proof. rewrite orderBy_In. apply filter_In. Qed.




(** Every row a catalog query returns is a row of [products] that passes the
    WHERE clause. *)
Lemma returned_catalog_In (f : Storage.Filters) (st : Store) (p : Product.t) :
  In p (Spec.returned (Storage.getCatalogProducts f st)) ->
  In p (rows (products st))
  /\ Storage.and_ (Storage.catalog_conditions f) p = true.
Proof.
  unfold Spec.returned. intros Hp.
  destruct (fst (Storage.getCatalogProducts f st)) as [l|e] eqn:E;
    [|contradiction].
  cbn [Storage.getCatalogProducts fst] in E.
  now apply (catalog_window_incl _ _ _ _ E), getCatalogProducts_In in Hp.
Qed.

(** The page of size [n] at offset [m]. *)
Lemma catalog_page (f : Storage.Filters) (n m : Z) (l : list Product.t) :
  0 < n -> 0 <= m ->
  Storage.catalog_window (Spec.with_window f (Some n) (Some m)) l
  = Returned (firstn (Z.to_nat n) (skipn (Z.to_nat m) l)).
Proof.
  intros Hn Hm. unfold Storage.catalog_window.
  cbn [Spec.with_window Storage.limit Storage.offset].
  destruct n as [|n|n]; try lia. destruct m as [|m|m]; try lia; reflexivity.
Qed.


(** C7.  For all numbers [a] and [b], the catalog query with [minPrice = a]
    and [maxPrice = b] (no page window) returns exactly the products that are
    active, pass the other filters (search text, category, in stock,
    featured) and have [a <= price <= b], both bounds included. *)
Theorem catalog_price_range (f : Storage.Filters) (a b : Q) (st : Store)
  (p : Product.t) :
  Storage.minPrice f = Some a ->
  Storage.maxPrice f = Some b ->
  Js.truthy_int (Storage.limit f) = None ->
  Js.truthy_int (Storage.offset f) = None ->
  exists l,
    Storage.getCatalogProducts f st = (Returned l, st)
    /\ (In p l <->
        In p (rows (products st))
        /\ Product.isActive p = true
        /\ Spec.other_filters f p = true
        /\ (a <= Product.price p)%Q /\ (Product.price p <= b)%Q).
Proof.
  intros Hmin Hmax Hlim Hoff. eexists. split.
  - unfold Storage.getCatalogProducts, Storage.catalog_window.
    rewrite Hlim, Hoff. reflexivity.
  - rewrite getCatalogProducts_In, catalog_conditions_spec, Hmin, Hmax.
    rewrite !andb_true_iff, !Qle_bool_iff. tauto.
Qed.

(** ** Analytics *)

Lemma is_double_b64 (x : Q) : Js.is_double x = true -> (Js.b64 x == x)%Q.
Proof.
  unfold Js.is_double. intros H. apply andb_true_iff in H.
  now apply Qeq_bool_iff.
Qed.

Lemma or_zero_Q_Some (v : Q) : (Js.or_zero_Q (Some v) == v)%Q.
Proof.
  cbn. destruct (Qeq_bool v 0) eqn:E; [|reflexivity].
  apply Qeq_bool_eq in E. now symmetry.
Qed.


Lemma is_double_comp (x y : Q) :
  (x == y)%Q -> Js.is_double x = Js.is_double y.
Proof.
  intros E. unfold Js.is_double. rewrite (b64_comp x y E). f_equal.
  - destruct (Qeq_bool (Js.b64 y) x) eqn:B1;
      destruct (Qeq_bool (Js.b64 y) y) eqn:B2; try reflexivity.
    + apply Qeq_bool_iff in B1. apply Qeq_bool_neq in B2.
      exfalso. apply B2. now rewrite B1.
    + apply Qeq_bool_iff in B2. apply Qeq_bool_neq in B1.
      exfalso. apply B1. now rewrite B2.
  - destruct (Qle_bool (Qabs x) Js.MAX_VALUE) eqn:B1;
      destruct (Qle_bool (Qabs y) Js.MAX_VALUE) eqn:B2; try reflexivity.
    + apply Qle_bool_iff in B1. rewrite E in B1.
      apply Qle_bool_iff in B1. congruence.
    + apply Qle_bool_iff in B2. rewrite <- E in B2.
      apply Qle_bool_iff in B2. congruence.
Qed.

Lemma adds_exactly_comp (from from' : Q) (l : list Q) :
  (from == from')%Q -> Spec.adds_exactly from l = Spec.adds_exactly from' l.
Proof.
  revert from from'. induction l as [|x l IH]; intros from from' E;
    [reflexivity|].
  cbn [Spec.adds_exactly].
  assert (E' : (from + x == from' + x)%Q) by (now rewrite E).
  now rewrite (IH _ _ E'), (is_double_comp _ _ E').
Qed.

(** Where adding up rounds nowhere, the running sum is the sum. *)
Lemma rounded_sum_exact (l : list Q) (from acc : Q) :
  (acc == from)%Q -> Spec.adds_exactly from l = true ->
  (fold_left (fun sum x => Js.b64 (sum + Js.b64 x)) l acc
   == from + fold_right Qplus 0 l)%Q.
Proof.
  revert from acc. induction l as [|x l IH]; intros from acc Hacc H.
  - cbn. rewrite Hacc. ring.
  - cbn [Spec.adds_exactly] in H. apply andb_true_iff in H.
    destruct H as [H Hrest]. apply andb_true_iff in H.
    destruct H as [Hx Hsum]. apply is_double_b64 in Hx, Hsum.
    cbn [fold_left fold_right].
    rewrite (IH (from + x)%Q); [ring| |exact Hrest].
    assert (E : (acc + Js.b64 x == from + x)%Q) by (now rewrite Hacc, Hx).
    now rewrite (b64_comp _ _ E).
Qed.






(** A zero-stock product counts as low stock: of the three sample products,
    the one with 5 and the one with 0 in stock are counted, and the inactive
    one is part of every figure. *)
Example getProductStats_shop (engine : Sql.Summation) :
  exists stats,
    fst (Storage.getProductStats engine Sample.shop) = Returned stats
    /\ Storage.totalProducts stats = 3%N
    /\ (Storage.totalValue stats == 1795 # 2)%Q
    /\ Storage.lowStockCount stats = 2%N
    /\ Storage.categoriesCount stats = 2%N.
Proof. eexists. destruct engine; repeat split; vm_compute; reflexivity. Qed.

(** ** Wishlist *)

Lemma next_rowid_above_seq {A : Type} (id : A -> Z) (t : Table A) :
  seq t < next_rowid id t.
Proof.
  unfold next_rowid. generalize (seq t) as s.
  induction (rows t) as [|r l IH]; intros s; cbn; [lia|].
  specialize (IH s). lia.
Qed.

(** The id of an inserted row is above the id of every row of the table. *)
Lemma next_rowid_fresh {A : Type} (id : A -> Z) (t : Table A) (r : A) :
  In r (rows t) -> id r < next_rowid id t.
Proof.
  unfold next_rowid. generalize (seq t) as s.
  induction (rows t) as [|x l IH]; intros s Hin; cbn; [contradiction|].
  destruct Hin as [-> | Hin]; [lia|].
  specialize (IH s Hin). lia.
Qed.


Lemma find_app_None {A : Type} (f : A -> bool) (l l' : list A) :
  find f l = None -> find f (l ++ l') = find f l'.
Proof.
  induction l as [|x l IH]; cbn; [reflexivity|].
  destruct (f x); [discriminate | exact IH].
Qed.

Lemma find_In_Some {A : Type} (f : A -> bool) (l : list A) (x : A) :
  In x l -> f x = true -> exists y, find f l = Some y.
Proof.
  intros Hin Hf. destruct (find f l) as [y|] eqn:E; [now exists y|].
  now rewrite (find_none f l E x Hin) in Hf.
Qed.

Lemma wishlist_pair_refl (now : Z) (s : string) (p i : Z) :
  Storage.wishlist_pair s p (WishlistItem.mk i s p now) = true.
Proof.
  unfold Storage.wishlist_pair. cbn.
  now rewrite String.eqb_refl, Z.eqb_refl.
Qed.

Lemma delete_where_none {A : Type} (c : A -> bool) (t : Table A) :
  filter c (rows t) = [] -> delete_where c t = t.
Proof.
  intros H. unfold delete_where. destruct t as [l s]. cbn in *. f_equal.
  induction l as [|x l IH]; cbn in *; [reflexivity|].
  destruct (c x); [discriminate|]. cbn. now rewrite IH.
Qed.

Lemma wishlist_pair_iff (sessionId : string) (productId : Z)
  (w : WishlistItem.t) :
  Storage.wishlist_pair sessionId productId w = true
  <-> Spec.for_pair sessionId productId w.
Proof.
  unfold Storage.wishlist_pair, Spec.for_pair.
  now rewrite andb_true_iff, String.eqb_eq, Z.eqb_eq.
Qed.

Lemma find_pair_none (sessionId : string) (productId : Z)
  (l : list WishlistItem.t) :
  (forall w, In w l -> ~ Spec.for_pair sessionId productId w) ->
  find (Storage.wishlist_pair sessionId productId) l = None.
Proof.
  intros H. destruct (find _ l) as [w|] eqn:E; [|reflexivity].
  apply find_some in E. destruct E as [Hin Hw].
  apply wishlist_pair_iff in Hw. now destruct (H w Hin).
Qed.

(** C8.  [addToWishlist] on a pair that has a row returns a row of the
    wishlist for that pair and leaves the store as it is.  On a pair that has
    none it inserts one: when the product exists it returns a new row for the
    pair, with an id above those of the other rows, and the wishlist is the
    old one followed by that row; when it does not, the call throws and the
    store is as it was.  Calling it again after a call that returned a row
    returns the same row and adds nothing.  [removeFromWishlist] deletes the
    rows of the pair and returns true exactly when there was one; on a pair
    without a row it returns false and leaves the store as it is. *)
Theorem wishlist_contract (now now' : Z) (sessionId : string) (productId : Z)
  (st : Store) :
  (forall w,
     In w (rows (wishlist st)) ->
     Spec.for_pair sessionId productId w ->
     exists w0,
       Storage.addToWishlist now sessionId productId st = (Returned w0, st)
       /\ In w0 (rows (wishlist st))
       /\ Spec.for_pair sessionId productId w0)
  /\ ((forall w, In w (rows (wishlist st)) ->
                 ~ Spec.for_pair sessionId productId w) ->
      ((exists p, In p (rows (products st)) /\ Product.id p = productId) ->
       exists w st',
         Storage.addToWishlist now sessionId productId st = (Returned w, st')
         /\ Spec.for_pair sessionId productId w
         /\ WishlistItem.createdAt w = now
         /\ Forall (fun w' => WishlistItem.id w' < WishlistItem.id w)
              (rows (wishlist st))
         /\ rows (wishlist st') = (rows (wishlist st) ++ [w])%list
         /\ st' = with_wishlist (wishlist st') st)
      /\ ((forall p, In p (rows (products st)) -> Product.id p <> productId) ->
          Storage.addToWishlist now sessionId productId st
          = (Thrown SQLITE_CONSTRAINT_FOREIGNKEY, st)))
  /\ (forall w st',
        Storage.addToWishlist now sessionId productId st = (Returned w, st') ->
        Storage.addToWishlist now' sessionId productId st'
        = (Returned w, st'))
  /\ exists deleted st',
       Storage.removeFromWishlist sessionId productId st
       = (Returned deleted, st')
       /\ rows (wishlist st')
          = filter
              (fun w => negb (Storage.wishlist_pair sessionId productId w))
              (rows (wishlist st))
       /\ Forall (fun w => ~ Spec.for_pair sessionId productId w)
            (rows (wishlist st'))
       /\ (forall w, In w (rows (wishlist st)) ->
                     ~ Spec.for_pair sessionId productId w ->
                     In w (rows (wishlist st')))
       /\ (deleted = true <->
           exists w, In w (rows (wishlist st))
                     /\ Spec.for_pair sessionId productId w)
       /\ (deleted = false -> st' = st).
Proof.
  split; [|split; [|split]].
  - intros w Hin Hw. apply wishlist_pair_iff in Hw.
    destruct (find_In_Some _ _ _ Hin Hw) as [w0 Hfind].
    exists w0. unfold Storage.addToWishlist, bind, select. rewrite Hfind.
    apply find_some in Hfind. destruct Hfind as [Hin0 Hw0].
    apply wishlist_pair_iff in Hw0. now split.
  - intros Hnone. apply find_pair_none in Hnone.
    unfold Storage.addToWishlist, bind, select. rewrite Hnone.
    unfold Storage.insert_wishlist. split.
    + intros [p [Hp Hid]].
      assert (E : existsb (fun p => Product.id p =? productId)
                    (rows (products st)) = true).
      { apply existsb_exists. exists p. split; [exact Hp|].
        now apply Z.eqb_eq. }
      rewrite E. eexists. eexists. split; [reflexivity|].
      split; [split; reflexivity|]. split; [reflexivity|].
      split; [|split; reflexivity].
      apply Forall_forall. intros w' Hw'. cbn [WishlistItem.id].
      now apply next_rowid_fresh.
    + intros Hmissing.
      assert (E : existsb (fun p => Product.id p =? productId)
                    (rows (products st)) = false).
      { apply not_true_is_false. intros E. apply existsb_exists in E.
        destruct E as [p [Hp Hid]]. apply Z.eqb_eq in Hid.
        now apply (Hmissing p Hp). }
      now rewrite E.
  - intros w st'. unfold Storage.addToWishlist, bind, select.
    destruct (find _ (rows (wishlist st))) as [w0|] eqn:Hfind.
    + intros [= <- <-]. now rewrite Hfind.
    + unfold Storage.insert_wishlist.
      destruct (existsb _ (rows (products st))); [|discriminate].
      intros [= <- <-]. cbn [wishlist with_wishlist append rows].
      rewrite find_app_None by exact Hfind.
      cbn [find]. now rewrite wishlist_pair_refl.
  - eexists. eexists. split; [reflexivity|].
    cbn [wishlist with_wishlist delete_where rows].
    split; [reflexivity|]. split; [|split; [|split]].
    + apply Forall_forall. intros w Hw. apply filter_In in Hw.
      destruct Hw as [_ Hw]. rewrite <- wishlist_pair_iff.
      now destruct (Storage.wishlist_pair sessionId productId w).
    + intros w Hin Hw. apply filter_In. split; [exact Hin|].
      rewrite <- wishlist_pair_iff in Hw.
      now destruct (Storage.wishlist_pair sessionId productId w).
    + rewrite Nat.ltb_lt. split.
      * destruct (filter _ (rows (wishlist st))) as [|w l] eqn:E;
          [cbn; lia|]. intros _. exists w.
        rewrite <- wishlist_pair_iff.
        apply filter_In. rewrite E. now left.
      * intros [w Hw]. rewrite <- wishlist_pair_iff in Hw.
        apply filter_In in Hw.
        destruct (filter _ (rows (wishlist st))); [contradiction | cbn; lia].
    + rewrite Nat.ltb_ge. intros Hn.
      rewrite delete_where_none.
      * now destruct st.
      * destruct (filter _ (rows (wishlist st))); [reflexivity | cbn in Hn; lia].
Qed.

(** ** Receipts *)

Lemma with_receiptItems_same (st : Store) :
  with_receiptItems (receiptItems st) st = st.
Proof. now destruct st. Qed.

(** The loop over the items stores them one by one and stops at the first one
    that references no product; what it stored before stays stored. *)
Lemma for_of_insert_items (receiptId : Z) (items : list InsertReceiptItem.t)
  (st : Store) :
  existsb (fun r => Receipt.id r =? receiptId) (rows (receipts st)) = true ->
  for_of items (Storage.insert_receiptItem receiptId) st
  = (let accepted := Spec.accepted (rows (products st)) items in
     if (List.length accepted =? List.length items)%nat
     then Returned tt
     else Thrown SQLITE_CONSTRAINT_FOREIGNKEY,
     with_receiptItems
       (Spec.add_items receiptId (Spec.accepted (rows (products st)) items)
          (receiptItems st))
       st).
Proof.
  revert st. induction items as [|item items IH]; intros st Hr.
  - cbn. unfold ret. now rewrite with_receiptItems_same.
  - cbn [for_of Spec.accepted]. unfold bind at 1.
    unfold Storage.insert_receiptItem at 1. rewrite Hr. cbn [andb].
    fold (Spec.references_product (rows (products st)) item).
    destruct (Spec.references_product (rows (products st)) item).
    + rewrite IH by exact Hr. cbn. reflexivity.
    + cbn. now rewrite with_receiptItems_same.
Qed.

Lemma rows_add_items (receiptId : Z) (items : list InsertReceiptItem.t)
  (t : Table ReceiptItem.t) :
  exists new,
    rows (Spec.add_items receiptId items t) = (rows t ++ new)%list
    /\ map Spec.item_of new = map (Spec.for_receipt receiptId) items.
Proof.
  revert t. induction items as [|item items IH]; intros t.
  - exists []. cbn. now rewrite app_nil_r.
  - destruct (IH (append ReceiptItem.id (Storage.item_row receiptId item) t))
      as [new [Hrows Hnew]].
    exists (Storage.item_row receiptId item (next_rowid ReceiptItem.id t)
            :: new).
    change (Spec.add_items receiptId (item :: items) t)
      with (Spec.add_items receiptId items
              (append ReceiptItem.id (Storage.item_row receiptId item) t)).
    rewrite Hrows. cbn [append rows]. rewrite <- app_assoc.
    split; [reflexivity|]. cbn [map]. now rewrite Hnew.
Qed.

Lemma accepted_length (ps : list Product.t)
  (items : list InsertReceiptItem.t) :
  (List.length (Spec.accepted ps items) <= List.length items)%nat.
Proof.
  induction items as [|item items IH]; cbn; [lia|].
  destruct (Spec.references_product ps item); cbn; lia.
Qed.

Lemma accepted_all (ps : list Product.t) (items : list InsertReceiptItem.t) :
  List.length (Spec.accepted ps items) = List.length items ->
  Spec.accepted ps items = items.
Proof.
  induction items as [|item items IH]; cbn; [reflexivity|].
  destruct (Spec.references_product ps item); cbn; [|discriminate].
  intros [= H]. now rewrite IH.
Qed.

(** What [createReceipt] does, case by case. *)
Lemma createReceipt_run (now : Z) (receipt : InsertReceipt.t)
  (items : list InsertReceiptItem.t) (st : Store) :
  Storage.createReceipt now receipt items st
  = match Storage.insert_receipt now receipt st with
    | (Returned r, st1) =>
        (let accepted := Spec.accepted (rows (products st)) items in
         if (List.length accepted =? List.length items)%nat
         then Returned r
         else Thrown SQLITE_CONSTRAINT_FOREIGNKEY,
         with_receiptItems
           (Spec.add_items (Receipt.id r)
              (Spec.accepted (rows (products st)) items) (receiptItems st))
           st1)
    | (Thrown e, st1) => (Thrown e, st1)
    end.
Proof.
  unfold Storage.createReceipt, bind at 1.
  unfold Storage.insert_receipt.
  destruct (existsb _ (rows (receipts st))); [reflexivity|].
  unfold bind. rewrite for_of_insert_items.
  - cbn [products with_receipts receiptItems].
    destruct (_ =? _)%nat; reflexivity.
  - cbn [receipts with_receipts append rows]. rewrite existsb_app.
    cbn. rewrite Z.eqb_refl. apply orb_true_r.
Qed.

(** C2, as the code has it.  [createReceipt] stores the subtotal, rates,
    amounts and total of the submitted header as they are (an omitted
    discount column as 0), without recomputing or checking them: a persisted
    receipt satisfies total = (subtotal - discountAmount) + taxAmount,
    discountAmount = subtotal x discountRate and
    taxAmount = (subtotal - discountAmount) x taxRate exactly when the
    submitted header does. *)
Theorem createReceipt_keeps_totals (now : Z) (receipt : InsertReceipt.t)
  (items : list InsertReceiptItem.t) (st : Store) (r : Receipt.t)
  (st' : Store) :
  Storage.createReceipt now receipt items st = (Returned r, st') ->
  In r (rows (receipts st'))
  /\ Receipt.subtotal r = InsertReceipt.subtotal receipt
  /\ Receipt.taxRate r = InsertReceipt.taxRate receipt
  /\ Receipt.taxAmount r = InsertReceipt.taxAmount receipt
  /\ Receipt.discountRate r
     = Storage.or_default (InsertReceipt.discountRate receipt)
  /\ Receipt.discountAmount r
     = Storage.or_default (InsertReceipt.discountAmount receipt)
  /\ Receipt.totalAmount r = InsertReceipt.totalAmount receipt
  /\ (Spec.totals_invariant r <-> Spec.header_invariant receipt).
Proof.
  rewrite createReceipt_run. unfold Storage.insert_receipt.
  destruct (existsb _ (rows (receipts st))); [discriminate|].
  cbv zeta. destruct (_ =? _)%nat; [|discriminate].
  intros [= <- <-].
  split.
  { cbn [receipts with_receiptItems with_receipts append rows].
    apply in_or_app. right. now left. }
  cbn [Receipt.subtotal Receipt.taxRate Receipt.taxAmount
       Receipt.discountRate Receipt.discountAmount Receipt.totalAmount].
  do 6 (split; [reflexivity|]).
  reflexivity.
Qed.

(** C3, as the code has it.  [createReceipt] inserts the header, then the
    items one by one in their order, with no transaction around them.
    - A receipt number already in use: it throws and the store is unchanged.
    - Otherwise the header is stored, and after it the items up to the first
      one that references no product.  If that is all of them, the call
      returns the header: it reports success only when every item is stored.
      If not, the call throws, and the header and the items before the
      failing one stay in the store. *)
Theorem createReceipt_outcomes (now : Z) (receipt : InsertReceipt.t)
  (items : list InsertReceiptItem.t) (st : Store) :
  let taken :=
    existsb
      (fun r => String.eqb (Receipt.receiptNumber r)
                  (InsertReceipt.receiptNumber receipt))
      (rows (receipts st)) in
  let accepted := Spec.accepted (rows (products st)) items in
  exists out st',
    Storage.createReceipt now receipt items st = (out, st')
    /\ if taken
       then out = Thrown SQLITE_CONSTRAINT_UNIQUE /\ st' = st
       else
         exists r new,
           rows (receipts st') = (rows (receipts st) ++ [r])%list
           /\ rows (receiptItems st') = (rows (receiptItems st) ++ new)%list
           /\ map Spec.item_of new
              = map (Spec.for_receipt (Receipt.id r)) accepted
           /\ ((accepted = items /\ out = Returned r)
               \/ ((List.length accepted < List.length items)%nat
                   /\ out = Thrown SQLITE_CONSTRAINT_FOREIGNKEY)).
Proof.
  intros taken accepted. rewrite createReceipt_run.
  unfold Storage.insert_receipt. fold taken.
  destruct taken.
  - eexists. eexists. split; [reflexivity|]. now split.
  - eexists. eexists. split; [reflexivity|].
    set (r := Receipt.mk _ _ _ _ _ _ _ _ _ _ _ _ _).
    destruct (rows_add_items (Receipt.id r) accepted (receiptItems st))
      as [new [Hrows Hnew]].
    exists r, new.
    cbn [receipts receiptItems with_receiptItems with_receipts append rows].
    split; [reflexivity|]. split; [exact Hrows|]. split; [exact Hnew|].
    cbv zeta. fold accepted.
    destruct (Nat.eqb_spec (List.length accepted) (List.length items))
      as [E | E].
    + left. split; [now apply accepted_all | reflexivity].
    + right. split; [|reflexivity].
      pose proof (accepted_length (rows (products st)) items). fold accepted in H.
      lia.
Qed.

(** ** Product deletion *)

Lemma no_hit_iff {A : Type} (c : A -> bool) (l : list A) :
  (List.length (filter c l) =? 0)%nat = true
  <-> ~ exists x, In x l /\ c x = true.
Proof.
  rewrite Nat.eqb_eq. split.
  - intros H [x Hx]. apply filter_In in Hx.
    destruct (filter c l); [contradiction | discriminate].
  - intros H. destruct (filter c l) as [|x l'] eqn:E; [reflexivity|].
    exfalso. apply H. exists x. apply filter_In. rewrite E. now left.
Qed.

(** C5, as the code has it.  [deleteProduct] never touches receipts or
    receipt items.  For a product that exists:
    - if no receipt item references it, the product row is deleted together
      with its images, reviews and wishlist rows (the rows of other products
      stay), and the call returns true;
    - if a receipt item references it, the foreign key of [receipt_items]
      refuses the delete: the call throws and the store is unchanged, the
      product, its images, reviews and wishlist rows included.
    For an id that no product has, the call returns false and changes
    nothing. *)
Theorem deleteProduct_cascade (id : Z) (st : Store) :
  exists out st',
    Storage.deleteProduct id st = (out, st')
    /\ receipts st' = receipts st
    /\ receiptItems st' = receiptItems st
    /\ ((exists p, In p (rows (products st)) /\ Product.id p = id) ->
        (Forall (fun it => ReceiptItem.productId it <> id)
           (rows (receiptItems st)) ->
         out = Returned true
         /\ rows (products st')
            = filter (fun p => negb (Product.id p =? id))
                (rows (products st))
         /\ rows (productImages st')
            = filter (fun i => negb (ProductImage.productId i =? id))
                (rows (productImages st))
         /\ rows (productReviews st')
            = filter (fun r => negb (ProductReview.productId r =? id))
                (rows (productReviews st))
         /\ rows (wishlist st')
            = filter (fun w => negb (WishlistItem.productId w =? id))
                (rows (wishlist st))
         /\ categories st' = categories st)
        /\ ((exists it, In it (rows (receiptItems st))
                        /\ ReceiptItem.productId it = id) ->
            out = Thrown SQLITE_CONSTRAINT_FOREIGNKEY /\ st' = st))
    /\ ((~ exists p, In p (rows (products st)) /\ Product.id p = id) ->
        out = Returned false /\ st' = st).
Proof.
  unfold Storage.deleteProduct.
  destruct (List.length (filter _ (rows (products st))) =? 0)%nat eqn:Hn.
  - apply no_hit_iff in Hn.
    eexists. eexists. split; [reflexivity|]. do 2 (split; [reflexivity|]).
    split; [|now split].
    intros [p [Hp Hid]]. exfalso. apply Hn. exists p.
    split; [exact Hp | now apply Z.eqb_eq].
  - assert (Hex : exists p, In p (rows (products st)) /\ Product.id p = id).
    { destruct (filter _ (rows (products st))) as [|p l] eqn:E;
        [discriminate|].
      assert (Hin : In p (filter (fun p => Product.id p =? id)
                            (rows (products st)))) by (rewrite E; now left).
      apply filter_In in Hin. exists p. now rewrite <- Z.eqb_eq. }
    destruct (existsb _ (rows (receiptItems st))) eqn:Href.
    + eexists. eexists. split; [reflexivity|]. do 2 (split; [reflexivity|]).
      split; [|intros H; destruct (H Hex)].
      intros _. split; [|now split].
      intros Hnone. exfalso.
      apply existsb_exists in Href. destruct Href as [it [Hit E]].
      rewrite Forall_forall in Hnone. apply (Hnone it Hit).
      now apply Z.eqb_eq.
    + eexists. eexists. split; [reflexivity|]. do 2 (split; [reflexivity|]).
      split; [|intros H; destruct (H Hex)].
      intros _. split.
      * intros _. cbn. repeat split; reflexivity.
      * intros [it [Hit E]]. exfalso.
        apply Z.eqb_eq in E.
        pose proof (existsb_exists
                      (fun it => ReceiptItem.productId it =? id)
                      (rows (receiptItems st))) as [_ Hx].
        rewrite Hx in Href; [discriminate | now exists it].
Qed.

(** ** The statements above on the sample data *)

(** Prices on either bound are inside the range. *)
Example catalog_price_range_shop :
  fst (Storage.getCatalogProducts Sample.price_10_20 Sample.shop)
  = Returned [Sample.novel; Sample.widget]
  /\ fst (Storage.getCatalogProducts Sample.no_filter Sample.shop)
     = Returned [Sample.novel; Sample.widget]
  /\ fst (Storage.getProducts None None Sample.shop)
     = Returned [Sample.novel; Sample.gadget; Sample.widget].
Proof. repeat split. Qed.

Lemma catalog_price_range_witness :
  exists l,
    Storage.getCatalogProducts Sample.price_10_20 Sample.shop
    = (Returned l, Sample.shop)
    /\ (In Sample.novel l <->
        In Sample.novel (rows (products Sample.shop))
        /\ Product.isActive Sample.novel = true
        /\ Spec.other_filters Sample.price_10_20 Sample.novel = true
        /\ (10 # 1 <= Product.price Sample.novel)%Q
        /\ (Product.price Sample.novel <= 20 # 1)%Q).
Proof.
  apply (catalog_price_range Sample.price_10_20 (10 # 1) (20 # 1)
           Sample.shop Sample.novel); reflexivity.
Defined.

(** An offset without a limit: the query throws, and the store is as it
    was. *)
Example getCatalogProducts_offset_only :
  Storage.getCatalogProducts Sample.second_page_only Sample.shop
  = (Thrown SQLITE_ERROR, Sample.shop).
Proof. reflexivity. Qed.


Example getProductStats_tea (engine : Sql.Summation) :
  exists stats,
    fst (Storage.getProductStats engine Sample.tea_shop) = Returned stats
    /\ (Storage.totalValue stats == 7652600929320959 # 17592186044416)%Q
    /\ (Storage.totalValue stats < 435)%Q.
Proof. eexists. destruct engine; repeat split; vm_compute; reflexivity. Qed.


(** C2 as stated fails: a header with a total of 1 on a subtotal of 20 is
    stored as it is. *)
Lemma createReceipt_totals_counterexample :
  ~ Spec.claimed_totals 5000 Sample.odd_header [Sample.novel_item]
      Sample.shop.
Proof.
  intros H. destruct (H _ _ eq_refl) as [_ Hinv].
  destruct Hinv as [dr [da [Hdr [Hda [Htotal _]]]]].
  cbn in Hdr, Hda. injection Hda as <-.
  vm_compute in Htotal. discriminate.
Qed.

Lemma createReceipt_keeps_totals_witness :
  exists r st',
    Storage.createReceipt 5000 Sample.fair_header [Sample.novel_item]
      Sample.shop = (Returned r, st')
    /\ In r (rows (receipts st'))
    /\ Receipt.totalAmount r = 45 # 2
    /\ (Spec.totals_invariant r <-> Spec.header_invariant Sample.fair_header).
Proof.
  eexists. eexists. split; [reflexivity|].
  pose proof (createReceipt_keeps_totals 5000 Sample.fair_header
                [Sample.novel_item] Sample.shop _ _ eq_refl) as H.
  destruct H as [Hin [_ [_ [_ [_ [_ [Htot Hiff]]]]]]].
  split; [exact Hin|]. split; [exact Htot | exact Hiff].
Defined.

(** C3 as stated fails: the second item references no product, and the call
    throws after the header and the first item were stored. *)
Lemma createReceipt_atomic_counterexample :
  ~ Spec.claimed_atomic 5000 Sample.fair_header
      [Sample.novel_item; Sample.ghost_item] Sample.shop.
Proof.
  unfold Spec.claimed_atomic.
  rewrite createReceipt_run. cbn.
  intros [Hr _]. discriminate.
Qed.

Example createReceipt_partial :
  exists st',
    Storage.createReceipt 5000 Sample.fair_header
      [Sample.novel_item; Sample.ghost_item] Sample.shop
    = (Thrown SQLITE_CONSTRAINT_FOREIGNKEY, st')
    /\ List.length (rows (receipts st')) = 1%nat
    /\ List.length (rows (receiptItems st')) = 1%nat.
Proof. eexists. repeat split. Qed.

(** C5 as stated fails: the widget was sold once, deleting it is refused, and
    its image, review and wishlist row are still there. *)
Lemma deleteProduct_counterexample :
  ~ Spec.claimed_delete_cascade 1 Sample.sold_shop.
Proof.
  intros H. destruct H as [Himg _].
  - exists Sample.widget. split; [now left | reflexivity].
  - cbn in Himg. inversion Himg as [|i l Hi _]. now apply Hi.
Qed.

Lemma deleteProduct_cascade_witness :
  exists st',
    Storage.deleteProduct 1 Sample.busy_shop = (Returned true, st')
    /\ rows (products st') = [Sample.gadget; Sample.novel]
    /\ rows (productImages st') = []
    /\ rows (productReviews st') = []
    /\ rows (wishlist st') = [Sample.novel_wish]
    /\ receipts st' = receipts Sample.busy_shop
    /\ receiptItems st' = receiptItems Sample.busy_shop.
Proof.
  destruct (deleteProduct_cascade 1 Sample.busy_shop)
    as [out [st' [Hrun [Hr [Hi [Hpresent _]]]]]].
  destruct Hpresent as [Hfree _];
    [exists Sample.widget; split; [now left | reflexivity]|].
  destruct Hfree as [Hout [Hp [Him [Hrev [Hw _]]]]]; [constructor|].
  exists st'. rewrite Hrun, Hout, Hp, Him, Hrev, Hw.
  repeat split; assumption.
Defined.

Example deleteProduct_refused :
  Storage.deleteProduct 1 Sample.sold_shop
  = (Thrown SQLITE_CONSTRAINT_FOREIGNKEY, Sample.sold_shop).
Proof. reflexivity. Qed.

Lemma wishlist_contract_witness :
  (exists w0,
     Storage.addToWishlist 9000 "session-a" 1 Sample.busy_shop
     = (Returned w0, Sample.busy_shop)
     /\ In w0 (rows (wishlist Sample.busy_shop))
     /\ Spec.for_pair "session-a" 1 w0)
  /\ Storage.addToWishlist 9001 "session-a" 1 Sample.busy_shop
     = (Returned Sample.widget_wish, Sample.busy_shop)
  /\ (exists w st',
        Storage.addToWishlist 9000 "session-b" 3 Sample.busy_shop
        = (Returned w, st')
        /\ Spec.for_pair "session-b" 3 w
        /\ rows (wishlist st') = (rows (wishlist Sample.busy_shop) ++ [w])%list
        /\ Storage.addToWishlist 9001 "session-b" 3 st' = (Returned w, st'))
  /\ Storage.addToWishlist 9000 "session-b" 99 Sample.busy_shop
     = (Thrown SQLITE_CONSTRAINT_FOREIGNKEY, Sample.busy_shop).
Proof.
  destruct (wishlist_contract 9000 9001 "session-a" 1 Sample.busy_shop)
    as [Hadd [_ [Htwice _]]].
  destruct (wishlist_contract 9000 9001 "session-b" 3 Sample.busy_shop)
    as [_ [Hnew [Hagain _]]].
  destruct (wishlist_contract 9000 9001 "session-b" 99 Sample.busy_shop)
    as [_ [Hghost _]].
  assert (Hfresh : forall p w,
            In w (rows (wishlist Sample.busy_shop)) ->
            ~ Spec.for_pair "session-b" p w).
  { intros p w [<- | [<- | []]] [E _]; discriminate E. }
  split; [|split; [|split]].
  - apply (Hadd Sample.widget_wish); [now left | split; reflexivity].
  - apply Htwice. reflexivity.
  - destruct (Hnew (Hfresh 3)) as [Hins _].
    destruct Hins as [w [st' [Hrun [Hpair [_ [_ [Hrows _]]]]]]].
    + exists Sample.novel. split; [cbn; tauto | reflexivity].
    + exists w, st'. split; [exact Hrun|]. split; [exact Hpair|].
      split; [exact Hrows|]. now apply Hagain.
  - destruct (Hghost (Hfresh 99)) as [_ Hthrow]. apply Hthrow.
    intros p [<- | [<- | [<- | []]]]; discriminate.
Defined.

(** A first call inserts the row, a second one returns that row; removing a
    pair that is not there returns false and changes nothing. *)
Example wishlist_twice :
  exists w st',
    Storage.addToWishlist 9000 "session-b" 3 Sample.busy_shop
    = (Returned w, st')
    /\ Storage.addToWishlist 9001 "session-b" 3 st' = (Returned w, st')
    /\ List.length (rows (wishlist st')) = 3%nat
    /\ Storage.removeFromWishlist "session-c" 3 st' = (Returned false, st')
    /\ fst (Storage.removeFromWishlist "session-b" 3 st') = Returned true.
Proof. eexists. eexists. repeat split. Qed.

(** An unknown category code gets a SKU all the same. *)
Example generateSku_unknown_category :
  fst (Storage.generateSku 2026 "XYZ" Sample.shop) = Returned "XYZ-001-2026"
  /\ fst (Storage.generateSku 2026 "ELC" Sample.shop)
     = Returned "ELC-003-2026".
Proof. split; reflexivity. Qed.

(** * Further properties of the storage layer *)

(** ** Row ids *)

Lemma find_fresh_id {A : Type} (id : A -> Z) (t : Table A) (row : Z -> A) :
  id (row (next_rowid id t)) = next_rowid id t ->
  find (fun r => id r =? next_rowid id t) (rows (append id row t))
  = Some (row (next_rowid id t)).
Proof.
  intros Hid. cbn [append rows].
  rewrite find_app_None.
  - cbn. now rewrite Hid, Z.eqb_refl.
  - destruct (find _ (rows t)) as [r|] eqn:E; [|reflexivity].
    apply find_some in E. destruct E as [Hin E].
    apply Z.eqb_eq in E. pose proof (next_rowid_fresh id t r Hin). lia.
Qed.

Lemma existsb_false_find {A : Type} (c : A -> bool) (l : list A) :
  existsb c l = false -> find c l = None.
Proof.
  induction l as [|x l IH]; cbn; [reflexivity|].
  destruct (c x); cbn; [discriminate | exact IH].
Qed.

Lemma find_app_old {A : Type} (c : A -> bool) (l : list A) (x : A) :
  c x = false -> find c (l ++ [x]) = find c l.
Proof.
  intros Hx. induction l as [|y l IH]; cbn; [now rewrite Hx|].
  destruct (c y); [reflexivity | exact IH].
Qed.

(** ** Creating and finding products *)

(** X1.  When [createProduct] returns a product, [getProductBySku] on its
    sku and [getProduct] on its id both return that product, [isActive] and
    [isFeatured] left out are stored as true and false, and the lookup of
    every other id answers as before.  When the sku is taken,
    [createProduct] throws and the store is unchanged. *)
Theorem createProduct_lookup (now : Z) (product : InsertProduct.t)
  (st : Store) :
  (forall p st',
     Storage.createProduct now product st = (Returned p, st') ->
     Storage.getProductBySku (InsertProduct.sku product) st'
     = (Returned (Some p), st')
     /\ Storage.getProduct (Product.id p) st' = (Returned (Some p), st')
     /\ Product.isActive p
        = Storage.or_else (InsertProduct.isActive product) true
     /\ Product.isFeatured p
        = Storage.or_else (InsertProduct.isFeatured product) false
     /\ forall id, id <> Product.id p ->
          fst (Storage.getProduct id st') = fst (Storage.getProduct id st))
  /\ ((exists q, In q (rows (products st))
                 /\ Product.sku q = InsertProduct.sku product) ->
      Storage.createProduct now product st
      = (Thrown SQLITE_CONSTRAINT_UNIQUE, st)).
Proof.
  unfold Storage.createProduct. split.
  - intros p st'.
    destruct (existsb _ (rows (products st))) eqn:Htaken; [discriminate|].
    intros [= <- <-].
    unfold Storage.getProductBySku, Storage.getProduct, select.
    cbn [products with_products Product.id Product.isActive
         Product.isFeatured fst].
    split; [|split; [|split; [reflexivity|split; [reflexivity|]]]].
    + f_equal. f_equal. cbn [append rows].
      rewrite find_app_None by now apply existsb_false_find.
      cbn. now rewrite String.eqb_refl.
    + f_equal. f_equal.
      apply (find_fresh_id Product.id (products st)). reflexivity.
    + intros id Hid. f_equal. cbn [append rows].
      apply find_app_old. cbn. now apply Z.eqb_neq.
  - intros [q [Hq Hsku]].
    replace (existsb _ (rows (products st))) with true; [reflexivity|].
    symmetry. apply existsb_exists. exists q.
    split; [exact Hq | now apply String.eqb_eq].
Qed.

(** ** The SKU sequence *)

Lemma append_inj_l (s a b : string) : s ++ a = s ++ b -> a = b.
Proof.
  induction s as [|c s IH]; cbn; [trivial|]. intros [= H]. now apply IH.
Qed.

Lemma append_inj_length (a b t t' : string) :
  String.length a = String.length b -> a ++ t = b ++ t' -> a = b.
Proof.
  revert b. induction a as [|c a IH]; intros [|d b]; cbn; try discriminate.
  - reflexivity.
  - intros [= Hlen] [= -> H]. f_equal. now apply IH.
Qed.

Lemma append_length_r (a b t : string) :
  a ++ t = b ++ t -> String.length a = String.length b.
Proof.
  intros H. apply (f_equal String.length) in H.
  rewrite !length_append in H. lia.
Qed.

Lemma parseDigits_padStart (n : N) :
  Js.parseDigits (Js.padStart 3 "0" (Js.String_ n)) = Some n.
Proof.
  rewrite padStart_zero, parseDigits_zeros. apply parseDigits_String.
Qed.

(** The SKU text determines the sequence number. *)
Lemma sku_text_inj (code : string) (year n m : N) :
  Spec.sku_text code n year = Spec.sku_text code m year -> n = m.
Proof.
  unfold Spec.sku_text. intros H.
  apply append_inj_l, append_inj_l in H.
  assert (Hpad : Js.padStart 3 "0" (Js.String_ n)
                 = Js.padStart 3 "0" (Js.String_ m)).
  { eapply append_inj_length; [|exact H]. now apply append_length_r in H. }
  apply (f_equal Js.parseDigits) in Hpad.
  rewrite !parseDigits_padStart in Hpad. now injection Hpad.
Qed.

Lemma generateSku_text (year : N) (code : string) (st : Store) :
  Storage.generateSku year code st
  = (Returned
       (Spec.sku_text code
          (Spec.count_in_category code (rows (products st)) + 1) year),
     st).
Proof.
  unfold Storage.generateSku, select. now rewrite count_category.
Qed.

Lemma count_in_category_app (code : string) (l : list Product.t)
  (p : Product.t) :
  Spec.count_in_category code (l ++ [p])
  = (Spec.count_in_category code l
     + if String.eqb (Product.category p) code then 1 else 0)%N.
Proof.
  rewrite <- !count_category. unfold Sql.count.
  rewrite filter_app, length_app. cbn [filter].
  destruct (String.eqb (Product.category p) code); cbn [List.length]; lia.
Qed.

(** X2.  The SKU determines the count: for one category code and one year,
    [generateSku] returns the same SKU on two stores exactly when the
    category has the same number of products in both. *)
Theorem generateSku_injective (year : N) (code : string) (st st' : Store) :
  fst (Storage.generateSku year code st)
  = fst (Storage.generateSku year code st')
  <-> Spec.count_in_category code (rows (products st))
      = Spec.count_in_category code (rows (products st')).
Proof.
  rewrite !generateSku_text. cbn [fst]. split.
  - intros [= H]. apply sku_text_inj in H. lia.
  - now intros ->.
Qed.

(** X3.  After [createProduct] returned a product, [generateSku] for the
    product's category returns the SKU with the next sequence number, which
    differs from the SKU it returned before; for every other category code
    it returns the SKU it returned before. *)
Theorem generateSku_after_create (now : Z) (product : InsertProduct.t)
  (year : N) (code : string) (st st' : Store) (p : Product.t) :
  Storage.createProduct now product st = (Returned p, st') ->
  let n := Spec.count_in_category code (rows (products st)) in
  (InsertProduct.category product = code ->
   fst (Storage.generateSku year code st')
   = Returned (Spec.sku_text code (n + 2) year)
   /\ fst (Storage.generateSku year code st')
      <> fst (Storage.generateSku year code st))
  /\ (InsertProduct.category product <> code ->
      fst (Storage.generateSku year code st')
      = fst (Storage.generateSku year code st)).
Proof.
  unfold Storage.createProduct.
  destruct (existsb _ (rows (products st))); [discriminate|].
  intros [= <- <-]. rewrite !generateSku_text. cbn [fst].
  cbn [products with_products append rows].
  rewrite count_in_category_app. cbn [Product.category].
  set (n := Spec.count_in_category code (rows (products st))).
  split.
  - intros ->. rewrite String.eqb_refl.
    replace (n + 1 + 1)%N with (n + 2)%N by lia.
    split; [reflexivity|].
    intros [= H]. apply sku_text_inj in H. lia.
  - intros Hne. apply String.eqb_neq in Hne. rewrite Hne.
    now replace (n + 0 + 1)%N with (n + 1)%N by lia.
Qed.

Lemma filter_all_in {A : Type} (c : A -> bool) (l : list A) :
  (forall x, In x l -> c x = true) -> filter c l = l.
Proof.
  induction l as [|x l IH]; intros Hc; cbn; [reflexivity|].
  rewrite Hc by now left. f_equal. apply IH. intros y Hy. apply Hc. now right.
Qed.

Lemma length_after_delete (c : Product.t -> bool) (l : list Product.t)
  (p : Product.t) :
  NoDup (map Product.id l) -> In p l -> c p = true ->
  (List.length
     (filter c (filter (fun q => negb (Product.id q =? Product.id p)%Z) l))
   + 1
   = List.length (filter c l))%nat.
Proof.
  intros Hnd Hin Hc.
  induction l as [|x l IH]; [contradiction|].
  cbn [map] in Hnd. inversion Hnd as [|? ? Hx Hnd']; subst.
  destruct Hin as [-> | Hin].
  - cbn [filter]. rewrite Z.eqb_refl, Hc. cbn [negb List.length].
    rewrite (filter_all_in (fun q => negb (Product.id q =? Product.id p)));
      [lia|].
    intros q Hq. apply negb_true_iff, Z.eqb_neq. intros E.
    apply Hx. rewrite <- E. now apply in_map.
  - assert (Hne : Product.id x <> Product.id p).
    { intros E. apply Hx. rewrite E. now apply in_map. }
    cbn [filter]. apply Z.eqb_neq in Hne. rewrite Hne. cbn [negb filter].
    destruct (c x); cbn [List.length]; rewrite <- (IH Hnd' Hin); lia.
Qed.

Lemma count_after_delete (code : string) (l : list Product.t)
  (p : Product.t) :
  NoDup (map Product.id l) -> In p l -> Product.category p = code ->
  (Spec.count_in_category code
     (filter (fun q => negb (Product.id q =? Product.id p)%Z) l) + 1)%N
  = Spec.count_in_category code l.
Proof.
  intros Hnd Hin Hcat. rewrite <- !count_category. unfold Sql.count.
  rewrite <- (length_after_delete
                (fun q => String.eqb (Product.category q) code) l p Hnd Hin)
    by now apply String.eqb_eq.
  lia.
Qed.

(** X4.  After [deleteProduct] deleted a product of a category, the sequence
    number [generateSku] hands out for that category is the number of
    products the category had before the deletion: a number that was handed
    out before.  If a product of the store carries the SKU with that number,
    [createProduct] with the generated SKU throws and stores nothing. *)
Theorem generateSku_after_delete (now : Z) (year : N) (id : Z)
  (st st' : Store) (p : Product.t) :
  Spec.distinct Product.id (products st) ->
  In p (rows (products st)) ->
  Product.id p = id ->
  Storage.deleteProduct id st = (Returned true, st') ->
  let code := Product.category p in
  let reused :=
    Spec.sku_text code (Spec.count_in_category code (rows (products st)))
      year in
  fst (Storage.generateSku year code st') = Returned reused
  /\ forall q product,
       In q (rows (products st')) ->
       Product.sku q = reused ->
       InsertProduct.sku product = reused ->
       Storage.createProduct now product st'
       = (Thrown SQLITE_CONSTRAINT_UNIQUE, st').
Proof.
  intros Hnd Hin Hid. unfold Storage.deleteProduct.
  destruct (_ =? 0)%nat; [discriminate|].
  destruct (existsb _ (rows (receiptItems st))); [discriminate|].
  intros [= <-]. cbv zeta. split.
  - rewrite generateSku_text. cbn [fst products delete_where rows].
    do 2 f_equal. subst id. now apply count_after_delete.
  - intros q product Hq Hsku Hins. unfold Storage.createProduct.
    replace (existsb _ _) with true; [reflexivity|].
    symmetry. apply existsb_exists. exists q.
    split; [exact Hq | apply String.eqb_eq; congruence].
Qed.

(** ** Unique columns *)

Lemma NoDup_snoc {A : Type} (l : list A) (x : A) :
  NoDup l -> ~ In x l -> NoDup (l ++ [x]).
Proof.
  intros Hl Hx. apply NoDup_app; [exact Hl | repeat constructor; intros [] |].
  intros y Hy [<- | []]. contradiction.
Qed.

Lemma NoDup_map_filter {A K : Type} (key : A -> K) (c : A -> bool)
  (l : list A) :
  NoDup (map key l) -> NoDup (map key (filter c l)).
Proof.
  induction l as [|x l IH]; cbn; [trivial|].
  intros H. inversion H as [|? ? Hx Hl]; subst.
  destruct (c x); cbn; [|now apply IH].
  constructor; [|now apply IH].
  intros Hin. apply Hx. apply in_map_iff in Hin.
  destruct Hin as [y [<- Hy]]. apply in_map. apply filter_In in Hy. tauto.
Qed.

Lemma existsb_false_In {A : Type} (c : A -> bool) (l : list A) (x : A) :
  existsb c l = false -> In x l -> c x = false.
Proof.
  intros H Hin. destruct (c x) eqn:E; [|reflexivity].
  assert (existsb c l = true) by (apply existsb_exists; now exists x).
  congruence.
Qed.

(** Rewriting the sku of the row with a given id keeps the skus distinct,
    when no other row carries the new sku. *)
Lemma update_sku_distinct (id : Z) (product : Product.partial) (s : string)
  (l : list Product.t) :
  Product.set_sku product = Some s ->
  NoDup (map Product.id l) ->
  NoDup (map Product.sku l) ->
  (forall q, In q l -> (Product.id q =? id) = false -> Product.sku q <> s) ->
  NoDup (map Product.sku
           (map (fun p => if Product.id p =? id
                          then Product.assign product p else p) l)).
Proof.
  intros Hs. induction l as [|x l IH]; intros Hid Hsku Hother; cbn;
    [constructor|].
  inversion Hid as [|? ? Hx Hid']; inversion Hsku as [|? ? Hy Hsku']; subst.
  constructor.
  - rewrite map_map. intros Hin. apply in_map_iff in Hin.
    destruct Hin as [q [Hq Hin]].
    assert (Hqx : Product.id q <> Product.id x).
    { intros E. apply Hx. rewrite <- E. now apply in_map. }
    destruct (Product.id x =? id) eqn:Ex.
    + apply Z.eqb_eq in Ex. subst id.
      apply Z.eqb_neq in Hqx. rewrite Hqx in Hq.
      cbn in Hq. rewrite Hs in Hq. cbn in Hq.
      apply (Hother q); [now right | exact Hqx | exact Hq].
    + destruct (Product.id q =? id) eqn:Eq.
      * cbn in Hq. rewrite Hs in Hq. cbn in Hq.
        apply (Hother x); [now left | exact Ex | now symmetry].
      * apply Hy. rewrite <- Hq. now apply in_map.
  - apply IH; [exact Hid' | exact Hsku'|].
    intros q Hq. apply Hother. now right.
Qed.

(** X5.  In a store whose products have distinct ids and distinct skus,
    [createProduct], [updateProduct] and [deleteProduct] leave the ids
    distinct and the skus distinct, whether they return or throw. *)
Theorem products_stay_distinct (now : Z) (product : InsertProduct.t)
  (id : Z) (update : Product.partial) (st : Store) :
  Spec.distinct Product.id (products st) ->
  Spec.distinct Product.sku (products st) ->
  (Spec.distinct Product.id
     (products (snd (Storage.createProduct now product st)))
   /\ Spec.distinct Product.sku
        (products (snd (Storage.createProduct now product st))))
  /\ (Spec.distinct Product.id
        (products (snd (Storage.updateProduct id update st)))
      /\ Spec.distinct Product.sku
           (products (snd (Storage.updateProduct id update st))))
  /\ (Spec.distinct Product.id
        (products (snd (Storage.deleteProduct id st)))
      /\ Spec.distinct Product.sku
           (products (snd (Storage.deleteProduct id st)))).
Proof.
  unfold Spec.distinct. intros Hid Hsku. split; [|split].
  - unfold Storage.createProduct.
    destruct (existsb _ (rows (products st))) eqn:Htaken; [now split|].
    cbn [snd products with_products append rows].
    rewrite !map_app. cbn [map Product.id Product.sku]. split.
    + apply NoDup_snoc; [exact Hid|].
      intros Hin. apply in_map_iff in Hin. destruct Hin as [q [Hq Hin]].
      pose proof (next_rowid_fresh Product.id (products st) q Hin). lia.
    + apply NoDup_snoc; [exact Hsku|].
      intros Hin. apply in_map_iff in Hin. destruct Hin as [q [Hq Hin]].
      apply (existsb_false_In _ _ q) in Htaken; [|exact Hin].
      apply String.eqb_neq in Htaken. contradiction.
  - unfold Storage.updateProduct.
    destruct (Product.sets_nothing update); [now split|].
    set (f := fun p => if Product.id p =? id
                       then Product.assign update p else p).
    destruct (Product.set_sku update) as [s|] eqn:Hs.
    + destruct (existsb (fun p => Product.id p =? id) (rows (products st)))
        eqn:Hhit; cbn [andb].
      * destruct (existsb (fun p => negb _ && _) (rows (products st)))
          eqn:Hclash; [now split|].
        cbn [snd products with_products rows]. split.
        -- rewrite map_map.
           erewrite map_ext; [exact Hid|].
           intros q. unfold f. now destruct (Product.id q =? id).
        -- apply (update_sku_distinct id update s); try assumption.
           intros q Hq Hn E.
           apply (existsb_false_In _ _ q) in Hclash; [|exact Hq].
           cbv beta in Hclash. rewrite Hn in Hclash. cbn in Hclash.
           apply String.eqb_neq in Hclash. contradiction.
      * cbn [snd products with_products rows].
        rewrite (map_ext_in f (fun p => p)), map_id; [now split|].
        intros q Hq. unfold f.
        now rewrite (existsb_false_In _ _ q Hhit Hq).
    + cbn [snd products with_products rows]. rewrite !map_map. split.
      * erewrite map_ext; [exact Hid|].
        intros q. unfold f. now destruct (Product.id q =? id).
      * erewrite map_ext; [exact Hsku|].
        intros q. unfold f. destruct (Product.id q =? id); [|reflexivity].
        cbn. now rewrite Hs.
  - unfold Storage.deleteProduct.
    destruct (_ =? 0)%nat; [now split|].
    destruct (existsb _ (rows (receiptItems st))); [now split|].
    cbn [snd products delete_where rows].
    split; now apply NoDup_map_filter.
Qed.

(** ** Receipts, written and read back *)

Lemma filter_none_in {A : Type} (c : A -> bool) (l : list A) :
  (forall x, In x l -> c x = false) -> filter c l = [].
Proof.
  induction l as [|x l IH]; intros Hc; cbn; [reflexivity|].
  rewrite Hc by now left. apply IH. intros y Hy. apply Hc. now right.
Qed.

Lemma accepted_references (ps : list Product.t)
  (items : list InsertReceiptItem.t) (item : InsertReceiptItem.t) :
  In item (Spec.accepted ps items) ->
  Spec.references_product ps item = true.
Proof.
  induction items as [|x items IH]; cbn; [contradiction|].
  destruct (Spec.references_product ps x) eqn:E; [|contradiction].
  intros [<- | H]; [exact E | now apply IH].
Qed.

(** The rows [add_items] appends belong to the receipt and carry the product
    ids of the items. *)
Lemma new_rows_of_items (receiptId : Z) (items : list InsertReceiptItem.t)
  (new : list ReceiptItem.t) (row : ReceiptItem.t) :
  map Spec.item_of new = map (Spec.for_receipt receiptId) items ->
  In row new ->
  ReceiptItem.receiptId row = receiptId
  /\ exists item, In item items
                  /\ ReceiptItem.productId row
                     = InsertReceiptItem.productId item.
Proof.
  intros Hmap Hin.
  assert (H : In (Spec.item_of row) (map (Spec.for_receipt receiptId) items))
    by (rewrite <- Hmap; now apply in_map).
  apply in_map_iff in H. destruct H as [item [E Hitem]].
  split.
  - apply (f_equal InsertReceiptItem.receiptId) in E. cbn in E. now symmetry.
  - exists item. split; [exact Hitem|].
    apply (f_equal InsertReceiptItem.productId) in E. cbn in E. now symmetry.
Qed.

(** X6.  In a store whose receipt items all reference a receipt, after
    [createReceipt] returned a receipt, [getReceipt] on its id returns that
    receipt, [getReceiptItems] on its id returns the rows of the submitted
    items, in their order and under that receipt id, and [getReceipts] lists
    the receipt. *)
Theorem createReceipt_read_back (now : Z) (receipt : InsertReceipt.t)
  (items : list InsertReceiptItem.t) (st st' : Store) (r : Receipt.t) :
  Forall (fun it => Spec.refs_receipt st (ReceiptItem.receiptId it))
    (rows (receiptItems st)) ->
  Storage.createReceipt now receipt items st = (Returned r, st') ->
  Storage.getReceipt (Receipt.id r) st' = (Returned (Some r), st')
  /\ (exists stored,
        Storage.getReceiptItems (Receipt.id r) st' = (Returned stored, st')
        /\ map Spec.item_of stored
           = map (Spec.for_receipt (Receipt.id r)) items)
  /\ exists listed,
       Storage.getReceipts st' = (Returned listed, st') /\ In r listed.
Proof.
  intros Hfk. rewrite createReceipt_run. unfold Storage.insert_receipt.
  destruct (existsb _ (rows (receipts st))); [discriminate|].
  cbv zeta.
  destruct (Nat.eqb_spec
              (List.length (Spec.accepted (rows (products st)) items))
              (List.length items)) as [Hall | Hall]; [|discriminate].
  apply accepted_all in Hall. rewrite Hall.
  intros [= <- <-].
  set (rid := next_rowid Receipt.id (receipts st)).
  split; [|split].
  - unfold Storage.getReceipt, select. f_equal. f_equal.
    cbn [receipts with_receiptItems with_receipts Receipt.id].
    apply (find_fresh_id Receipt.id (receipts st)). reflexivity.
  - destruct (rows_add_items rid items (receiptItems st))
      as [new [Hrows Hnew]].
    exists new. split; [|exact Hnew].
    unfold Storage.getReceiptItems, select. f_equal. f_equal.
    cbn [receiptItems with_receiptItems Receipt.id]. fold rid.
    rewrite Hrows, filter_app.
    rewrite (filter_none_in _ (rows (receiptItems st))).
    + cbn [app]. apply filter_all_in. intros row Hrow.
      apply Z.eqb_eq. now apply (new_rows_of_items rid items new row Hnew).
    + intros row Hrow. apply Z.eqb_neq.
      rewrite Forall_forall in Hfk. specialize (Hfk row Hrow).
      unfold Spec.refs_receipt in Hfk. apply in_map_iff in Hfk.
      destruct Hfk as [old [E Hold]].
      pose proof (next_rowid_fresh Receipt.id (receipts st) old Hold).
      fold rid in H. lia.
  - eexists. split; [reflexivity|].
    apply orderBy_In.
    cbn [receipts with_receiptItems with_receipts append rows].
    apply in_or_app. right. now left.
Qed.

(** ** Referential integrity *)

Lemma kept_ids (id pid : Z) (l : list Product.t) :
  In pid (map Product.id l) -> pid <> id ->
  In pid (map Product.id (filter (fun p => negb (Product.id p =? id)) l)).
Proof.
  intros Hin Hne. apply in_map_iff in Hin. destruct Hin as [p [<- Hp]].
  apply in_map, filter_In. split; [exact Hp|].
  now apply negb_true_iff, Z.eqb_neq.
Qed.

Lemma Forall_filter {A : Type} (P : A -> Prop) (c : A -> bool) (l : list A) :
  Forall P l -> Forall P (filter c l).
Proof.
  rewrite !Forall_forall. intros H x Hx. apply filter_In in Hx. now apply H.
Qed.

Lemma Forall_filter_strong {A : Type} (P Q : A -> Prop) (c : A -> bool)
  (l : list A) :
  Forall P l -> (forall x, P x -> c x = true -> Q x) -> Forall Q (filter c l).
Proof.
  rewrite !Forall_forall. intros H HPQ x Hx. apply filter_In in Hx.
  destruct Hx as [Hx Hc]. now apply HPQ; [apply H|].
Qed.

(** X7.  [deleteProduct] keeps referential integrity: if every image, review,
    wishlist row and receipt item references a product, and every receipt
    item a receipt, then the same holds after the call, whether it deleted
    the product with its images, reviews and wishlist rows, refused to, or
    found nothing to delete. *)
Theorem deleteProduct_keeps_integrity (id : Z) (st : Store) :
  Spec.integrity st -> Spec.integrity (snd (Storage.deleteProduct id st)).
Proof.
  intros Hst. unfold Storage.deleteProduct.
  destruct (_ =? 0)%nat; [exact Hst|].
  destruct (existsb _ (rows (receiptItems st))) eqn:Href; [exact Hst|].
  destruct Hst as [Hi [Hr [Hw Hit]]].
  unfold Spec.integrity, Spec.refs_product, Spec.refs_receipt.
  cbn [snd products productImages productReviews wishlist receipts
       receiptItems delete_where rows].
  repeat split.
  - eapply Forall_filter_strong; [exact Hi|]. intros i H Hc.
    apply kept_ids; [exact H|]. now apply Z.eqb_neq, negb_true_iff.
  - eapply Forall_filter_strong; [exact Hr|]. intros r H Hc.
    apply kept_ids; [exact H|]. now apply Z.eqb_neq, negb_true_iff.
  - eapply Forall_filter_strong; [exact Hw|]. intros w H Hc.
    apply kept_ids; [exact H|]. now apply Z.eqb_neq, negb_true_iff.
  - rewrite Forall_forall in *. intros it Hin.
    destruct (Hit it Hin) as [Hp Hrc]. split; [|exact Hrc].
    apply kept_ids; [exact Hp|].
    apply Z.eqb_neq. exact (existsb_false_In _ _ it Href Hin).
Qed.

Lemma has_product_refs (st : Store) (id : Z) :
  existsb (fun p => Product.id p =? id) (rows (products st)) = true ->
  Spec.refs_product st id.
Proof.
  intros H. apply existsb_exists in H. destruct H as [p [Hp E]].
  apply Z.eqb_eq in E. subst id. now apply in_map.
Qed.

Lemma Forall_snoc {A : Type} (P : A -> Prop) (l : list A) (x : A) :
  Forall P l -> P x -> Forall P (l ++ [x]).
Proof. intros Hl Hx. apply Forall_app. split; [exact Hl | now constructor]. Qed.

Lemma integrity_createReceipt (now : Z) (receipt : InsertReceipt.t)
  (items : list InsertReceiptItem.t) (st : Store) :
  Spec.integrity st ->
  Spec.integrity (snd (Storage.createReceipt now receipt items st)).
Proof.
  intros Hst. rewrite createReceipt_run. unfold Storage.insert_receipt.
  destruct (existsb _ (rows (receipts st))); [exact Hst|].
  cbn [snd]. destruct Hst as [Hi [Hr [Hw Hit]]].
  set (rid := next_rowid Receipt.id (receipts st)).
  destruct (rows_add_items rid (Spec.accepted (rows (products st)) items)
              (receiptItems st)) as [new [Hrows Hnew]].
  unfold Spec.integrity, Spec.refs_product, Spec.refs_receipt.
  cbn [products productImages productReviews wishlist receipts receiptItems
       with_receiptItems with_receipts append rows Receipt.id].
  fold rid. rewrite Hrows.
  repeat split; try assumption.
  apply Forall_app. split.
  - eapply Forall_impl; [|exact Hit]. intros it [Hp Hrc].
    split; [exact Hp|]. rewrite map_app. apply in_or_app. now left.
  - apply Forall_forall. intros row Hrow.
    destruct (new_rows_of_items rid _ new row Hnew Hrow)
      as [Hrid [item [Hitem Hpid]]].
    split.
    + rewrite Hpid. apply (has_product_refs st).
      exact (accepted_references _ _ _ Hitem).
    + rewrite Hrid, map_app. apply in_or_app. right. now left.
Qed.

Lemma integrity_products_grow (st : Store) (t : Table Product.t) :
  (forall id, Spec.refs_product st id ->
              In id (map Product.id (rows t))) ->
  Spec.integrity st -> Spec.integrity (with_products t st).
Proof.
  intros Hgrow [Hi [Hr [Hw Hit]]].
  unfold Spec.integrity, Spec.refs_product, Spec.refs_receipt.
  cbn [products productImages productReviews wishlist receipts receiptItems
       with_products].
  repeat split.
  - eapply Forall_impl; [|exact Hi]. intros i. apply Hgrow.
  - eapply Forall_impl; [|exact Hr]. intros r. apply Hgrow.
  - eapply Forall_impl; [|exact Hw]. intros w. apply Hgrow.
  - eapply Forall_impl; [|exact Hit]. intros it [Hp Hrc].
    split; [now apply Hgrow | exact Hrc].
Qed.

(** X8.  Every write of the storage layer keeps referential integrity:
    [createReceipt] (also when it throws halfway), [addToWishlist],
    [removeFromWishlist], [addProductImage], [deleteProductImage],
    [addProductReview], [createProduct] and [updateProduct]. *)
Theorem writes_keep_integrity (now : Z) (st : Store)
  (receipt : InsertReceipt.t) (items : list InsertReceiptItem.t)
  (sessionId : string) (productId imageId : Z)
  (image : InsertProductImage.t) (review : InsertProductReview.t)
  (product : InsertProduct.t) (update : Product.partial) :
  Spec.integrity st ->
  Spec.integrity (snd (Storage.createReceipt now receipt items st))
  /\ Spec.integrity (snd (Storage.addToWishlist now sessionId productId st))
  /\ Spec.integrity (snd (Storage.removeFromWishlist sessionId productId st))
  /\ Spec.integrity (snd (Storage.addProductImage image st))
  /\ Spec.integrity (snd (Storage.deleteProductImage imageId st))
  /\ Spec.integrity (snd (Storage.addProductReview now review st))
  /\ Spec.integrity (snd (Storage.createProduct now product st))
  /\ Spec.integrity (snd (Storage.updateProduct productId update st)).
Proof.
  intros Hst.
  pose proof Hst as [Hi [Hr [Hw Hit]]].
  assert (H1 := integrity_createReceipt now receipt items st Hst).
  assert (H2 : Spec.integrity
                 (snd (Storage.addToWishlist now sessionId productId st))).
  { unfold Storage.addToWishlist, bind, select.
    destruct (find _ (rows (wishlist st))); [exact Hst|].
    unfold Storage.insert_wishlist.
    destruct (existsb _ (rows (products st))) eqn:E; [|exact Hst].
    unfold Spec.integrity. cbn. repeat split; try assumption.
    apply Forall_snoc; [exact Hw|]. now apply has_product_refs. }
  assert (H3 : Spec.integrity
                 (snd (Storage.removeFromWishlist sessionId productId st))).
  { unfold Storage.removeFromWishlist, Spec.integrity. cbn.
    repeat split; try assumption. now apply Forall_filter. }
  assert (H4 : Spec.integrity (snd (Storage.addProductImage image st))).
  { unfold Storage.addProductImage.
    destruct (existsb _ (rows (products st))) eqn:E; [|exact Hst].
    unfold Spec.integrity. cbn. repeat split; try assumption.
    apply Forall_snoc; [exact Hi|]. now apply has_product_refs. }
  assert (H5 : Spec.integrity (snd (Storage.deleteProductImage imageId st))).
  { unfold Storage.deleteProductImage, Spec.integrity. cbn.
    repeat split; try assumption. now apply Forall_filter. }
  assert (H6 : Spec.integrity (snd (Storage.addProductReview now review st))).
  { unfold Storage.addProductReview.
    destruct (existsb _ (rows (products st))) eqn:E; [|exact Hst].
    unfold Spec.integrity. cbn. repeat split; try assumption.
    apply Forall_snoc; [exact Hr|]. now apply has_product_refs. }
  assert (H7 : Spec.integrity (snd (Storage.createProduct now product st))).
  { unfold Storage.createProduct.
    destruct (existsb _ (rows (products st))); [exact Hst|].
    cbn [snd]. apply integrity_products_grow; [|exact Hst].
    intros id Hid. cbn [append rows]. rewrite map_app.
    apply in_or_app. now left. }
  assert (H8 : Spec.integrity
                 (snd (Storage.updateProduct productId update st))).
  { unfold Storage.updateProduct.
    destruct (Product.sets_nothing update); [exact Hst|].
    match goal with |- context [if ?c then _ else _] => destruct c end;
      [exact Hst|].
    cbn [snd]. apply integrity_products_grow; [|exact Hst].
    intros id Hid. cbn [rows]. rewrite map_map.
    erewrite map_ext; [exact Hid|].
    intros q. now destruct (Product.id q =? productId). }
  tauto.
Qed.

(** ** GROUP BY over a join *)

Section GroupBy.
Context {A : Type} (key : A -> Z).

Lemma add_to_new_group (x : A) (groups : list (list A)) :
  Spec.no_group key (key x) groups ->
  Sql.add_to_group key x groups = (groups ++ [[x]])%list.
Proof.
  induction 1 as [|g gs Hg _ IH]; cbn; [reflexivity|].
  destruct g as [|y g]; [contradiction|].
  apply Z.eqb_neq in Hg. now rewrite Hg, IH.
Qed.

Lemma add_to_last_group (x y : A) (g : list A) (groups : list (list A)) :
  Spec.no_group key (key x) groups -> key y = key x ->
  Sql.add_to_group key x (groups ++ [y :: g])%list
  = (groups ++ [(y :: g) ++ [x]])%list.
Proof.
  intros Hno Hy. induction Hno as [|h gs Hh _ IH]; cbn.
  - now rewrite Hy, Z.eqb_refl.
  - destruct h as [|z h]; [contradiction|].
    apply Z.eqb_neq in Hh. rewrite Hh. cbn in IH. now rewrite IH.
Qed.

Lemma fold_into_last_group (k : Z) (xs : list A) (y : A) (g : list A)
  (groups : list (list A)) :
  Spec.no_group key k groups -> key y = k -> Forall (fun x => key x = k) xs ->
  fold_left (fun gs x => Sql.add_to_group key x gs) xs
    (groups ++ [y :: g])%list
  = (groups ++ [(y :: g) ++ xs])%list.
Proof.
  intros Hno Hy Hxs. revert g.
  induction Hxs as [|x xs Hx _ IH]; intros g; cbn [fold_left].
  - now rewrite app_nil_r.
  - rewrite add_to_last_group by (rewrite Hx; assumption || congruence).
    cbn [app]. rewrite IH. cbn [app]. now rewrite <- app_assoc.
Qed.

(** A run of rows with one key, none of them seen before, becomes one group
    after the others. *)
Lemma fold_block (k : Z) (block : list A) (groups : list (list A)) :
  Spec.no_group key k groups -> block <> [] -> Forall (fun x => key x = k) block ->
  fold_left (fun gs x => Sql.add_to_group key x gs) block groups
  = (groups ++ [block])%list.
Proof.
  intros Hno Hne Hblock. destruct block as [|x xs]; [contradiction|].
  inversion Hblock as [|? ? Hx Hxs]; subst. cbn [fold_left].
  rewrite add_to_new_group by exact Hno.
  now rewrite (fold_into_last_group (key x)) by auto.
Qed.

End GroupBy.

Section GroupJoin.
Context {A B : Type} (id : A -> Z) (on : A -> B -> bool) (r : list B).

Lemma leftJoin_cons (a : A) (l : list A) :
  Sql.leftJoin on (a :: l) r
  = (Sql.leftJoin on [a] r ++ Sql.leftJoin on l r)%list.
Proof. unfold Sql.leftJoin. cbn. now rewrite app_nil_r. Qed.

Lemma join_block (a : A) :
  Sql.leftJoin on [a] r <> []
  /\ Forall (fun row => fst row = a) (Sql.leftJoin on [a] r).
Proof.
  unfold Sql.leftJoin. cbn. rewrite app_nil_r.
  destruct (filter (on a) r) as [|b m]; split; try discriminate.
  - now repeat constructor.
  - apply Forall_forall. intros row [<- | Hrow]; [reflexivity|].
    apply in_map_iff in Hrow. now destruct Hrow as [x [<- _]].
Qed.

(** Grouping the join by the id of its left row gives, for left rows with
    distinct ids, one group per left row, in their order. *)
Lemma groupBy_leftJoin (l : list A) (groups : list (list (A * option B))) :
  NoDup (map id l) ->
  (forall a, In a l -> Spec.no_group (fun row => id (fst row)) (id a) groups) ->
  fold_left (fun gs x => Sql.add_to_group (fun row => id (fst row)) x gs)
    (Sql.leftJoin on l r) groups
  = (groups ++ map (fun a => Sql.leftJoin on [a] r) l)%list.
Proof.
  revert groups. induction l as [|a l IH]; intros groups Hnd Hno.
  - cbn. now rewrite app_nil_r.
  - rewrite leftJoin_cons, fold_left_app.
    destruct (join_block a) as [Hne Hall].
    rewrite (fold_block _ (id a) (Sql.leftJoin on [a] r) groups).
    + inversion Hnd as [|? ? Ha Hnd']; subst.
      rewrite IH; [cbn [map]; now rewrite <- app_assoc | exact Hnd' |].
      intros b Hb. apply Forall_app. split; [apply Hno; now right|].
      constructor; [|constructor].
      destruct (Sql.leftJoin on [a] r) as [|row block] eqn:E;
        [contradiction|].
      inversion Hall as [|? ? Hrow _]. cbn beta. rewrite Hrow.
      intros Eid. apply Ha. rewrite Eid. now apply in_map.
    + apply Hno. now left.
    + exact Hne.
    + eapply Forall_impl; [|exact Hall]. now intros row ->.
Qed.

End GroupJoin.

(** ** Ordering strings *)

Lemma ascii_compare_eq (a b : ascii) : Ascii.compare a b = Eq -> a = b.
Proof. apply Ascii.compare_eq_iff. Qed.

Lemma ascii_compare_lt_trans (a b c : ascii) :
  Ascii.compare a b = Lt -> Ascii.compare b c = Lt -> Ascii.compare a c = Lt.
Proof.
  unfold Ascii.compare. rewrite !N.compare_lt_iff. apply N.lt_trans.
Qed.

Lemma string_compare_trans (s1 s2 s3 : string) :
  String.compare s1 s2 <> Gt -> String.compare s2 s3 <> Gt ->
  String.compare s1 s3 <> Gt.
Proof.
  revert s2 s3. induction s1 as [|a s1 IH]; intros [|b s2] [|c s3]; cbn;
    try congruence.
  destruct (Ascii.compare a b) eqn:Eab; [| |congruence].
  - apply ascii_compare_eq in Eab. subst b.
    destruct (Ascii.compare a c) eqn:Eac; try congruence. apply IH.
  - destruct (Ascii.compare b c) eqn:Ebc; [| |congruence].
    + apply ascii_compare_eq in Ebc. subst c. rewrite Eab. congruence.
    + now rewrite (ascii_compare_lt_trans a b c Eab Ebc).
Qed.

Lemma string_leb_trans (s1 s2 s3 : string) :
  String.leb s1 s2 = true -> String.leb s2 s3 = true ->
  String.leb s1 s3 = true.
Proof.
  unfold String.leb. intros H12 H23.
  pose proof (string_compare_trans s1 s2 s3) as H.
  destruct (String.compare s1 s2); try discriminate;
    destruct (String.compare s2 s3); try discriminate;
    destruct (String.compare s1 s3); try reflexivity;
    exfalso; apply H; congruence.
Qed.

(** ** Categories with their product counts *)

Lemma count_joined (c : Category.t) (ps : list Product.t) :
  let on := fun (c : Category.t) (p : Product.t) =>
              String.eqb (Category.code c) (Product.category p)
              && Bool.eqb (Product.isActive p) true in
  match Sql.leftJoin on [c] ps with
  | [] => []
  | (c', _) :: _ =>
      [Storage.mkWithCount c'
         (Sql.count
            (filter (fun r => Storage.is_some (snd r))
               (Sql.leftJoin on [c] ps)))]
  end
  = [Storage.mkWithCount c
       (Spec.active_in_category (Category.code c) ps)].
Proof.
  intros on. unfold Sql.leftJoin, Spec.active_in_category. cbn [flat_map].
  rewrite app_nil_r.
  replace (filter (fun p => String.eqb (Product.category p) (Category.code c)
                            && Product.isActive p) ps)
    with (filter (on c) ps).
  - destruct (filter (on c) ps) as [|p m]; [reflexivity|].
    cbn [map]. do 2 f_equal. unfold Sql.count. f_equal.
    cbn [filter snd Storage.is_some List.length]. f_equal.
    induction m as [|q m IH]; cbn; [reflexivity | now rewrite IH].
  - apply filter_ext. intros p. unfold on.
    rewrite String.eqb_sym. now destruct (Product.isActive p).
Qed.

(** X9.  In a store whose categories have distinct ids,
    [getCategoriesWithProductCount] returns every category exactly once,
    ordered by name, each with the number of active products whose category
    is its code: inactive products are not counted, and a category without
    active products is listed with 0. *)
Theorem categories_product_count (st : Store) :
  Spec.distinct Category.id (categories st) ->
  exists listed,
    Storage.getCategoriesWithProductCount st = (Returned listed, st)
    /\ Permutation (map Storage.counted listed) (rows (categories st))
    /\ Forall
         (fun x =>
            Storage.productCount x
            = Spec.active_in_category (Category.code (Storage.counted x))
                (rows (products st)))
         listed
    /\ StronglySorted
         (fun x y =>
            String.leb (Category.name (Storage.counted x))
              (Category.name (Storage.counted y)) = true)
         listed.
Proof.
  intros Hnd. eexists. split; [reflexivity|].
  set (on := fun (c : Category.t) (p : Product.t) =>
               String.eqb (Category.code c) (Product.category p)
               && Bool.eqb (Product.isActive p) true).
  unfold Sql.groupBy.
  rewrite (groupBy_leftJoin Category.id on (rows (products st))
             (rows (categories st)) [] Hnd)
    by (intros; constructor).
  cbn [app].
  assert (Hres :
    flat_map
      (fun g =>
         match g with
         | [] => []
         | (c, _) :: _ =>
             [Storage.mkWithCount c
                (Sql.count (filter (fun r => Storage.is_some (snd r)) g))]
         end)
      (map (fun a => Sql.leftJoin on [a] (rows (products st)))
         (rows (categories st)))
    = map (fun c => Storage.mkWithCount c
                      (Spec.active_in_category (Category.code c)
                         (rows (products st))))
        (rows (categories st))).
  { subst on. induction (rows (categories st)) as [|c l IH]; [reflexivity|].
    cbn [map flat_map]. rewrite IH.
    pose proof (count_joined c (rows (products st))) as Hc.
    cbv zeta in Hc. now rewrite Hc. }
  rewrite Hres. split; [|split].
  - rewrite orderBy_perm, map_map. cbn. now rewrite map_id.
  - eapply Permutation_Forall; [apply Permutation_sym, orderBy_perm|].
    apply Forall_forall. intros x Hx. apply in_map_iff in Hx.
    now destruct Hx as [c [<- _]].
  - apply (orderBy_sorted
             (Sql.asc String.leb
                (fun r => Category.name (Storage.counted r)))).
    + intros x y. apply String.leb_total.
    + intros x y z. apply string_leb_trans.
Qed.

(** X10.  In a store whose categories have distinct names and distinct
    codes, [createCategory] leaves them distinct.  When it returns a
    category, that category is the last row of the table and
    [getCategoryByCode] on its code returns it; it throws, changing nothing,
    exactly when a category already has the name or the code. *)
Theorem createCategory_unique (now : Z) (category : InsertCategory.t)
  (st : Store) :
  Spec.distinct Category.name (categories st) ->
  Spec.distinct Category.code (categories st) ->
  exists out st',
    Storage.createCategory now category st = (out, st')
    /\ Spec.distinct Category.name (categories st')
    /\ Spec.distinct Category.code (categories st')
    /\ match out with
       | Returned c =>
           rows (categories st') = (rows (categories st) ++ [c])%list
           /\ Storage.getCategoryByCode (InsertCategory.code category) st'
              = (Returned (Some c), st')
           /\ Forall (fun old =>
                        Category.name old <> InsertCategory.name category
                        /\ Category.code old <> InsertCategory.code category)
                (rows (categories st))
       | Thrown e =>
           e = SQLITE_CONSTRAINT_UNIQUE /\ st' = st
           /\ exists old,
                In old (rows (categories st))
                /\ (Category.name old = InsertCategory.name category
                    \/ Category.code old = InsertCategory.code category)
       end.
Proof.
  unfold Spec.distinct. intros Hname Hcode. unfold Storage.createCategory.
  destruct (existsb _ (rows (categories st))) eqn:Htaken.
  - eexists. eexists. split; [reflexivity|]. do 2 (split; [assumption|]).
    do 2 (split; [reflexivity|]).
    apply existsb_exists in Htaken. destruct Htaken as [old [Hold E]].
    exists old. split; [exact Hold|].
    apply orb_true_iff in E. now rewrite <- !String.eqb_eq.
  - assert (Hfree : forall old, In old (rows (categories st)) ->
              Category.name old <> InsertCategory.name category
              /\ Category.code old <> InsertCategory.code category).
    { intros old Hold.
      pose proof (existsb_false_In _ _ old Htaken Hold) as E. cbv beta in E.
      apply orb_false_iff in E. now rewrite <- !String.eqb_neq. }
    eexists. eexists. split; [reflexivity|].
    cbn [categories with_categories append rows].
    rewrite !map_app. cbn [map Category.name Category.code].
    split; [|split; [|split; [reflexivity|split]]].
    + apply NoDup_snoc; [exact Hname|]. intros Hin.
      apply in_map_iff in Hin. destruct Hin as [old [E Hold]].
      destruct (Hfree old Hold) as [Hn _]. now apply Hn.
    + apply NoDup_snoc; [exact Hcode|]. intros Hin.
      apply in_map_iff in Hin. destruct Hin as [old [E Hold]].
      destruct (Hfree old Hold) as [_ Hc]. now apply Hc.
    + unfold Storage.getCategoryByCode, select. f_equal. f_equal.
      cbn [categories with_categories append rows].
      rewrite find_app_None.
      * cbn. now rewrite String.eqb_refl.
      * apply existsb_false_find.
        apply not_true_is_false. intros E.
        apply existsb_exists in E. destruct E as [old [Hold E]].
        apply String.eqb_eq in E. now destruct (Hfree old Hold).
    + now apply Forall_forall.
Qed.

(** ** Featured products *)

(** X11.  [getFeaturedProducts(limit)] with a limit other than 0 returns what
    the catalog query for featured products, newest first, returns under that
    limit; without an argument it does so for the limit 8.  With the limit 0
    it returns nothing.  All it returns is active and featured. *)
Theorem featured_is_catalog_query (limit : Z) (st : Store) :
  (limit <> 0 ->
   Storage.getFeaturedProducts (Some limit) st
   = Storage.getCatalogProducts (Spec.featured_filters limit) st)
  /\ Storage.getFeaturedProducts None st
     = Storage.getCatalogProducts (Spec.featured_filters 8) st
  /\ Storage.getFeaturedProducts (Some 0) st = (Returned [], st)
  /\ Forall (fun p => Product.isActive p = true
                      /\ Product.isFeatured p = true)
       (Spec.returned (Storage.getFeaturedProducts (Some limit) st)).
Proof.
  assert (Hsame : forall n, n <> 0 ->
            Storage.getFeaturedProducts (Some n) st
            = Storage.getCatalogProducts (Spec.featured_filters n) st).
  { intros n Hn. unfold Storage.getFeaturedProducts,
      Storage.getCatalogProducts, select. f_equal. f_equal.
    unfold Storage.catalog_window. cbn [Spec.featured_filters
      Storage.limit Storage.offset Js.truthy_int Storage.or_else].
    destruct n; [contradiction| |]; reflexivity. }
  split; [exact (Hsame limit)|]. split; [now apply (Hsame 8)|].
  split; [reflexivity|].
  unfold Spec.returned, Storage.getFeaturedProducts, select. cbn [fst].
  apply Forall_forall. intros p Hp.
  apply limit_incl, orderBy_In, filter_In in Hp. destruct Hp as [_ Hc].
  cbn in Hc. rewrite andb_true_r in Hc. apply andb_true_iff in Hc.
  now destruct (Product.isActive p), (Product.isFeatured p).
Qed.

(** ** Ratings *)

Lemma fold_left_add_bounds (l : list Z) (a lo hi : Z) :
  Forall (fun x => lo <= x <= hi) l ->
  a + lo * Z.of_nat (List.length l) <= fold_left Z.add l a
  /\ fold_left Z.add l a <= a + hi * Z.of_nat (List.length l).
Proof.
  intros H. revert a. induction H as [|x l Hx _ IH]; intros a.
  - cbn. lia.
  - cbn [fold_left List.length]. specialize (IH (a + x)). nia.
Qed.

Lemma avg_nonempty (l : list Z) :
  l <> [] ->
  Sql.avg l
  = Some (Js.div (inject_Z (fold_left Z.add l 0%Z))
                 (inject_Z (Z.of_nat (List.length l))))
  /\ 0 < Z.of_nat (List.length l).
Proof. destruct l; [contradiction|]. intros _. split; [reflexivity|cbn; lia]. Qed.

(** X12.  [getAverageRating] returns 0 for a product without reviews.  When
    the product has reviews and each of its ratings is between 1 and 5, the
    average it returns is between 1 and 5. *)
Theorem getAverageRating_bounds (productId : Z) (st : Store) :
  (Forall (fun r => ProductReview.productId r <> productId)
     (rows (productReviews st)) ->
   Storage.getAverageRating productId st = (Returned 0%Q, st))
  /\ (Forall (fun r => ProductReview.productId r = productId ->
                       1 <= ProductReview.rating r <= 5)
        (rows (productReviews st)) ->
      (exists r, In r (rows (productReviews st))
                 /\ ProductReview.productId r = productId) ->
      exists average,
        Storage.getAverageRating productId st = (Returned average, st)
        /\ (1 <= average)%Q /\ (average <= 5)%Q).
Proof.
  unfold Storage.getAverageRating, select. split.
  - intros Hnone. rewrite filter_none_in; [reflexivity|].
    rewrite Forall_forall in Hnone. intros r Hr.
    apply Z.eqb_neq. now apply Hnone.
  - intros Hrange [r [Hr Hid]].
    set (ratings :=
           map ProductReview.rating
             (filter (fun r => ProductReview.productId r =? productId)
                (rows (productReviews st)))).
    assert (Hall : Forall (fun x => 1 <= x <= 5) ratings).
    { apply Forall_forall. intros x Hx. apply in_map_iff in Hx.
      destruct Hx as [q [<- Hq]]. apply filter_In in Hq.
      destruct Hq as [Hq E]. apply Z.eqb_eq in E.
      rewrite Forall_forall in Hrange. now apply Hrange. }
    assert (Hne : ratings <> []).
    { intros E. apply (in_nil (a := ProductReview.rating r)).
      rewrite <- E. apply in_map, filter_In.
      split; [exact Hr | now apply Z.eqb_eq]. }
    destruct (fold_left_add_bounds ratings 0 1 5 Hall) as [Hlo Hhi].
    destruct (avg_nonempty ratings Hne) as [Havg Hn]. rewrite Havg.
    set (total := fold_left Z.add ratings 0) in *.
    set (n := Z.of_nat (List.length ratings)) in *.
    assert (Hq1 : (1 <= inject_Z total / inject_Z n)%Q).
    { apply Qle_shift_div_l.
      - change 0%Q with (inject_Z 0). now rewrite <- Zlt_Qlt.
      - rewrite Qmult_1_l. rewrite <- Zle_Qle. lia. }
    assert (Hq5 : (inject_Z total / inject_Z n <= 5)%Q).
    { apply Qle_shift_div_r.
      - change 0%Q with (inject_Z 0). now rewrite <- Zlt_Qlt.
      - change 5%Q with (inject_Z 5). rewrite <- inject_Z_mult.
        rewrite <- Zle_Qle. lia. }
    assert (Hb1 : (1 <= Js.div (inject_Z total) (inject_Z n))%Q).
    { unfold Js.div. rewrite <- (b64_Z 1) by (cbn; lia).
      now apply b64_mono. }
    assert (Hb5 : (Js.div (inject_Z total) (inject_Z n) <= 5)%Q).
    { unfold Js.div. rewrite <- (b64_Z 5) by (cbn; lia).
      now apply b64_mono. }
    eexists. split; [reflexivity|].
    rewrite or_zero_Q_Some. now split.
Qed.

(** ** Product images *)

Lemma delete_fresh_row {A : Type} (id : A -> Z) (row : Z -> A)
  (t : Table A) :
  id (row (next_rowid id t)) = next_rowid id t ->
  filter (fun r => negb (id r =? next_rowid id t)) (rows (append id row t))
  = rows t.
Proof.
  intros Hid. cbn [append rows]. rewrite filter_app. cbn [filter].
  rewrite Hid, Z.eqb_refl. cbn [negb]. rewrite app_nil_r.
  apply filter_all_in. intros r Hr. apply negb_true_iff, Z.eqb_neq.
  pose proof (next_rowid_fresh id t r Hr). lia.
Qed.

(** X13.  When [addProductImage] returns an image, [getProductImages] of its
    product lists it, and [deleteProductImage] on its id returns true and
    leaves the images that were there before the two calls.  For a product
    id that no product has, [addProductImage] throws and stores nothing. *)
Theorem image_round_trip (image : InsertProductImage.t) (st : Store) :
  (forall img st',
     Storage.addProductImage image st = (Returned img, st') ->
     In img (Spec.returned
               (Storage.getProductImages
                  (InsertProductImage.productId image) st'))
     /\ exists st'',
          Storage.deleteProductImage (ProductImage.id img) st'
          = (Returned true, st'')
          /\ rows (productImages st'') = rows (productImages st))
  /\ (~ Spec.refs_product st (InsertProductImage.productId image) ->
      Storage.addProductImage image st
      = (Thrown SQLITE_CONSTRAINT_FOREIGNKEY, st)).
Proof.
  unfold Storage.addProductImage. split.
  - intros img st'.
    destruct (existsb _ (rows (products st))); [|discriminate].
    intros [= <- <-]. split.
    + unfold Spec.returned, Storage.getProductImages, select. cbn [fst].
      apply orderBy_In, filter_In.
      cbn [productImages Storage.with_productImages append rows
           ProductImage.productId].
      split; [apply in_or_app; right; now left | apply Z.eqb_refl].
    + unfold Storage.deleteProductImage. eexists. split.
      * f_equal. f_equal.
        cbn [productImages Storage.with_productImages append rows
             ProductImage.id].
        rewrite filter_app. cbn [filter ProductImage.id].
        rewrite Z.eqb_refl, length_app. cbn [List.length].
        apply Nat.ltb_lt. lia.
      * cbn [productImages Storage.with_productImages delete_where rows
             ProductImage.id].
        apply (delete_fresh_row ProductImage.id _ (productImages st)).
        reflexivity.
  - intros Hno.
    destruct (existsb _ (rows (products st))) eqn:E; [|reflexivity].
    exfalso. apply Hno. now apply has_product_refs.
Qed.

(** ** Reading the wishlist *)

Lemma wishlist_pair_other (s s' : string) (p : Z) (w : WishlistItem.t) :
  s' <> s -> String.eqb (WishlistItem.sessionId w) s' = true ->
  Storage.wishlist_pair s p w = false.
Proof.
  intros Hne E. apply String.eqb_eq in E. unfold Storage.wishlist_pair.
  replace (String.eqb (WishlistItem.sessionId w) s) with false; [reflexivity|].
  symmetry. apply String.eqb_neq. congruence.
Qed.

Lemma filter_filter_keep {A : Type} (c d : A -> bool) (l : list A) :
  (forall x, c x = true -> d x = true) ->
  filter c (filter d l) = filter c l.
Proof.
  intros H. induction l as [|x l IH]; cbn; [reflexivity|].
  destruct (d x) eqn:Ed; cbn; [now rewrite IH|].
  destruct (c x) eqn:Ec; [|exact IH].
  rewrite (H x Ec) in Ed. discriminate.
Qed.

(** X14.  A row that [addToWishlist] returns is in [getWishlist] of its
    session afterwards, and [getWishlist] returns rows of that session only.
    After [removeFromWishlist] the session's wishlist holds no row for the
    product.  Neither call changes what [getWishlist] returns for another
    session. *)
Theorem wishlist_read_back (now : Z) (sessionId : string) (productId : Z)
  (st : Store) :
  (forall w st',
     Storage.addToWishlist now sessionId productId st = (Returned w, st') ->
     In w (Spec.returned (Storage.getWishlist sessionId st'))
     /\ forall other, other <> sessionId ->
          Spec.returned (Storage.getWishlist other st')
          = Spec.returned (Storage.getWishlist other st))
  /\ Forall (fun w => WishlistItem.sessionId w = sessionId)
       (Spec.returned (Storage.getWishlist sessionId st))
  /\ Forall (fun w => WishlistItem.productId w <> productId)
       (Spec.returned
          (Storage.getWishlist sessionId
             (snd (Storage.removeFromWishlist sessionId productId st))))
  /\ forall other, other <> sessionId ->
       Spec.returned
         (Storage.getWishlist other
            (snd (Storage.removeFromWishlist sessionId productId st)))
       = Spec.returned (Storage.getWishlist other st).
Proof.
  unfold Spec.returned, Storage.getWishlist, select. cbn [fst].
  split; [|split; [|split]].
  - intros w st'. unfold Storage.addToWishlist, bind, select.
    destruct (find _ (rows (wishlist st))) as [w0|] eqn:Hfind.
    + intros [= <- <-]. split; [|reflexivity].
      apply find_some in Hfind. destruct Hfind as [Hin Hpair].
      apply orderBy_In, filter_In. split; [exact Hin|].
      unfold Storage.wishlist_pair in Hpair.
      now apply andb_true_iff in Hpair.
    + unfold Storage.insert_wishlist.
      destruct (existsb _ (rows (products st))); [|discriminate].
      intros [= <- <-].
      cbn [wishlist with_wishlist append rows]. split.
      * apply orderBy_In, filter_In.
        split; [apply in_or_app; right; now left|].
        cbn. apply String.eqb_refl.
      * intros other Hne. rewrite filter_app. cbn [filter].
        cbn [WishlistItem.sessionId].
        replace (String.eqb sessionId other) with false;
          [now rewrite app_nil_r|].
        symmetry. apply String.eqb_neq. congruence.
  - apply Forall_forall. intros w Hw.
    apply orderBy_In, filter_In in Hw. now apply String.eqb_eq.
  - cbn [snd wishlist with_wishlist delete_where rows].
    apply Forall_forall. intros w Hw.
    apply orderBy_In, filter_In in Hw. destruct Hw as [Hw Hs].
    apply filter_In in Hw. destruct Hw as [_ Hp].
    unfold Storage.wishlist_pair in Hp. rewrite Hs in Hp. cbn in Hp.
    now apply Z.eqb_neq, negb_true_iff.
  - intros other Hne.
    cbn [snd wishlist with_wishlist delete_where rows]. f_equal.
    apply filter_filter_keep. intros w Hw.
    apply negb_true_iff. now apply (wishlist_pair_other _ other).
Qed.

(** X15.  If the wishlist holds at most one row per session and product, it
    still does after [addToWishlist] and after [removeFromWishlist]. *)
Theorem wishlist_stays_unique (now : Z) (sessionId : string) (productId : Z)
  (st : Store) :
  Spec.wishlist_unique st ->
  Spec.wishlist_unique
    (snd (Storage.addToWishlist now sessionId productId st))
  /\ Spec.wishlist_unique
       (snd (Storage.removeFromWishlist sessionId productId st)).
Proof.
  unfold Spec.wishlist_unique. intros Hu. split.
  - unfold Storage.addToWishlist, bind, select.
    destruct (find _ (rows (wishlist st))) eqn:Hfind; [exact Hu|].
    unfold Storage.insert_wishlist.
    destruct (existsb _ (rows (products st))); [|exact Hu].
    cbn [snd wishlist with_wishlist append rows].
    rewrite map_app. cbn [map WishlistItem.sessionId WishlistItem.productId].
    apply NoDup_snoc; [exact Hu|].
    intros Hin. apply in_map_iff in Hin. destruct Hin as [w [E Hw]].
    injection E as Es Ep.
    pose proof (find_none _ _ Hfind w Hw) as Hn.
    unfold Storage.wishlist_pair in Hn.
    rewrite Es, Ep, String.eqb_refl, Z.eqb_refl in Hn. discriminate.
  - cbn [snd wishlist with_wishlist delete_where rows].
    now apply NoDup_map_filter.
Qed.

(** ** Looking up a deleted product *)

Lemma find_after_delete {A : Type} (c : A -> bool) (l : list A) :
  find c (filter (fun x => negb (c x)) l) = None.
Proof.
  induction l as [|x l IH]; cbn; [reflexivity|].
  destruct (c x) eqn:E; cbn; [exact IH | now rewrite E].
Qed.

Lemma filter_after_delete {A : Type} (c : A -> bool) (l : list A) :
  filter c (filter (fun x => negb (c x)) l) = [].
Proof.
  apply filter_none_in. intros x Hx. apply filter_In in Hx.
  now apply negb_true_iff.
Qed.

(** X16.  After [deleteProduct] returned true for an id, [getProduct] and
    [getProductWithImages] on that id return nothing, [getProductImages] and
    [getProductReviews] on it return no row, and no catalog query and no
    admin listing returns a product with that id. *)
Theorem deleted_product_is_gone (id : Z) (st st' : Store)
  (filters : Storage.Filters) (search category : option string) :
  Storage.deleteProduct id st = (Returned true, st') ->
  Storage.getProduct id st' = (Returned None, st')
  /\ Storage.getProductWithImages id st' = (Returned None, st')
  /\ Storage.getProductImages id st' = (Returned [], st')
  /\ Storage.getProductReviews id st' = (Returned [], st')
  /\ Forall (fun p => Product.id p <> id)
       (Spec.returned (Storage.getCatalogProducts filters st'))
  /\ Forall (fun p => Product.id p <> id)
       (Spec.returned (Storage.getProducts search category st')).
Proof.
  unfold Storage.deleteProduct.
  destruct (_ =? 0)%nat; [discriminate|].
  destruct (existsb _ (rows (receiptItems st))); [discriminate|].
  intros [= <-].
  assert (Hgone : forall p,
            In p (filter (fun p => negb (Product.id p =? id))
                    (rows (products st))) -> Product.id p <> id).
  { intros p Hp. apply filter_In in Hp. now apply Z.eqb_neq, negb_true_iff. }
  unfold Storage.getProductWithImages, Storage.getProduct,
    Storage.getProductImages, Storage.getProductReviews, bind, select.
  cbn [products productImages productReviews delete_where rows].
  rewrite (find_after_delete (fun p => Product.id p =? id)).
  rewrite (filter_after_delete (fun i => ProductImage.productId i =? id)).
  rewrite (filter_after_delete (fun r => ProductReview.productId r =? id)).
  do 4 (split; [reflexivity|]). split.
  - apply Forall_forall. intros p Hp.
    apply returned_catalog_In in Hp.
    apply Hgone. exact (proj1 Hp).
  - unfold Spec.returned. rewrite getProducts_query. cbn [fst].
    apply Forall_forall. intros p Hp.
    apply limit_incl, orderBy_In, filter_In in Hp.
    apply Hgone. exact (proj1 Hp).
Qed.

(** ** Pages of the catalog *)

Lemma firstn_then_firstn {A : Type} (a b : nat) (l : list A) :
  (firstn a l ++ firstn b (skipn a l))%list = firstn (a + b) l.
Proof.
  revert l. induction a as [|a IH]; intros l; [reflexivity|].
  destruct l as [|x l]; cbn [firstn skipn app Nat.add].
  - now rewrite firstn_nil.
  - f_equal. apply IH.
Qed.

(** X17.  Two consecutive pages fit together: for a page size [n > 0] and an
    offset [m >= 0], the page at offset [m] followed by the page at offset
    [m + n] is the page of size [2 n] at offset [m], whatever the filters and
    the sort order. *)
Theorem catalog_pages_fit (f : Storage.Filters) (n m : Z) (st : Store) :
  0 < n -> 0 <= m ->
  (Spec.returned
     (Storage.getCatalogProducts (Spec.with_window f (Some n) (Some m)) st)
   ++ Spec.returned
        (Storage.getCatalogProducts
           (Spec.with_window f (Some n) (Some (m + n))) st))%list
  = Spec.returned
      (Storage.getCatalogProducts
         (Spec.with_window f (Some (2 * n)) (Some m)) st).
Proof.
  intros Hn Hm.
  unfold Spec.returned, Storage.getCatalogProducts. cbn [fst].
  change (Storage.catalog_conditions (Spec.with_window f _ _))
    with (Storage.catalog_conditions f).
  change (Storage.catalog_order (Spec.with_window f _ _))
    with (Storage.catalog_order f).
  set (sorted := Sql.orderBy _ _).
  rewrite !catalog_page by lia.
  replace (Z.to_nat (m + n)) with (Z.to_nat n + Z.to_nat m)%nat by lia.
  rewrite <- skipn_skipn.
  replace (Z.to_nat (2 * n)) with (Z.to_nat n + Z.to_nat n)%nat by lia.
  apply firstn_then_firstn.
Qed.

(** ** The order of a catalog result *)

Lemma StronglySorted_skipn {A : Type} (R : A -> A -> Prop) (n : nat)
  (l : list A) :
  StronglySorted R l -> StronglySorted R (skipn n l).
Proof.
  intros Hs. revert n.
  induction Hs as [|x l Hs IH Hx]; intros [|n]; cbn; try constructor;
    try assumption.
  apply IH.
Qed.

Lemma Qle_bool_total (x y : Q) : Qle_bool x y = true \/ Qle_bool y x = true.
Proof.
  rewrite !Qle_bool_iff. destruct (Qlt_le_dec x y) as [H | H];
    [left; now apply Qlt_le_weak | now right].
Qed.

Lemma Qle_bool_trans (x y z : Q) :
  Qle_bool x y = true -> Qle_bool y z = true -> Qle_bool x z = true.
Proof. rewrite !Qle_bool_iff. apply Qle_trans. Qed.

Lemma Zleb_total (x y : Z) : (x <=? y) = true \/ (y <=? x) = true.
Proof. rewrite !Z.leb_le. lia. Qed.

Lemma Zleb_trans (x y z : Z) :
  (x <=? y) = true -> (y <=? z) = true -> (x <=? z) = true.
Proof. rewrite !Z.leb_le. lia. Qed.

Section SortedByKey.
Context {A K : Type} (le : K -> K -> bool) (key : A -> K).
Hypothesis le_total : forall x y, le x y = true \/ le y x = true.
Hypothesis le_trans :
  forall x y z, le x y = true -> le y z = true -> le x z = true.

Lemma asc_sorted (l : list A) :
  StronglySorted (fun x y => le (key x) (key y) = true)
    (Sql.orderBy (Sql.asc le key) l).
Proof.
  apply (orderBy_sorted (Sql.asc le key)); unfold Sql.asc.
  - intros x y. apply le_total.
  - intros x y z. apply le_trans.
Qed.

Lemma desc_sorted (l : list A) :
  StronglySorted (fun x y => le (key y) (key x) = true)
    (Sql.orderBy (Sql.desc le key) l).
Proof.
  apply (orderBy_sorted (Sql.desc le key)); unfold Sql.desc.
  - intros x y. apply le_total.
  - intros x y z H1 H2. now apply le_trans with (key y).
Qed.

End SortedByKey.

(** X18.  A catalog result is in the order its filters ask for: by price, by
    creation time or (also by default and for ['rating']) by name, ascending
    unless the order is ['desc']; the page window does not disturb it. *)
Theorem catalog_sorted (f : Storage.Filters) (st : Store) :
  StronglySorted (Spec.in_order f)
    (Spec.returned (Storage.getCatalogProducts f st)).
Proof.
  unfold Spec.returned, Storage.getCatalogProducts. cbn [fst].
  set (query := filter _ _).
  assert (Hs : StronglySorted (Spec.in_order f)
                 (Sql.orderBy (Storage.catalog_order f) query)).
  { unfold Spec.in_order, Storage.catalog_order.
    destruct (Storage.sortBy f) as [[| | |]|],
             (Storage.sortOrder f) as [[|]|]; cbv zeta iota beta;
      first
        [ eapply StronglySorted_impl;
          [|apply (asc_sorted Qle_bool Product.price
                     Qle_bool_total Qle_bool_trans)];
          intros x y; cbv beta; apply Qle_bool_iff
        | eapply StronglySorted_impl;
          [|apply (desc_sorted Qle_bool Product.price
                     Qle_bool_total Qle_bool_trans)];
          intros x y; cbv beta; apply Qle_bool_iff
        | eapply StronglySorted_impl;
          [|apply (asc_sorted Z.leb Product.createdAt
                     Zleb_total Zleb_trans)];
          intros x y; cbv beta; apply Z.leb_le
        | eapply StronglySorted_impl;
          [|apply (desc_sorted Z.leb Product.createdAt
                     Zleb_total Zleb_trans)];
          intros x y; cbv beta; apply Z.leb_le
        | apply (asc_sorted String.leb Product.name
                   String.leb_total string_leb_trans)
        | apply (desc_sorted String.leb Product.name
                   String.leb_total string_leb_trans) ]. }
  unfold Storage.catalog_window.
  destruct (Js.truthy_int (Storage.offset f)) as [m|],
           (Js.truthy_int (Storage.limit f)) as [n|];
    try constructor;
    unfold Sql.limit, Sql.offset;
    repeat match goal with
           | |- context [if ?c then _ else _] => destruct c
           end;
    repeat first [ apply StronglySorted_firstn | apply StronglySorted_skipn ];
    exact Hs.
Qed.

(** * The receipt form *)

Lemma updateQuantity_line_ok (productId quantity : Z)
  (selected : list Client.SelectedProduct) :
  Forall Spec.line_ok selected ->
  Forall Spec.line_ok (Client.updateQuantity productId quantity selected).
Proof.
  intros H. unfold Client.updateQuantity. apply Forall_map.
  eapply Forall_impl; [|exact H]. intros p Hp.
  destruct (Product.id (Client.product p) =? productId); [|exact Hp].
  unfold Spec.line_ok. cbn. reflexivity.
Qed.

(** The subtotal adds the line totals up from the first to the last. *)
Lemma subtotal_rounded (l : list Client.SelectedProduct) (acc : Q) :
  Forall Spec.line_ok l ->
  fold_left (fun sum p => Js.add sum (Client.total p)) l acc
  = fold_left (fun sum x => Js.b64 (sum + Js.b64 x)) (Spec.line_values l) acc.
Proof.
  intros H. revert acc. induction H as [|p l Hp _ IH]; intros acc;
    [reflexivity|].
  cbn [Spec.line_values map fold_left]. unfold Spec.line_ok in Hp.
  rewrite IH. f_equal. unfold Js.add. apply b64_comp. now rewrite Hp.
Qed.

(** X19.  Every handler of the selection keeps each line total equal to
    price times quantity, rounded to binary64: ticking and unticking a
    product (whose price is a binary64 value), setting a quantity, removing
    a product, the plus and the minus button.  On such a selection the
    subtotal of [calculateTotals] is these products added up from the first
    to the last, every sum rounded to binary64; it is the sum of
    price x quantity where no product and no sum on the way is rounded. *)
Theorem selection_keeps_line_totals (product : Product.t) (checked : bool)
  (productId quantity : Z) (taxRate discountRate : option Q)
  (selected : list Client.SelectedProduct) :
  Js.is_double (Product.price product) = true ->
  Forall Spec.line_ok selected ->
  Forall Spec.line_ok (Client.handleProductSelect product checked selected)
  /\ Forall Spec.line_ok (Client.updateQuantity productId quantity selected)
  /\ Forall Spec.line_ok (Client.removeProduct productId selected)
  /\ Forall Spec.line_ok (Client.clickPlus product selected)
  /\ Forall Spec.line_ok (Client.clickMinus product selected)
  /\ (Client.subtotal
        (Client.calculateTotals selected taxRate discountRate)
      == Spec.rounded_sum (Spec.line_values selected))%Q
  /\ (Spec.adds_exactly 0 (Spec.line_values selected) = true ->
      (Client.subtotal
         (Client.calculateTotals selected taxRate discountRate)
       == Spec.sum_lines selected)%Q).
Proof.
  intros Hprice H. apply is_double_b64 in Hprice.
  split; [|split; [|split; [|split; [|split; [|split]]]]].
  - unfold Client.handleProductSelect. destruct checked.
    + apply Forall_app. split; [exact H|]. constructor; [|constructor].
      unfold Spec.line_ok. cbn [Client.total Client.product Client.quantity].
      assert (E : (Product.price product * inject_Z 1
                   == Product.price product)%Q) by ring.
      rewrite (b64_comp _ _ E). now symmetry.
    + now apply Forall_filter.
  - now apply updateQuantity_line_ok.
  - now apply Forall_filter.
  - now apply updateQuantity_line_ok.
  - now apply updateQuantity_line_ok.
  - cbn [Client.calculateTotals Client.subtotal].
    now rewrite subtotal_rounded.
  - intros Hexact. cbn [Client.calculateTotals Client.subtotal].
    rewrite subtotal_rounded by exact H.
    rewrite (rounded_sum_exact _ 0 0); [|reflexivity|exact Hexact].
    unfold Spec.sum_lines. ring.
Qed.

Lemma shown_quantity_positive (product : Product.t)
  (selected : list Client.SelectedProduct) :
  Forall (fun p => 1 <= Client.quantity p) selected ->
  1 <= Client.shown_quantity product selected.
Proof.
  intros H. unfold Client.shown_quantity.
  destruct (find _ selected) as [p|] eqn:E; [|lia].
  apply find_some in E. destruct E as [Hin _].
  rewrite Forall_forall in H. specialize (H p Hin).
  destruct (Client.quantity p =? 0); lia.
Qed.

(** X20.  Through the form, a quantity never drops below 1: ticking a
    product enters it with quantity 1, and the plus and the minus button,
    unticking and removing keep every quantity at 1 or more; the minus
    button on quantity 1 leaves it at 1. *)
Theorem selection_quantities_positive (product : Product.t)
  (checked : bool) (productId : Z)
  (selected : list Client.SelectedProduct) :
  Forall (fun p => 1 <= Client.quantity p) selected ->
  Forall (fun p => 1 <= Client.quantity p)
    (Client.handleProductSelect product checked selected)
  /\ Forall (fun p => 1 <= Client.quantity p)
       (Client.removeProduct productId selected)
  /\ Forall (fun p => 1 <= Client.quantity p)
       (Client.clickPlus product selected)
  /\ Forall (fun p => 1 <= Client.quantity p)
       (Client.clickMinus product selected)
  /\ (Client.shown_quantity product selected = 1 ->
      Forall (fun p => Product.id (Client.product p) = Product.id product ->
                       Client.quantity p = 1)
        (Client.clickMinus product selected)).
Proof.
  intros H. pose proof (shown_quantity_positive product selected H) as Hq.
  assert (Hset : forall q, 1 <= q ->
            Forall (fun p => 1 <= Client.quantity p)
              (Client.updateQuantity (Product.id product) q selected)).
  { intros q Hge. unfold Client.updateQuantity. apply Forall_map.
    eapply Forall_impl; [|exact H]. intros p Hp.
    now destruct (Product.id (Client.product p) =? Product.id product). }
  split; [|split; [|split; [|split]]].
  - unfold Client.handleProductSelect. destruct checked.
    + apply Forall_app. split; [exact H|]. constructor; [cbn; lia|constructor].
    + now apply Forall_filter.
  - now apply Forall_filter.
  - apply Hset. lia.
  - apply Hset. lia.
  - intros Hone. unfold Client.clickMinus, Client.updateQuantity.
    rewrite Hone. apply Forall_map, Forall_forall. intros p _.
    destruct (Product.id (Client.product p) =? Product.id product) eqn:E.
    + reflexivity.
    + apply Z.eqb_neq in E. cbn. intros Hid. contradiction.
Qed.

(** The subtotal of line totals that are not negative is a binary64 value
    that is not negative. *)
Lemma subtotal_nonneg (l : list Client.SelectedProduct) (acc : Q) :
  Forall (fun p => (0 <= Client.total p)%Q) l ->
  (0 <= acc)%Q -> (Js.b64 acc == acc)%Q ->
  let subtotal := fold_left (fun sum p => Js.add sum (Client.total p)) l acc in
  (0 <= subtotal)%Q /\ (Js.b64 subtotal == subtotal)%Q.
Proof.
  intros H. revert acc. induction H as [|p l Hp _ IH]; intros acc Hacc Hd.
  - now split.
  - cbn [fold_left]. apply IH.
    + unfold Js.add. apply b64_nonneg. lra.
    + apply b64_idem.
Qed.

(** X21.  Bounds of the totals: for line totals that are not negative and a
    tax rate and a discount rate between 0 and 1, [calculateTotals] gives
    0 <= discountAmount <= subtotal, 0 <= taxAmount <= subtotal and
    0 <= total <= 2 x subtotal. *)
Theorem calculateTotals_bounds (selected : list Client.SelectedProduct)
  (taxRate discountRate : Q) :
  Forall (fun p => (0 <= Client.total p)%Q) selected ->
  (0 <= taxRate)%Q -> (taxRate <= 1)%Q ->
  (0 <= discountRate)%Q -> (discountRate <= 1)%Q ->
  let t := Client.calculateTotals selected (Some taxRate) (Some discountRate)
  in
  (0 <= Client.subtotal t)%Q
  /\ (0 <= Client.discountAmount t)%Q
  /\ (Client.discountAmount t <= Client.subtotal t)%Q
  /\ (0 <= Client.taxAmount t)%Q
  /\ (Client.taxAmount t <= Client.subtotal t)%Q
  /\ (0 <= Client.total_ t)%Q
  /\ (Client.total_ t <= 2 * Client.subtotal t)%Q.
Proof.
  intros Hpos Ht0 Ht1 Hd0 Hd1.
  cbn [Client.calculateTotals Client.subtotal Client.discountAmount
       Client.taxAmount Client.total_].
  set (subtotal := fold_left _ selected 0%Q).
  destruct (subtotal_nonneg selected 0 Hpos) as [Hs Hsd];
    [apply Qle_refl | reflexivity|]. fold subtotal in Hs, Hsd.
  assert (Ht : Js.mul (Js.sub subtotal
                         (Js.mul subtotal (Js.or_zero_Q (Some discountRate))))
                 (Js.or_zero_Q (Some taxRate))
               = Js.mul (Js.sub subtotal (Js.mul subtotal discountRate))
                   taxRate).
  { unfold Js.mul at 1 3. apply b64_comp.
    rewrite (or_zero_Q_Some taxRate). apply Qmult_comp; [|reflexivity].
    unfold Js.sub. apply b64_eq. apply Qplus_comp; [reflexivity|].
    apply Qopp_comp. unfold Js.mul. apply b64_eq.
    now rewrite (or_zero_Q_Some discountRate). }
  assert (Hd : Js.mul subtotal (Js.or_zero_Q (Some discountRate))
               = Js.mul subtotal discountRate).
  { unfold Js.mul. apply b64_comp.
    now rewrite (or_zero_Q_Some discountRate). }
  rewrite Ht, Hd. clear Ht Hd.
  set (discount := Js.mul subtotal discountRate).
  assert (HD0 : (0 <= discount)%Q).
  { unfold discount, Js.mul. apply b64_nonneg. nra. }
  assert (HD1 : (discount <= subtotal)%Q).
  { unfold discount, Js.mul. rewrite <- Hsd at 2. apply b64_mono. nra. }
  set (taxable := Js.sub subtotal discount).
  assert (HX0 : (0 <= taxable)%Q).
  { unfold taxable, Js.sub. apply b64_nonneg. lra. }
  assert (HX1 : (taxable <= subtotal)%Q).
  { unfold taxable, Js.sub. rewrite <- Hsd at 2. apply b64_mono. lra. }
  assert (HXd : (Js.b64 taxable == taxable)%Q) by apply b64_idem.
  set (tax := Js.mul taxable taxRate).
  assert (HT0 : (0 <= tax)%Q).
  { unfold tax, Js.mul. apply b64_nonneg. nra. }
  assert (HT1 : (tax <= taxable)%Q).
  { unfold tax, Js.mul. rewrite <- HXd at 2. apply b64_mono. nra. }
  assert (HS0 : (0 <= Js.add taxable tax)%Q).
  { unfold Js.add. apply b64_nonneg. lra. }
  assert (HS1 : (Js.add taxable tax <= 2 * subtotal)%Q).
  { unfold Js.add. rewrite <- (b64_double subtotal Hsd). apply b64_mono. lra. }
  repeat split; lra.
Qed.

(** * Stock figures *)

Lemma length_filter_ext {A : Type} (c d : A -> bool) (l : list A) :
  (forall x, In x l -> c x = d x) ->
  List.length (filter c l) = List.length (filter d l).
Proof.
  intros H. now rewrite (filter_ext_in c d l H).
Qed.

Lemma stock_labels (s : Z) :
  String.eqb (Utils.label (Utils.calculateStockStatus s)) "In Stock"
  = (10 <? s)
  /\ String.eqb (Utils.label (Utils.calculateStockStatus s)) "Out of Stock"
     = (s =? 0)
  /\ (0 <= s ->
      String.eqb (Utils.label (Utils.calculateStockStatus s)) "Low Stock"
      = (0 <? s) && (s <=? 10)).
Proof.
  unfold Utils.calculateStockStatus.
  destruct (Z.eqb_spec s 0), (Z.leb_spec s 10), (Z.ltb_spec 10 s),
           (Z.ltb_spec 0 s); cbn; repeat split; intros; try reflexivity; lia.
Qed.

Lemma bands_partition (l : list Product.t) :
  Forall (fun p => 0 <= Product.stockQuantity p) l ->
  let high := List.length (filter (fun p => 10 <? Product.stockQuantity p) l)
  in
  let low :=
    List.length
      (filter (fun p => (0 <? Product.stockQuantity p)
                        && (Product.stockQuantity p <=? 10)) l) in
  let out := List.length (filter (fun p => Product.stockQuantity p =? 0) l)
  in
  let at_most_10 :=
    List.length (filter (fun p => Product.stockQuantity p <=? 10) l) in
  (high + low + out = List.length l)%nat /\ (at_most_10 = low + out)%nat.
Proof.
  cbv zeta.
  induction 1 as [|p l Hp _ [IH1 IH2]]; cbn [filter List.length];
    [split; reflexivity|].
  destruct (Z.eqb_spec (Product.stockQuantity p) 0),
           (Z.leb_spec (Product.stockQuantity p) 10),
           (Z.ltb_spec 10 (Product.stockQuantity p)),
           (Z.ltb_spec 0 (Product.stockQuantity p));
    cbn [andb List.length]; split; lia.
Qed.

(** X22.  The stock bands of the analytics page and the stock status label
    agree on products whose stock is not negative: the number of products
    labelled 'In Stock', 'Low Stock' and 'Out of Stock' by
    [calculateStockStatus] is the in-stock, low-stock and out-of-stock figure
    of [stockStatusData], the three figures add up to the number of
    products, and [lowStockItems] holds the low-stock and the out-of-stock
    products together. *)
Theorem stock_bands_agree (products : list Product.t) :
  Forall (fun p => 0 <= Product.stockQuantity p) products ->
  let bands := Analytics.stockStatusData products in
  Spec.labelled "In Stock" products = Analytics.inStock bands
  /\ Spec.labelled "Low Stock" products = Analytics.lowStock bands
  /\ Spec.labelled "Out of Stock" products = Analytics.outOfStock bands
  /\ (Analytics.inStock bands + Analytics.lowStock bands
      + Analytics.outOfStock bands = List.length products)%nat
  /\ (List.length (Analytics.lowStockItems products)
      = Analytics.lowStock bands + Analytics.outOfStock bands)%nat.
Proof.
  intros Hpos. destruct (bands_partition products Hpos) as [Hsum Hlow].
  rewrite Forall_forall in Hpos.
  cbn [Analytics.stockStatusData Analytics.inStock Analytics.lowStock
       Analytics.outOfStock].
  unfold Spec.labelled, Analytics.lowStockItems.
  split; [|split; [|split; [|split; assumption]]].
  - apply length_filter_ext. intros p _.
    apply (stock_labels (Product.stockQuantity p)).
  - apply length_filter_ext. intros p Hp.
    now apply (stock_labels (Product.stockQuantity p)), Hpos.
  - apply length_filter_ext. intros p _.
    apply (stock_labels (Product.stockQuantity p)).
Qed.

Lemma Permutation_length_filter {A : Type} (c : A -> bool) (l l' : list A) :
  Permutation l l' -> List.length (filter c l) = List.length (filter c l').
Proof.
  induction 1 as [|x l l' _ IH|x y l|l l' l'' _ IH1 _ IH2]; cbn.
  - reflexivity.
  - destruct (c x); cbn; now rewrite IH.
  - destruct (c x), (c y); reflexivity.
  - now rewrite IH1.
Qed.

(** X23.  With at most 100 products in the store, the number of low-stock
    items the analytics page works out from the admin listing is the
    [lowStockCount] of [getProductStats], and the admin listing is a
    rearrangement of all products. *)
Theorem dashboard_low_stock (engine : Sql.Summation) (st : Store) :
  (List.length (rows (products st)) <= 100)%nat ->
  let listing := Spec.returned (Storage.getProducts None None st) in
  Permutation listing (rows (products st))
  /\ exists stats,
       Storage.getProductStats engine st = (Returned stats, st)
       /\ N.of_nat (List.length (Analytics.lowStockItems listing))
          = Storage.lowStockCount stats.
Proof.
  intros Hle. cbv zeta. unfold Spec.returned.
  rewrite getProducts_query. cbn [fst].
  assert (Hall : Permutation
                   (Sql.limit 100
                      (Sql.orderBy (Sql.desc Z.leb Product.createdAt)
                         (filter (Spec.listing_match None None)
                            (rows (products st)))))
                   (rows (products st))).
  { rewrite filter_all by reflexivity.
    change (Sql.limit 100 ?l) with (firstn 100 l).
    rewrite firstn_all2; [apply orderBy_perm|].
    now rewrite (Permutation_length (orderBy_perm _ _)). }
  split; [exact Hall|].
  eexists. split; [reflexivity|].
  cbn [Storage.lowStockCount Js.or_zero_N]. unfold Sql.count. f_equal.
  unfold Analytics.lowStockItems. now apply Permutation_length_filter.
Qed.

(** * Barcode payload *)

Lemma append_empty (s : string) : s ++ EmptyString = s.
Proof. induction s as [|c s IH]; cbn; [reflexivity | now rewrite IH]. Qed.

Lemma padEnd_zero (n : nat) (s : string) :
  Js.padEnd n "0" s = s ++ Js.repeat_string "0" (n - String.length s).
Proof.
  unfold Js.padEnd.
  destruct (Nat.leb_spec n (String.length s)) as [Hle | Hlt].
  - replace (n - String.length s)%nat with 0%nat by lia.
    cbn [Js.repeat_string]. now rewrite append_empty.
  - cbn [String.length Nat.eqb].
    set (fill := (n - String.length s)%nat).
    rewrite <- (length_repeat_zero fill) at 1.
    now rewrite substring_whole.
Qed.

Lemma length_substring_0 (n : nat) (s : string) :
  String.length (substring 0 n s) = Nat.min n (String.length s).
Proof.
  revert s. induction n as [|n IH]; intros [|c s]; cbn; try reflexivity.
  now rewrite IH.
Qed.

Lemma all_digits_append (s t : string) :
  Spec.all_digits (s ++ t) = Spec.all_digits s && Spec.all_digits t.
Proof.
  induction s as [|c s IH]; cbn; [reflexivity|].
  now rewrite IH, andb_assoc.
Qed.

Lemma all_digits_zeros (n : nat) :
  Spec.all_digits (Js.repeat_string "0" n) = true.
Proof. induction n as [|n IH]; cbn; [reflexivity | exact IH]. Qed.

Lemma all_digits_keep (s : string) : Spec.all_digits (Js.keep_digits s) = true.
Proof.
  induction s as [|c s IH]; cbn; [reflexivity|].
  destruct (Js.is_digit c) eqn:E; cbn; [now rewrite E | exact IH].
Qed.

Lemma all_digits_substring_0 (n : nat) (s : string) :
  Spec.all_digits s = true -> Spec.all_digits (substring 0 n s) = true.
Proof.
  revert s. induction n as [|n IH]; intros [|c s]; cbn; try reflexivity.
  intros H. apply andb_true_iff in H. destruct H as [Hc Hs].
  now rewrite Hc, IH.
Qed.

Lemma keep_digits_id (s : string) :
  Spec.all_digits s = true -> Js.keep_digits s = s.
Proof.
  induction s as [|c s IH]; cbn; [reflexivity|].
  intros H. apply andb_true_iff in H. destruct H as [Hc Hs].
  now rewrite Hc, IH.
Qed.

Lemma substring_0_append (s t : string) :
  substring 0 (String.length s) (s ++ t) = s.
Proof. induction s as [|c s IH]; cbn; [now destruct t | now rewrite IH]. Qed.

(** X24.  For the format 'ean13' the payload handed to the barcode renderer
    is, whatever the input, exactly 12 characters long and made of digits
    only; it starts with the digits of the input when these are at most 12;
    normalising it again gives the same payload.  For every other format the
    payload is the input itself. *)
Theorem ean13_payload (data format : string) :
  let payload := Barcode.barcodeData data "ean13" in
  String.length payload = 12%nat
  /\ Spec.all_digits payload = true
  /\ ((String.length (Js.keep_digits data) <= 12)%nat ->
      substring 0 (String.length (Js.keep_digits data)) payload
      = Js.keep_digits data)
  /\ Barcode.barcodeData payload "ean13" = payload
  /\ (format <> "ean13" -> Barcode.barcodeData data format = data).
Proof.
  cbv zeta. unfold Barcode.barcodeData at 1 2 3 5.
  cbn [String.eqb Ascii.eqb Bool.eqb andb].
  set (digits := Js.keep_digits data).
  assert (Hlen : String.length (substring 0 12 (Js.padEnd 12 "0" digits))
                 = 12%nat).
  { rewrite length_substring_0, padEnd_zero, length_append,
      length_repeat_zero. lia. }
  assert (Hdig : Spec.all_digits (substring 0 12 (Js.padEnd 12 "0" digits))
                 = true).
  { apply all_digits_substring_0. rewrite padEnd_zero, all_digits_append.
    unfold digits. now rewrite all_digits_keep, all_digits_zeros. }
  split; [exact Hlen|]. split; [exact Hdig|]. split; [|split].
  - intros Hshort. rewrite padEnd_zero.
    set (zeros := Js.repeat_string "0" (12 - String.length digits)).
    assert (H12 : String.length (digits ++ zeros) = 12%nat).
    { unfold zeros. rewrite length_append, length_repeat_zero. lia. }
    rewrite <- H12 at 1. rewrite substring_whole.
    apply substring_0_append.
  - unfold Barcode.barcodeData. cbn [String.eqb Ascii.eqb Bool.eqb andb].
    fold digits. rewrite (keep_digits_id _ Hdig).
    rewrite padEnd_zero, Hlen. cbn [Nat.sub Js.repeat_string].
    set (payload := substring 0 12 (Js.padEnd 12 "0" digits)) in *.
    rewrite append_empty.
    rewrite <- Hlen at 1. apply substring_whole.
  - intros Hne. unfold Barcode.barcodeData.
    apply String.eqb_neq in Hne. now rewrite Hne.
Qed.

(** * Database initialisation *)

Lemma insert_or_ignore_returns (now : Z) (row : string * string * string)
  (st : Store) :
  fst (InitDb.insert_or_ignore now row st) = Returned tt.
Proof.
  unfold InitDb.insert_or_ignore. destruct row as [[name code] description].
  now destruct (existsb _ (rows (categories st))).
Qed.

Lemma for_of_fold (now : string -> Z) (l : list (string * string * string))
  (st : Store) :
  for_of l (InitDb.insert_default now) st
  = (Returned tt,
     fold_left (fun st row => snd (InitDb.insert_default now row st)) l st).
Proof.
  revert st. induction l as [|row l IH]; intros st; [reflexivity|].
  cbn [for_of fold_left]. unfold bind.
  pose proof (insert_or_ignore_returns (now (snd (fst row))) row st) as Hret.
  fold (InitDb.insert_default now row) in Hret.
  destruct (InitDb.insert_default now row st) as [out st1].
  cbn in Hret. subst out. apply IH.
Qed.

(** A skipped row changes nothing but the counter, which takes the rowid
    drawn for it. *)
Lemma insert_or_ignore_covered (now : Z) (row : string * string * string)
  (st : Store) :
  Spec.covered row st = true ->
  InitDb.insert_or_ignore now row st
  = (Returned tt,
     with_categories
       (mkTable (rows (categories st))
                (next_rowid Category.id (categories st)))
       st).
Proof.
  unfold Spec.covered, InitDb.insert_or_ignore.
  destruct row as [[name code] description]. now intros ->.
Qed.

(** Where no id is above the counter, the next rowid is the counter plus
    one. *)
Lemma next_rowid_seq_ok {A : Type} (id : A -> Z) (t : Table A) :
  Spec.seq_ok id t -> next_rowid id t = seq t + 1.
Proof.
  unfold Spec.seq_ok, next_rowid. generalize (seq t) as s.
  induction (rows t) as [|r l IH]; intros s H; [reflexivity|].
  inversion H as [|? ? Hr Hl]; subst. cbn [map fold_right].
  specialize (IH s Hl). lia.
Qed.

(** After a row of the statement, skipped or not, no id is above the
    counter, and the other tables are as they were. *)
Lemma insert_or_ignore_seq_ok (now : Z) (row : string * string * string)
  (st : Store) :
  let st' := snd (InitDb.insert_or_ignore now row st) in
  Spec.seq_ok Category.id (categories st')
  /\ st' = with_categories (categories st') st.
Proof.
  cbv zeta. unfold InitDb.insert_or_ignore.
  destruct row as [[name code] description].
  assert (Hold : Forall (fun r => Category.id r
                                  <= next_rowid Category.id (categories st))
                   (rows (categories st))).
  { apply Forall_forall. intros r Hr.
    pose proof (next_rowid_fresh Category.id (categories st) r Hr). lia. }
  destruct (existsb _ (rows (categories st)));
    cbn [snd categories with_categories append rows seq];
    (split; [|reflexivity]); unfold Spec.seq_ok; cbn [rows seq].
  - exact Hold.
  - apply Forall_app. split; [exact Hold|].
    constructor; [cbn; lia | constructor].
Qed.

Lemma insert_or_ignore_covers (now : Z) (row : string * string * string)
  (st : Store) :
  Spec.covered row (snd (InitDb.insert_or_ignore now row st)) = true.
Proof.
  unfold Spec.covered, InitDb.insert_or_ignore.
  destruct row as [[name code] description].
  destruct (existsb _ (rows (categories st))) eqn:E; [exact E|].
  cbn [snd categories with_categories append rows].
  rewrite existsb_app. cbn. rewrite String.eqb_refl. cbn.
  apply orb_true_r.
Qed.

(** An insertion keeps the rows that were there, in front. *)
Lemma insert_or_ignore_grows (now : Z) (row : string * string * string)
  (st : Store) :
  exists added,
    rows (categories (snd (InitDb.insert_or_ignore now row st)))
    = (rows (categories st) ++ added)%list.
Proof.
  unfold InitDb.insert_or_ignore.
  destruct row as [[name code] description].
  destruct (existsb _ (rows (categories st))).
  - exists []. cbn. now rewrite app_nil_r.
  - eexists. cbn [snd categories with_categories append rows]. reflexivity.
Qed.

Lemma covered_grows (row : string * string * string) (st st' : Store)
  (added : list Category.t) :
  rows (categories st') = (rows (categories st) ++ added)%list ->
  Spec.covered row st = true -> Spec.covered row st' = true.
Proof.
  unfold Spec.covered. destruct row as [[name code] description].
  intros -> H. rewrite existsb_app, H. reflexivity.
Qed.

Lemma fold_inserts (now : string -> Z)
  (l : list (string * string * string)) (st : Store) :
  let st' :=
    fold_left (fun st row => snd (InitDb.insert_default now row st)) l st
  in
  (exists added,
     rows (categories st') = (rows (categories st) ++ added)%list)
  /\ forall row, In row l -> Spec.covered row st' = true.
Proof.
  cbv zeta. revert st. induction l as [|x l IH]; intros st.
  - split; [exists []; cbn; now rewrite app_nil_r | contradiction].
  - cbn [fold_left].
    destruct (IH (snd (InitDb.insert_default now x st)))
      as [[added Hadded] Hcov].
    destruct (insert_or_ignore_grows (now (snd (fst x))) x st)
      as [first Hfirst].
    fold (InitDb.insert_default now x) in Hfirst.
    split.
    + exists (first ++ added)%list. rewrite Hadded, Hfirst.
      now rewrite app_assoc.
    + intros row [<- | Hrow]; [|now apply Hcov].
      eapply covered_grows; [exact Hadded|].
      apply (insert_or_ignore_covers (now (snd (fst x)))).
Qed.

Lemma fold_inserts_frame (now : string -> Z)
  (l : list (string * string * string)) (st : Store) :
  let st' :=
    fold_left (fun st row => snd (InitDb.insert_default now row st)) l st
  in
  st' = with_categories (categories st') st
  /\ (l <> [] \/ Spec.seq_ok Category.id (categories st) ->
      Spec.seq_ok Category.id (categories st')).
Proof.
  cbv zeta. revert st. induction l as [|x l IH]; intros st.
  - cbn [fold_left]. split; [now destruct st|].
    intros [H | H]; [contradiction | exact H].
  - cbn [fold_left].
    destruct (insert_or_ignore_seq_ok (now (snd (fst x))) x st)
      as [Hok Hframe].
    fold (InitDb.insert_default now x) in Hok, Hframe.
    destruct (IH (snd (InitDb.insert_default now x st))) as [Hrest Hseq].
    split; [|intros _; apply Hseq; now right].
    set (st1 := snd (InitDb.insert_default now x st)) in *.
    set (st' := fold_left _ l st1) in *. clearbody st' st1.
    transitivity (with_categories (categories st') st1); [exact Hrest|].
    rewrite Hframe. reflexivity.
Qed.

(** Rows that are all covered change nothing but the counter, which moves
    on by one for each of them. *)
Lemma fold_inserts_covered (now : string -> Z)
  (l : list (string * string * string)) (st : Store) :
  (forall row, In row l -> Spec.covered row st = true) ->
  Spec.seq_ok Category.id (categories st) ->
  fold_left (fun st row => snd (InitDb.insert_default now row st)) l st
  = with_categories
      (mkTable (rows (categories st))
               (seq (categories st) + Z.of_nat (List.length l)))
      st.
Proof.
  revert st. induction l as [|x l IH]; intros st H Hok.
  - cbn [fold_left List.length Z.of_nat]. rewrite Z.add_0_r.
    now destruct st as [[crows cseq] ps imgs revs wl rcs its].
  - cbn [fold_left]. unfold InitDb.insert_default at 2.
    rewrite insert_or_ignore_covered by (apply H; now left).
    rewrite (next_rowid_seq_ok _ _ Hok). cbn [snd].
    rewrite IH.
    + cbn [categories with_categories rows seq].
      unfold with_categories. cbn [products productImages productReviews
        wishlist receipts receiptItems]. do 2 f_equal.
      change (List.length (x :: l)) with (S (List.length l)). lia.
    + intros row Hrow. unfold Spec.covered.
      cbn [categories with_categories rows].
      apply (H row). now right.
    + unfold Spec.seq_ok in *. cbn [categories with_categories rows seq].
      eapply Forall_impl; [|exact Hok]. cbv beta. intros r Hr. lia.
Qed.

(** X25.  [initializeDatabase] returns; it touches the categories only, and
    keeps those that exist, in front of the ones it adds; afterwards every
    default category is covered, by a category with its name or with its
    code.  Running it a second time adds no row and changes no table, but
    the six skipped rows use up six rowids: the AUTOINCREMENT counter of the
    categories moves on by 6.  On a store without categories the first run
    creates the six default categories, in the order of the statement. *)
Theorem initializeDatabase_idempotent (now now' : string -> Z)
  (st : Store) :
  let st1 := snd (InitDb.initializeDatabase now st) in
  fst (InitDb.initializeDatabase now st) = Returned tt
  /\ st1 = with_categories (categories st1) st
  /\ (exists added,
        rows (categories st1) = (rows (categories st) ++ added)%list)
  /\ Forall (fun row => Spec.covered row st1 = true)
       InitDb.default_categories
  /\ Spec.seq_ok Category.id (categories st1)
  /\ InitDb.initializeDatabase now' st1
     = (Returned tt,
        with_categories
          (mkTable (rows (categories st1)) (seq (categories st1) + 6))
          st1)
  /\ (rows (categories st) = [] ->
      map (fun c => (Category.name c, Category.code c)) (rows (categories st1))
      = map (fun row => (fst (fst row), snd (fst row)))
          InitDb.default_categories).
Proof.
  cbv zeta. unfold InitDb.initializeDatabase. rewrite !for_of_fold.
  cbn [fst snd].
  destruct (fold_inserts now InitDb.default_categories st) as [Hgrow Hcov].
  destruct (fold_inserts_frame now InitDb.default_categories st)
    as [Hframe Hseq].
  assert (Hok : Spec.seq_ok Category.id
                  (categories
                     (fold_left
                        (fun st row =>
                           snd (InitDb.insert_default now row st))
                        InitDb.default_categories st)))
    by (apply Hseq; left; discriminate).
  split; [reflexivity|]. split; [exact Hframe|].
  split; [exact Hgrow|]. split; [now apply Forall_forall|].
  split; [exact Hok|]. split.
  - f_equal. now rewrite (fold_inserts_covered now' _ _ Hcov Hok).
  - intros Hempty. destruct st as [cats ps imgs revs wl rcs its].
    destruct cats as [crows cseq]. cbn in Hempty. subst crows.
    reflexivity.
Qed.

(** * Authentication *)

Section UniqueKey.
Context {A K : Type} (key : A -> K) (eqb : K -> K -> bool).
Hypothesis eqb_spec : forall a b, eqb a b = true <-> a = b.

(** In a table with distinct keys, selecting on a key finds its one row. *)
Lemma filter_distinct_key (l : list A) (row : A) :
  NoDup (map key l) -> In row l ->
  filter (fun x => eqb (key x) (key row)) l = [row].
Proof.
  induction l as [|x l IH]; intros Hnd Hin; [contradiction|].
  cbn [map] in Hnd. inversion Hnd as [|? ? Hx Hnd']; subst.
  cbn [filter]. destruct Hin as [-> | Hin].
  - rewrite (proj2 (eqb_spec _ _) eq_refl). f_equal.
    apply filter_none_in. intros y Hy.
    apply not_true_is_false. intros E. apply eqb_spec in E.
    apply Hx. rewrite <- E. now apply in_map.
  - replace (eqb (key x) (key row)) with false; [now apply IH|].
    symmetry. apply not_true_is_false. intros E. apply eqb_spec in E.
    apply Hx. rewrite E. now apply in_map.
Qed.

End UniqueKey.

(** X26.  [authenticateUser] returns a session user only for a row of the
    table with that username whose stored hash [bcrypt.compare] accepts for
    the password, and then the id, username and role of that row; for a
    username that no row has it returns null.  With distinct usernames the
    answer is decided by the one row of the username. *)
Theorem authenticateUser_sound (compare : string -> string -> bool)
  (username password : string) (users : Table User.t) :
  (forall s,
     Auth.authenticateUser compare username password users = Some s ->
     exists row,
       In row (rows users)
       /\ User.username row = username
       /\ compare password (User.password row) = true
       /\ s = Auth.mkSession (User.id row) (User.username row)
                (User.role row))
  /\ (Forall (fun row => User.username row <> username) (rows users) ->
      Auth.authenticateUser compare username password users = None)
  /\ (Spec.distinct User.username users ->
      forall row, In row (rows users) -> User.username row = username ->
        Auth.authenticateUser compare username password users
        = if compare password (User.password row)
          then Some (Auth.mkSession (User.id row) (User.username row)
                       (User.role row))
          else None).
Proof.
  unfold Auth.authenticateUser. split; [|split].
  - intros s.
    change (Sql.limit 1 ?l) with (firstn 1 l).
    destruct (filter _ (rows users)) as [|row l] eqn:E; cbn [firstn];
      [discriminate|].
    destruct (compare password (User.password row)) eqn:Hc; [|discriminate].
    intros [= <-]. exists row.
    assert (Hin : In row (filter (fun u => String.eqb (User.username u)
                                              username) (rows users)))
      by (rewrite E; now left).
    apply filter_In in Hin. destruct Hin as [Hin Hu].
    apply String.eqb_eq in Hu. now repeat split.
  - intros Hnone. rewrite filter_none_in; [reflexivity|].
    rewrite Forall_forall in Hnone. intros row Hrow.
    apply String.eqb_neq. now apply Hnone.
  - intros Hnd row Hrow <-.
    change (Sql.limit 1 ?l) with (firstn 1 l).
    rewrite (filter_distinct_key User.username String.eqb String.eqb_eq
               (rows users) row Hnd Hrow).
    reflexivity.
Qed.

(** X27.  Changing a password and logging in with it: assume
    [bcrypt.compare] accepts a password against its own [bcrypt.hash], and a
    table with distinct ids and distinct usernames.  After [changePassword]
    succeeded for a user, [authenticateUser] with that user's name and the
    new password returns that user; the other rows are as they were.  When
    [changePassword] does not succeed, the table is unchanged. *)
Theorem password_change_round_trip
  (hash : string -> string -> string) (compare : string -> string -> bool)
  (salt : string) (userId : Z) (currentPassword newPassword : string)
  (users : Table User.t) :
  (forall s p, compare p (hash s p) = true) ->
  Spec.distinct User.id users ->
  Spec.distinct User.username users ->
  let result :=
    Auth.changePassword hash compare salt userId currentPassword newPassword
      users in
  (Auth.success (fst result) = true ->
   exists row,
     In row (rows users) /\ User.id row = userId
     /\ compare currentPassword (User.password row) = true
     /\ Auth.authenticateUser compare (User.username row) newPassword
          (snd result)
        = Some (Auth.mkSession (User.id row) (User.username row)
                  (User.role row))
     /\ forall other, In other (rows users) -> User.id other <> userId ->
          In other (rows (snd result)))
  /\ (Auth.success (fst result) = false -> snd result = users).
Proof.
  intros Hbcrypt Hid Hname. cbv zeta. unfold Auth.changePassword.
  change (Sql.limit 1 (filter (fun u => User.id u =? userId) (rows users)))
    with (firstn 1 (filter (fun u => User.id u =? userId) (rows users))).
  destruct (filter (fun u => User.id u =? userId) (rows users))
    as [|row l] eqn:E; cbn [firstn];
    [cbn [fst snd Auth.success]; split; [discriminate | reflexivity]|].
  assert (Hin : In row (filter (fun u => User.id u =? userId) (rows users)))
    by (rewrite E; now left).
  apply filter_In in Hin. destruct Hin as [Hin Hrow].
  apply Z.eqb_eq in Hrow.
  destruct (compare currentPassword (User.password row)) eqn:Hc;
    cbn [fst snd Auth.success]; [|split; [discriminate | reflexivity]].
  split; [|discriminate]. intros _.
  exists row. split; [exact Hin|]. split; [exact Hrow|].
  split; [exact Hc|]. split.
  - unfold Auth.authenticateUser. cbn [rows].
    set (f := fun v => if User.id v =? userId then _ else v).
    rewrite (filter_map_commute
               (fun u => String.eqb (User.username u) (User.username row)) f).
    + rewrite (filter_distinct_key User.username String.eqb String.eqb_eq
                 (rows users) row Hname Hin).
      change (Sql.limit 1 (map f [row])) with [f row].
      unfold f. rewrite Hrow, Z.eqb_refl.
      cbn [User.password User.id User.username User.role].
      now rewrite Hbcrypt.
    + intros v. unfold f. now destruct (User.id v =? userId).
  - intros other Hother Hne. cbn [rows]. apply in_map_iff.
    exists other. split; [|exact Hother].
    apply Z.eqb_neq in Hne. now rewrite Hne.
Qed.

Lemma createDefaultAdmin_cases (hash : string -> string -> string)
  (salt : string) (now later : Z) (users : Table User.t) :
  let admins :=
    filter (fun u => String.eqb (User.username u) "admin") (rows users) in
  (admins = [] ->
   Auth.createDefaultAdmin hash salt now later users
   = append User.id
       (fun i => User.mk i "admin" (hash salt "admin") "admin" now later)
       users)
  /\ (admins <> [] ->
      Auth.createDefaultAdmin hash salt now later users = users).
Proof.
  cbv zeta. unfold Auth.createDefaultAdmin.
  change (Sql.limit 1 ?l) with (firstn 1 l).
  destruct (filter _ (rows users)); cbn [firstn List.length Nat.eqb];
    split; intros H; congruence.
Qed.

(** X28.  The default administrator: assume [bcrypt.compare] accepts a
    password against its own hash.  After [createDefaultAdmin], on a table
    that had no user named 'admin', the credentials admin / admin
    authenticate and the session user passes [requireAdmin].  On a table
    that has such a user nothing is written, so that running
    [createDefaultAdmin] again changes nothing. *)
Theorem default_admin_access
  (hash : string -> string -> string) (compare : string -> string -> bool)
  (salt salt' : string) (now now' : Z) (users : Table User.t) :
  (forall s p, compare p (hash s p) = true) ->
  let users' := Auth.createDefaultAdmin hash salt now now users in
  Auth.createDefaultAdmin hash salt' now' now' users' = users'
  /\ (Forall (fun row => User.username row <> "admin") (rows users) ->
      exists s,
        Auth.authenticateUser compare "admin" "admin" users' = Some s
        /\ Auth.role s = "admin"
        /\ Auth.requireAdmin (Some s) = Auth.next)
  /\ ((exists row, In row (rows users) /\ User.username row = "admin") ->
      users' = users).
Proof.
  intros Hbcrypt. cbv zeta.
  destruct (createDefaultAdmin_cases hash salt now now users)
    as [Hnew Hold].
  destruct (filter (fun u => String.eqb (User.username u) "admin")
              (rows users)) as [|admin l] eqn:Hadmins.
  - rewrite (Hnew eq_refl). clear Hnew Hold. split; [|split].
    + apply (createDefaultAdmin_cases hash salt' now' now').
      cbn [append rows]. rewrite filter_app, Hadmins. discriminate.
    + intros _. eexists. unfold Auth.authenticateUser. cbn [append rows].
      rewrite filter_app, Hadmins.
      change (Sql.limit 1 ?l) with (firstn 1 l).
      cbn [filter User.username app String.eqb Ascii.eqb Bool.eqb andb
           firstn User.password].
      rewrite Hbcrypt.
      cbn [User.id User.username User.role]. now repeat split.
    + intros [row [Hrow Hname]]. exfalso.
      apply (in_nil (a := row)). rewrite <- Hadmins. apply filter_In.
      split; [exact Hrow | now apply String.eqb_eq].
  - assert (Hsame : Auth.createDefaultAdmin hash salt now now users = users)
      by (apply Hold; discriminate).
    rewrite Hsame. split; [|split].
    + apply (createDefaultAdmin_cases hash salt' now' now').
      rewrite Hadmins. discriminate.
    + intros Hno. exfalso. rewrite Forall_forall in Hno.
      assert (Hin : In admin (filter (fun u => String.eqb (User.username u)
                                               "admin") (rows users)))
        by (rewrite Hadmins; now left).
      apply filter_In in Hin. destruct Hin as [Hin E].
      apply String.eqb_eq in E. now apply (Hno admin Hin).
    + reflexivity.
Qed.

(** * Top products of the analytics page *)

Lemma StronglySorted_app_inv {A : Type} (R : A -> A -> Prop)
  (l1 l2 : list A) :
  StronglySorted R (l1 ++ l2) ->
  Forall (fun y => Forall (fun x => R x y) l1) l2.
Proof.
  induction l1 as [|a l1 IH]; cbn; intros H.
  - apply Forall_forall. intros y _. constructor.
  - inversion H as [|? ? Hs Ha]; subst. specialize (IH Hs).
    apply Forall_app in Ha. destruct Ha as [_ Ha].
    rewrite Forall_forall in *. intros y Hy.
    constructor; [now apply Ha | now apply IH].
Qed.

(** X29.  [topProducts] holds at most five entries, ordered by value from
    the highest down, and no product left out is worth more than one that is
    listed: the listed entries and the ones left out together are the
    entries of all products. *)
Theorem top_products_highest (products : list Product.t) :
  let top := Analytics.topProducts products in
  (List.length top <= 5)%nat
  /\ StronglySorted
       (fun x y => (Analytics.top_value y <= Analytics.top_value x)%Q) top
  /\ exists rest,
       Permutation (top ++ rest)
         (map (fun p =>
                 Analytics.mkTop (Product.name p)
                   (Js.b64
                      (Product.price p * inject_Z (Product.stockQuantity p)))
                   (Product.stockQuantity p))
              products)
       /\ Forall
            (fun r =>
               Forall (fun t => (Analytics.top_value r
                                 <= Analytics.top_value t)%Q) top)
            rest.
Proof.
  cbv zeta. unfold Analytics.topProducts.
  set (entries := map _ products).
  set (sorted := Sql.orderBy (Sql.desc Qle_bool Analytics.top_value) entries).
  assert (Hs : StronglySorted
                 (fun x y => (Analytics.top_value y
                              <= Analytics.top_value x)%Q) sorted).
  { eapply StronglySorted_impl;
      [|apply (desc_sorted Qle_bool Analytics.top_value
                 Qle_bool_total Qle_bool_trans)].
    intros x y. cbv beta. apply Qle_bool_iff. }
  split; [apply firstn_le_length|].
  split; [now apply StronglySorted_firstn|].
  exists (skipn 5 sorted). split.
  - rewrite firstn_skipn. apply orderBy_perm.
  - apply StronglySorted_app_inv. now rewrite firstn_skipn.
Qed.

(** * Row ids are not handed out twice *)

(** X30.  Wishlist ids are not reused: in a wishlist whose ids are at most
    its AUTOINCREMENT counter, a row that [addToWishlist] inserts after a
    [removeFromWishlist] gets an id above the id of every row there was
    before the removal, the removed ones included, and the ids are again at
    most the counter. *)
Theorem wishlist_ids_not_reused (now : Z) (removed added : string)
  (removedProduct addedProduct : Z) (st st2 : Store) (w : WishlistItem.t) :
  Spec.seq_ok WishlistItem.id (wishlist st) ->
  let st1 := snd (Storage.removeFromWishlist removed removedProduct st) in
  find (Storage.wishlist_pair added addedProduct) (rows (wishlist st1))
  = None ->
  Storage.addToWishlist now added addedProduct st1 = (Returned w, st2) ->
  Forall (fun old => WishlistItem.id old < WishlistItem.id w)
    (rows (wishlist st))
  /\ Spec.seq_ok WishlistItem.id (wishlist st2).
Proof.
  unfold Spec.seq_ok. intros Hseq. cbv zeta.
  unfold Storage.removeFromWishlist. cbn [snd].
  set (st1 := with_wishlist _ st).
  assert (Hsame : seq (wishlist st1) = seq (wishlist st)) by reflexivity.
  clearbody st1.
  intros Hfind. unfold Storage.addToWishlist, bind, select.
  rewrite Hfind. unfold Storage.insert_wishlist.
  destruct (existsb _ (rows (products st1))); [|discriminate].
  intros [= <- <-]. cbn [WishlistItem.id].
  pose proof (next_rowid_above_seq WishlistItem.id (wishlist st1)) as Habove.
  split.
  - eapply Forall_impl; [|exact Hseq]. intros old Hold. cbv beta in *. lia.
  - cbn [wishlist with_wishlist append rows seq].
    apply Forall_app. split; [|repeat constructor; cbn; lia].
    apply Forall_forall. intros r Hr.
    pose proof (next_rowid_fresh WishlistItem.id (wishlist st1) r Hr). lia.
Qed.

(** * The further properties on the sample data *)

Lemma createProduct_lookup_witness :
  exists p st',
    Storage.createProduct 5000 Sample.pen_insert Sample.shop
    = (Returned p, st')
    /\ Storage.getProductBySku "BKS-002-2025" st' = (Returned (Some p), st')
    /\ Storage.getProduct 4 st' = (Returned (Some p), st')
    /\ Product.isActive p = true
    /\ Storage.createProduct 5000 Sample.clash_insert Sample.shop
       = (Thrown SQLITE_CONSTRAINT_UNIQUE, Sample.shop).
Proof.
  destruct (createProduct_lookup 5000 Sample.pen_insert Sample.shop)
    as [Hok _].
  destruct (createProduct_lookup 5000 Sample.clash_insert Sample.shop)
    as [_ Hclash].
  eexists. eexists. split; [reflexivity|].
  destruct (Hok _ _ eq_refl) as [Hsku [Hid [Hactive _]]].
  split; [exact Hsku|]. split; [exact Hid|]. split; [exact Hactive|].
  apply Hclash. exists Sample.gadget. split; [cbn; tauto | reflexivity].
Defined.

Lemma generateSku_injective_witness :
  fst (Storage.generateSku 2026 "ELC" Sample.shop)
  = fst (Storage.generateSku 2026 "ELC" Sample.sold_shop).
Proof.
  apply (generateSku_injective 2026 "ELC" Sample.shop Sample.sold_shop).
  reflexivity.
Defined.

Lemma generateSku_after_create_witness :
  exists p st',
    Storage.createProduct 5000 Sample.pen_insert Sample.shop
    = (Returned p, st')
    /\ fst (Storage.generateSku 2025 "BKS" st') = Returned "BKS-003-2025"
    /\ fst (Storage.generateSku 2025 "ELC" st')
       = fst (Storage.generateSku 2025 "ELC" Sample.shop).
Proof.
  eexists. eexists. split; [reflexivity|].
  destruct (generateSku_after_create 5000 Sample.pen_insert 2025 "BKS"
              Sample.shop _ _ eq_refl) as [Hsame _].
  destruct (generateSku_after_create 5000 Sample.pen_insert 2025 "ELC"
              Sample.shop _ _ eq_refl) as [_ Hother].
  split.
  - exact (proj1 (Hsame eq_refl)).
  - apply Hother. discriminate.
Defined.

Lemma generateSku_after_delete_witness :
  exists st',
    Storage.deleteProduct 1 Sample.busy_shop = (Returned true, st')
    /\ fst (Storage.generateSku 2025 "ELC" st') = Returned "ELC-002-2025"
    /\ Storage.createProduct 5000 Sample.clash_insert st'
       = (Thrown SQLITE_CONSTRAINT_UNIQUE, st').
Proof.
  eexists. split; [reflexivity|].
  assert (Hids : Spec.distinct Product.id (products Sample.busy_shop)).
  { unfold Spec.distinct. cbn.
    repeat constructor; cbn; intuition discriminate. }
  destruct (generateSku_after_delete 5000 2025 1 Sample.busy_shop _
              Sample.widget Hids (or_introl eq_refl) eq_refl eq_refl)
    as [Hsku Hclash].
  split; [exact Hsku|].
  apply (Hclash Sample.gadget); [cbn; tauto | reflexivity | reflexivity].
Defined.

Lemma products_stay_distinct_witness :
  Spec.distinct Product.sku
    (products (snd (Storage.createProduct 5000 Sample.pen_insert
                      Sample.shop)))
  /\ Spec.distinct Product.sku
       (products
          (snd (Storage.updateProduct 1 (Product.only_isActive false)
                  Sample.shop))).
Proof.
  assert (Hids : Spec.distinct Product.id (products Sample.shop)).
  { unfold Spec.distinct. cbn.
    repeat constructor; cbn; intuition discriminate. }
  assert (Hskus : Spec.distinct Product.sku (products Sample.shop)).
  { unfold Spec.distinct. cbn.
    repeat constructor; cbn; intuition discriminate. }
  destruct (products_stay_distinct 5000 Sample.pen_insert 1
              (Product.only_isActive false) Sample.shop Hids Hskus)
    as [[_ Hcreate] [[_ Hupdate] _]].
  split; assumption.
Defined.

Lemma createReceipt_read_back_witness :
  exists r st',
    Storage.createReceipt 5000 Sample.fair_header [Sample.novel_item]
      Sample.sold_shop = (Returned r, st')
    /\ Storage.getReceipt 2 st' = (Returned (Some r), st')
    /\ exists stored,
         Storage.getReceiptItems 2 st' = (Returned stored, st')
         /\ map Spec.item_of stored
            = map (Spec.for_receipt 2) [Sample.novel_item].
Proof.
  eexists. eexists. split; [reflexivity|].
  assert (Hfk : Forall (fun it => Spec.refs_receipt Sample.sold_shop
                                    (ReceiptItem.receiptId it))
                  (rows (receiptItems Sample.sold_shop))).
  { repeat constructor. }
  destruct (createReceipt_read_back 5000 Sample.fair_header
              [Sample.novel_item] Sample.sold_shop _ _ Hfk eq_refl)
    as [Hget [Hitems _]].
  split; [exact Hget | exact Hitems].
Defined.

Lemma sold_shop_integrity : Spec.integrity Sample.sold_shop.
Proof.
  unfold Spec.integrity, Spec.refs_product, Spec.refs_receipt. cbn.
  repeat split; repeat constructor; cbn; tauto.
Qed.

Lemma deleteProduct_keeps_integrity_witness :
  Spec.integrity (snd (Storage.deleteProduct 3 Sample.sold_shop))
  /\ Spec.integrity (snd (Storage.deleteProduct 1 Sample.sold_shop)).
Proof.
  split; apply deleteProduct_keeps_integrity, sold_shop_integrity.
Defined.

Lemma writes_keep_integrity_witness :
  Spec.integrity
    (snd (Storage.createReceipt 5000 Sample.fair_header
            [Sample.novel_item; Sample.ghost_item] Sample.sold_shop))
  /\ Spec.integrity
       (snd (Storage.addToWishlist 5000 "session-b" 3 Sample.sold_shop)).
Proof.
  destruct (writes_keep_integrity 5000 Sample.sold_shop Sample.fair_header
              [Sample.novel_item; Sample.ghost_item] "session-b" 3 1
              Sample.novel_cover
              (InsertProductReview.mk 3 "Ada" None 4 None None)
              Sample.pen_insert (Product.only_isActive false)
              sold_shop_integrity) as [Hreceipt [Hwish _]].
  split; assumption.
Defined.

Lemma categories_product_count_witness :
  exists listed,
    Storage.getCategoriesWithProductCount Sample.shop
    = (Returned listed, Sample.shop)
    /\ map (fun x => (Category.code (Storage.counted x),
                      Storage.productCount x)) listed
       = [("BKS", 1%N); ("ELC", 1%N)]
    /\ Permutation (map Storage.counted listed)
         (rows (categories Sample.shop)).
Proof.
  assert (Hids : Spec.distinct Category.id (categories Sample.shop)).
  { unfold Spec.distinct. cbn.
    repeat constructor; cbn; intuition discriminate. }
  destruct (categories_product_count Sample.shop Hids)
    as [listed [Hrun [Hperm _]]].
  exists listed. split; [exact Hrun|].
  split; [|exact Hperm].
  injection Hrun as <-. reflexivity.
Defined.

Lemma createCategory_unique_witness :
  exists c st',
    Storage.createCategory 5000 Sample.toys_insert Sample.shop
    = (Returned c, st')
    /\ Spec.distinct Category.code (categories st')
    /\ Storage.getCategoryByCode "TOY" st' = (Returned (Some c), st').
Proof.
  assert (Hnames : Spec.distinct Category.name (categories Sample.shop)).
  { unfold Spec.distinct. cbn.
    repeat constructor; cbn; intuition discriminate. }
  assert (Hcodes : Spec.distinct Category.code (categories Sample.shop)).
  { unfold Spec.distinct. cbn.
    repeat constructor; cbn; intuition discriminate. }
  destruct (createCategory_unique 5000 Sample.toys_insert Sample.shop
              Hnames Hcodes) as [out [st' [Hrun [_ [Hcode Hout]]]]].
  injection Hrun as <- <-.
  eexists. eexists. split; [reflexivity|].
  split; [exact Hcode | exact (proj1 (proj2 Hout))].
Defined.

Lemma featured_is_catalog_query_witness :
  Storage.getFeaturedProducts (Some 4) Sample.promo_shop
  = Storage.getCatalogProducts (Spec.featured_filters 4) Sample.promo_shop
  /\ Spec.returned (Storage.getFeaturedProducts None Sample.promo_shop)
     = [Sample.featured_novel].
Proof.
  destruct (featured_is_catalog_query 4 Sample.promo_shop) as [Hsame _].
  split; [apply Hsame; discriminate | reflexivity].
Defined.

Lemma getAverageRating_bounds_witness :
  exists average,
    Storage.getAverageRating 1 Sample.busy_shop
    = (Returned average, Sample.busy_shop)
    /\ (1 <= average)%Q /\ (average <= 5)%Q.
Proof.
  destruct (getAverageRating_bounds 1 Sample.busy_shop) as [_ Hrated].
  apply Hrated.
  - repeat constructor; cbn; lia.
  - exists Sample.widget_review. split; [now left | reflexivity].
Defined.

Lemma image_round_trip_witness :
  exists img st',
    Storage.addProductImage Sample.novel_cover Sample.busy_shop
    = (Returned img, st')
    /\ In img (Spec.returned (Storage.getProductImages 3 st'))
    /\ exists st'',
         Storage.deleteProductImage (ProductImage.id img) st'
         = (Returned true, st'')
         /\ rows (productImages st'')
            = rows (productImages Sample.busy_shop).
Proof.
  destruct (image_round_trip Sample.novel_cover Sample.busy_shop)
    as [Hadd _].
  eexists. eexists. split; [reflexivity|].
  exact (Hadd _ _ eq_refl).
Defined.

Lemma wishlist_read_back_witness :
  exists w st',
    Storage.addToWishlist 5000 "session-b" 3 Sample.busy_shop
    = (Returned w, st')
    /\ In w (Spec.returned (Storage.getWishlist "session-b" st'))
    /\ Spec.returned (Storage.getWishlist "session-a" st')
       = Spec.returned (Storage.getWishlist "session-a" Sample.busy_shop).
Proof.
  destruct (wishlist_read_back 5000 "session-b" 3 Sample.busy_shop)
    as [Hadd _].
  eexists. eexists. split; [reflexivity|].
  destruct (Hadd _ _ eq_refl) as [Hin Hother].
  split; [exact Hin | apply Hother; discriminate].
Defined.

Lemma wishlist_stays_unique_witness :
  Spec.wishlist_unique
    (snd (Storage.addToWishlist 5000 "session-a" 3 Sample.busy_shop))
  /\ Spec.wishlist_unique
       (snd (Storage.removeFromWishlist "session-a" 3 Sample.busy_shop)).
Proof.
  apply wishlist_stays_unique. unfold Spec.wishlist_unique. cbn.
  repeat constructor; cbn; intuition discriminate.
Defined.

Lemma deleted_product_is_gone_witness :
  exists st',
    Storage.deleteProduct 1 Sample.busy_shop = (Returned true, st')
    /\ Storage.getProduct 1 st' = (Returned None, st')
    /\ Storage.getProductWithImages 1 st' = (Returned None, st')
    /\ Storage.getProductImages 1 st' = (Returned [], st').
Proof.
  eexists. split; [reflexivity|].
  destruct (deleted_product_is_gone 1 Sample.busy_shop _ Sample.no_filter
              None None eq_refl) as [Hp [Hw [Hi _]]].
  split; [exact Hp|]. split; [exact Hw | exact Hi].
Defined.

Lemma catalog_pages_fit_witness :
  (Spec.returned
     (Storage.getCatalogProducts
        (Spec.with_window Sample.no_filter (Some 1) (Some 0)) Sample.shop)
   ++ Spec.returned
        (Storage.getCatalogProducts
           (Spec.with_window Sample.no_filter (Some 1) (Some (0 + 1)))
           Sample.shop))%list
  = Spec.returned
      (Storage.getCatalogProducts
         (Spec.with_window Sample.no_filter (Some (2 * 1)) (Some 0))
         Sample.shop).
Proof.
  apply (catalog_pages_fit Sample.no_filter 1 0 Sample.shop); lia.
Defined.

Lemma basket_lines : Forall Spec.line_ok Sample.basket.
Proof. repeat constructor; vm_compute; reflexivity. Qed.

Lemma selection_keeps_line_totals_witness :
  Forall Spec.line_ok (Client.clickPlus Sample.gadget Sample.basket)
  /\ (Client.subtotal
        (Client.calculateTotals Sample.basket (Some (1 # 16)) None)
      == Spec.sum_lines Sample.basket)%Q.
Proof.
  assert (Hprice : Js.is_double (Product.price Sample.gadget) = true)
    by (vm_compute; reflexivity).
  destruct (selection_keeps_line_totals Sample.gadget true 2 3
              (Some (1 # 16)) None Sample.basket Hprice basket_lines)
    as [_ [_ [_ [Hplus [_ [_ Hexact]]]]]].
  split; [exact Hplus|]. apply Hexact. vm_compute. reflexivity.
Defined.

Lemma selection_quantities_positive_witness :
  Forall (fun p => 1 <= Client.quantity p)
    (Client.clickMinus Sample.gadget
       (Client.clickMinus Sample.gadget Sample.basket)).
Proof.
  assert (H : Forall (fun p => 1 <= Client.quantity p) Sample.basket)
    by (repeat constructor; cbn; lia).
  destruct (selection_quantities_positive Sample.gadget true 2
              Sample.basket H) as [_ [_ [_ [Hminus _]]]].
  destruct (selection_quantities_positive Sample.gadget true 2
              (Client.clickMinus Sample.gadget Sample.basket) Hminus)
    as [_ [_ [_ [Hagain _]]]].
  exact Hagain.
Defined.

Lemma calculateTotals_bounds_witness :
  let t := Client.calculateTotals Sample.basket (Some (1 # 16))
             (Some (1 # 8)) in
  (0 <= Client.total_ t)%Q /\ (Client.total_ t <= 2 * Client.subtotal t)%Q.
Proof.
  destruct (calculateTotals_bounds Sample.basket (1 # 16) (1 # 8))
    as [_ [_ [_ [_ [_ [Hlo Hhi]]]]]].
  - repeat constructor; cbn; discriminate.
  - discriminate.
  - discriminate.
  - discriminate.
  - discriminate.
  - split; assumption.
Defined.

Lemma stock_bands_agree_witness :
  Spec.labelled "Out of Stock" (rows (products Sample.shop)) = 1%nat
  /\ (List.length (Analytics.lowStockItems (rows (products Sample.shop)))
      = Analytics.lowStock
          (Analytics.stockStatusData (rows (products Sample.shop)))
        + Analytics.outOfStock
            (Analytics.stockStatusData (rows (products Sample.shop))))%nat.
Proof.
  destruct (stock_bands_agree (rows (products Sample.shop)))
    as [_ [_ [Hout [_ Hlow]]]].
  - repeat constructor; cbn; discriminate.
  - split; [exact Hout | exact Hlow].
Defined.

Lemma dashboard_low_stock_witness :
  exists stats,
    Storage.getProductStats Sql.compensated_sum Sample.shop
    = (Returned stats, Sample.shop)
    /\ N.of_nat
         (List.length
            (Analytics.lowStockItems
               (Spec.returned (Storage.getProducts None None Sample.shop))))
       = Storage.lowStockCount stats.
Proof.
  apply (dashboard_low_stock Sql.compensated_sum Sample.shop). cbn. lia.
Defined.

Lemma ean13_payload_witness :
  Barcode.barcodeData "ELC-001-2025" "ean13" = "001202500000"
  /\ Barcode.barcodeData (Barcode.barcodeData "ELC-001-2025" "ean13") "ean13"
     = Barcode.barcodeData "ELC-001-2025" "ean13"
  /\ Barcode.barcodeData "ELC-001-2025" "code128" = "ELC-001-2025".
Proof.
  destruct (ean13_payload "ELC-001-2025" "code128")
    as [_ [_ [Hprefix [Hagain Hother]]]].
  split; [reflexivity|]. split; [exact Hagain|].
  apply Hother. discriminate.
Defined.

Lemma initializeDatabase_idempotent_witness :
  let st1 := snd (InitDb.initializeDatabase (fun _ => 1000) Sample.blank) in
  let st2 := snd (InitDb.initializeDatabase (fun _ => 2000) st1) in
  map (fun c => (Category.id c, Category.name c, Category.code c))
    (rows (categories st1))
  = [ (1, "Electronics", "ELC"); (2, "Clothing", "CLT");
      (3, "Food & Beverage", "FNB"); (4, "Home & Garden", "HOM");
      (5, "Books", "BKS"); (6, "Toys", "TOY") ]
  /\ rows (categories st2) = rows (categories st1)
  /\ seq (categories st1) = 6 /\ seq (categories st2) = 12
  /\ option_map Category.id
       (match fst (Storage.createCategory 3000
                     (InsertCategory.mk "Garden" "GRD" None None) st2) with
        | Returned c => Some c
        | Thrown _ => None
        end)
     = Some 13.
Proof.
  cbv zeta.
  destruct (initializeDatabase_idempotent (fun _ => 1000) (fun _ => 2000)
              Sample.blank)
    as [_ [_ [_ [_ [_ [Hagain _]]]]]].
  rewrite Hagain. cbn [snd categories with_categories rows seq].
  repeat split.
Defined.

Lemma ends_with_append (suffix salt : string) :
  Sample.ends_with suffix (salt ++ suffix) = true.
Proof.
  induction salt as [|c salt IH].
  - cbn [append]. destruct suffix; cbn; [reflexivity|].
    now rewrite Ascii.eqb_refl, String.eqb_refl.
  - change (String c salt ++ suffix) with (String c (salt ++ suffix)).
    cbn [Sample.ends_with]. rewrite IH. apply orb_true_r.
Qed.

Lemma toy_bcrypt (salt password : string) :
  Sample.toy_compare password (Sample.toy_hash salt password) = true.
Proof. apply ends_with_append. Qed.

Lemma staff_distinct :
  Spec.distinct User.id Sample.staff
  /\ Spec.distinct User.username Sample.staff.
Proof.
  unfold Spec.distinct. cbn.
  split; repeat constructor; cbn; intuition discriminate.
Qed.

Lemma authenticateUser_sound_witness :
  Auth.authenticateUser Sample.toy_compare "bob" "builder" Sample.staff
  = Some (Auth.mkSession 2 "bob" "admin")
  /\ Auth.authenticateUser Sample.toy_compare "eve" "builder" Sample.staff
     = None.
Proof.
  destruct (authenticateUser_sound Sample.toy_compare "bob" "builder"
              Sample.staff) as [_ [_ Hone]].
  destruct (authenticateUser_sound Sample.toy_compare "eve" "builder"
              Sample.staff) as [_ [Hnone _]].
  split.
  - exact (Hone (proj2 staff_distinct) Sample.bob
             (or_intror (or_introl eq_refl)) eq_refl).
  - apply Hnone. repeat constructor; cbn; discriminate.
Defined.

Lemma password_change_round_trip_witness :
  exists row,
    In row (rows Sample.staff) /\ User.id row = 1
    /\ Auth.authenticateUser Sample.toy_compare (User.username row) "byron"
         (snd (Auth.changePassword Sample.toy_hash Sample.toy_compare "s3" 1
                 "lovelace" "byron" Sample.staff))
       = Some (Auth.mkSession (User.id row) (User.username row)
                 (User.role row)).
Proof.
  destruct (password_change_round_trip Sample.toy_hash Sample.toy_compare
              "s3" 1 "lovelace" "byron" Sample.staff toy_bcrypt
              (proj1 staff_distinct) (proj2 staff_distinct)) as [Hok _].
  destruct (Hok eq_refl) as [row [Hin [Hid [_ [Hauth _]]]]].
  exists row. split; [exact Hin|]. split; [exact Hid | exact Hauth].
Defined.

Lemma default_admin_access_witness :
  exists s,
    Auth.authenticateUser Sample.toy_compare "admin" "admin"
      (Auth.createDefaultAdmin Sample.toy_hash "s0" 300 300 Sample.staff)
    = Some s
    /\ Auth.role s = "admin"
    /\ Auth.requireAdmin (Some s) = Auth.next.
Proof.
  destruct (default_admin_access Sample.toy_hash Sample.toy_compare "s0" "s9"
              300 400 Sample.staff toy_bcrypt) as [_ [Hnew _]].
  apply Hnew. repeat constructor; cbn; discriminate.
Defined.

Lemma wishlist_ids_not_reused_witness :
  exists w st2,
    Storage.addToWishlist 5000 "session-a" 3
      (snd (Storage.removeFromWishlist "session-a" 3 Sample.busy_shop))
    = (Returned w, st2)
    /\ Forall (fun old => WishlistItem.id old < WishlistItem.id w)
         (rows (wishlist Sample.busy_shop)).
Proof.
  assert (Hseq : Spec.seq_ok WishlistItem.id (wishlist Sample.busy_shop)).
  { unfold Spec.seq_ok. repeat constructor; cbn; discriminate. }
  eexists. eexists. split; [reflexivity|].
  exact (proj1 (wishlist_ids_not_reused 5000 "session-a" "session-a" 3 3
                  Sample.busy_shop _ _ Hseq eq_refl eq_refl)).
Defined.
